(** * The mDNS service browser of bonjour-service (src/lib/browser.ts)

    A shallow embedding of the [Browser] class: the response handler
    installed by [start], the candidate builder [buildServicesFor], the
    goodbye scan [goodbyes], the known-service list [_services] with its
    add / replace / remove operations, and [expire].

    Conventions of the embedding.
    - A method of the class is a command [Cmd]: a function from the state of
      the browser to the new state and the list of effects it produced, in
      order (events emitted on the browser, calls made on the mdns object).
    - An emitted event records the value the service object had when it was
      emitted.  Listeners are assumed not to call back into the browser.
    - [Date.now()] is an argument of the commands that read the clock.
    - Numbers are integers ([Z]); times and ttls stay far below 2^53, where
      JavaScript arithmetic on them is exact.
    - The helpers imported by browser.ts from other files (dns-equal,
      equal-txt, filter-service, filter-txt, dns-txt, service-types) are
      parameters of the development. *)

From Stdlib Require Import ZArith Lia Bool Ascii.
From stdpp Require Import base strings gmap.

Local Open Scope Z_scope.

(** ** String operations used by the source *)

Module Str.

(** [s.split(sep)] for a one-character separator. *)
Fixpoint split (sep : ascii) (s : string) : list string :=
  match s with
  | EmptyString => [EmptyString]
  | String c s' =>
      if Ascii.eqb c sep then EmptyString :: split sep s'
      else match split sep s' with
           | [] => [String c EmptyString]
           | p :: ps => String c p :: ps
           end
  end.

(** [parts.slice(1, -1)]: without the first and the last element. *)
Definition slice_1_m1 (parts : list string) : list string :=
  removelast (tl parts).

(** [parts.join(sep)]. *)
Definition join (sep : string) (parts : list string) : string :=
  String.concat sep parts.

(** [hay.includes(needle)]. *)
Fixpoint includes (needle hay : string) : bool :=
  String.prefix needle hay ||
  match hay with
  | EmptyString => false
  | String _ hay' => includes needle hay'
  end.

(** Truthiness of a string: only the empty string is falsy. *)
Definition truthy (s : string) : bool := negb (String.eqb s "").

End Str.

(** ** A plain JavaScript object used as a set of keys

    [nameMap] and [serviceMap] only ever hold the value [true]; such an object
    is its list of own keys in creation order. *)

Module JsObject.

Definition t : Type := list string.

Definition empty : t := [].

(** The properties every plain object inherits from [Object.prototype]. *)
Definition inherited : list string :=
  [ "constructor"; "__defineGetter__"; "__defineSetter__"; "hasOwnProperty";
    "__lookupGetter__"; "__lookupSetter__"; "isPrototypeOf";
    "propertyIsEnumerable"; "toString"; "valueOf"; "__proto__";
    "toLocaleString" ].

Definition mem (k : string) (l : list string) : bool :=
  existsb (String.eqb k) l.

(** [k in o]: own or inherited. *)
Definition has (k : string) (o : t) : bool := mem k o || mem k inherited.

(** [o[k] = true].  Assigning a boolean to [__proto__] is ignored. *)
Definition set (k : string) (o : t) : t :=
  if String.eqb k "__proto__" then o
  else if mem k o then o else o ++ [k].

(** [delete o[k]]. *)
Definition delete (k : string) (o : t) : t :=
  List.filter (fun x => negb (String.eqb x k)) o.

Definition digit (c : ascii) : option N :=
  let n := N_of_ascii c in
  if ((48 <=? n) && (n <=? 57))%N then Some (n - 48)%N else None.

Fixpoint digits (s : string) (acc : N) : option N :=
  match s with
  | EmptyString => Some acc
  | String c s' =>
      match digit c with
      | Some d => digits s' (acc * 10 + d)%N
      | None => None
      end
  end.

(** A key is an array index when it is the canonical decimal form of an
    integer below 2^32 - 1. *)
Definition array_index (k : string) : option N :=
  match k with
  | EmptyString => None
  | String c rest =>
      if Ascii.eqb c "0" && negb (String.eqb rest "") then None
      else match digits k 0%N with
           | Some n => if (n <? 4294967295)%N then Some n else None
           | None => None
           end
  end.

Fixpoint insert_sorted (x : N * string) (l : list (N * string)) :
  list (N * string) :=
  match l with
  | [] => [x]
  | y :: l' =>
      if (fst x <=? fst y)%N then x :: l else y :: insert_sorted x l'
  end.

Definition index_keys (o : t) : list (N * string) :=
  fold_right
    (fun k acc =>
       match array_index k with
       | Some n => insert_sorted (n, k) acc
       | None => acc
       end) [] o.

Definition is_index (k : string) : bool :=
  match array_index k with Some _ => true | None => false end.

(** [Object.keys(o)]: array indices in ascending order, then the other
    keys in creation order. *)
Definition keys (o : t) : list string :=
  List.map snd (index_keys o) ++ List.filter (fun k => negb (is_index k)) o.

End JsObject.

(** ** Resource records, as the record source delivers them *)

Definition RawTxt : Type := list string.
Definition KeyValue : Type := gmap string string.

Module RR.

(** [rr.type] together with the [rr.data] that kind of record carries. *)
Inductive rdata : Type :=
| PTR (data : string)
| SRV (target : string) (port : Z)
| TXT (data : RawTxt)
| A (data : string)
| AAAA (data : string)
| Other (type : string).

Record t : Type := mk { name : string; ttl : Z; data : rdata }.

Definition is_PTR (rr : t) : bool :=
  match data rr with PTR _ => true | _ => false end.
Definition is_SRV (rr : t) : bool :=
  match data rr with SRV _ _ => true | _ => false end.
Definition is_TXT (rr : t) : bool :=
  match data rr with TXT _ => true | _ => false end.
Definition is_A (rr : t) : bool :=
  match data rr with A _ => true | _ => false end.
Definition is_AAAA (rr : t) : bool :=
  match data rr with AAAA _ => true | _ => false end.

End RR.

Record Packet : Type := mkPacket {
  answers : list RR.t;
  additionals : list RR.t
}.

(** [packet.answers.concat(packet.additionals)] *)
Definition all_records (packet : Packet) : list RR.t :=
  answers packet ++ additionals packet.

(** The origin of a packet ([rinfo]). *)
Record RemoteInfo : Type := mkRemoteInfo { address : string; rport : Z }.

(** The result of [toType] and the argument of [toString] in service-types. *)
Record ServiceType : Type := mkServiceType {
  st_name : option string;
  st_protocol : option string;
  st_subtype : option string
}.

(** ** Services *)

Module Service.

Record t : Type := mk {
  name : string;
  fqdn : string;
  host : string;
  port : Z;
  type : option string;
  protocol : option string;
  referer : RemoteInfo;
  addresses : list string;
  subtypes : list (option string);
  ttl : option Z;
  lastSeen : Z;
  rawTxt : option RawTxt;
  txt : option KeyValue
}.

(** [service.lastSeen = v] *)
Definition set_lastSeen (v : Z) (s : t) : t :=
  mk (name s) (fqdn s) (host s) (port s) (type s) (protocol s) (referer s)
     (addresses s) (subtypes s) (ttl s) v (rawTxt s) (txt s).

(** [addresses.toString()] *)
Definition addresses_toString (s : t) : string :=
  Str.join "," (addresses s).

End Service.

(** ** Effects and state *)

Inductive Event : Type :=
| Up (service : Service.t)
| Down (service : Service.t)
| SrvUpdate (newService existingService : Service.t)
| TxtUpdate (newService existingService : Service.t).

Inductive Effect : Type :=
| Emit (e : Event)                 (* this.emit(...) *)
| MdnsQuery (name : option string) (* this.mdns.query(name, 'PTR') *)
| MdnsOn                           (* this.mdns.on('response', this.onresponse) *)
| MdnsRemoveListener.              (* this.mdns.removeListener('response', ...) *)

(** The state of a [Browser] object.  The handler closure created by [start]
    is determined by the [nameMap] it captured, so [onresponse] is that
    object's current content, or [None] when no handler is installed. *)
Record Browser : Type := mkBrowser {
  name : option string;
  wildcard : bool;
  txtQuery : option KeyValue;
  onresponse : option JsObject.t;
  serviceMap : JsObject.t;
  _services : list Service.t;
  up_listeners : list nat
}.

Definition set_onresponse (h : option JsObject.t) (b : Browser) : Browser :=
  mkBrowser (name b) (wildcard b) (txtQuery b) h (serviceMap b) (_services b)
            (up_listeners b).

Definition set_serviceMap (m : JsObject.t) (b : Browser) : Browser :=
  mkBrowser (name b) (wildcard b) (txtQuery b) (onresponse b) m (_services b)
            (up_listeners b).

Definition set_services (l : list Service.t) (b : Browser) : Browser :=
  mkBrowser (name b) (wildcard b) (txtQuery b) (onresponse b) (serviceMap b) l
            (up_listeners b).

(** Commands: state in, state and effects out. *)
Definition Cmd : Type := Browser -> Browser * list Effect.

Definition skip : Cmd := fun b => (b, []).

Definition seq (c1 c2 : Cmd) : Cmd :=
  fun b =>
    let (b1, e1) := c1 b in
    let (b2, e2) := c2 b1 in
    (b2, e1 ++ e2).

Notation "c1 >> c2" := (seq c1 c2) (at level 62, right associativity).

Definition emit (e : Event) : Cmd := fun b => (b, [Emit e]).

(** [xs.forEach(f)] for a callback that is a command. *)
Fixpoint forEach {X : Type} (f : X -> Cmd) (xs : list X) : Cmd :=
  match xs with
  | [] => skip
  | x :: xs' => f x >> forEach f xs'
  end.

Definition events (es : list Effect) : list Event :=
  omap (fun e => match e with Emit ev => Some ev | _ => None end) es.

Definition queries (es : list Effect) : list (option string) :=
  omap (fun e => match e with MdnsQuery n => Some n | _ => None end) es.

(** ** Configuration *)

Inductive Protocol : Type := tcp | udp.

Definition protocol_string (p : Protocol) : string :=
  match p with tcp => "tcp" | udp => "udp" end.

Module BrowserConfig.

Record t : Type := mk {
  type : option string;
  name : option string;
  protocol : option Protocol;
  subtypes : option (list string);
  txt : option KeyValue
}.

End BrowserConfig.

(** The second argument of the constructor: [null], a configuration, or the
    [onup] callback itself (callbacks are known by a number). *)
Inductive Opts : Type :=
| OptsNull
| OptsOnUp (onup : nat)
| OptsConfig (c : BrowserConfig.t).

Definition TLD : string := ".local".
Definition WILDCARD : string := "_services._dns-sd._udp" +:+ TLD.

(** [xs.some((s, i) => ...)] as used by [removeService], and [xs.find]:
    the first element satisfying [p], with its index. *)
Fixpoint find_index {X : Type} (p : X -> bool) (xs : list X) :
  option (X * nat) :=
  match xs with
  | [] => None
  | x :: xs' =>
      if p x then Some (x, O)
      else match find_index p xs' with
           | Some (y, i) => Some (y, S i)
           | None => None
           end
  end.

(** [xs.splice(index, 1)] *)
Definition splice1 {X : Type} (index : nat) (xs : list X) : list X :=
  take index xs ++ drop (S index) xs.

(** The helpers browser.ts imports from files that are not part of this
    development: [dnsEqual] (utils/dns-equal), [equalTxt] (utils/equal-txt),
    [filterService] (utils/filter-service), [filterTxt] (utils/filter-txt),
    [decodeAll] (the [DnsTxt] codec held in [this.txt]), and [toType] and
    [toString] of service-types. *)
Class Helpers : Type := mkHelpers {
  dnsEqual : string -> string -> bool;
  equalTxt : option KeyValue -> KeyValue -> bool;
  filterService : Service.t -> option KeyValue -> bool;
  filterTxt : KeyValue -> KeyValue;
  decodeAll : RawTxt -> KeyValue;
  ServiceToType : string -> ServiceType;
  ServiceToString : ServiceType -> string
}.

Section BrowserMethods.

Context {helpers : Helpers}.

(** *** goodbyes *)

Definition ptr_data (rr : RR.t) : option string :=
  match RR.data rr with RR.PTR d => Some d | _ => None end.

Definition is_goodbye (name : string) (rr : RR.t) : bool :=
  RR.is_PTR rr && (RR.ttl rr =? 0) && dnsEqual (RR.name rr) name.

Definition goodbyes (name : string) (packet : Packet) : list string :=
  omap ptr_data (List.filter (is_goodbye name) (all_records packet)).

(** *** buildServicesFor *)

(** The properties the SRV branch assigns, always together. *)
Record SrvFields : Type := mkSrvFields {
  f_name : string;
  f_fqdn : string;
  f_host : string;
  f_referer : RemoteInfo;
  f_port : Z;
  f_type : option string;
  f_protocol : option string
}.

(** The properties the TXT branch assigns. *)
Record TxtFields : Type := mkTxtFields {
  f_rawTxt : RawTxt;
  f_txt : KeyValue
}.

(** The body of the [forEach] over the SRV and TXT records of a candidate;
    a later record overwrites what an earlier one assigned. *)
Definition srv_txt_step (referer : RemoteInfo)
    (acc : option SrvFields * option TxtFields) (rr : RR.t) :
    option SrvFields * option TxtFields :=
  match RR.data rr with
  | RR.SRV target port =>
      let parts := Str.split "." (RR.name rr) in
      let name := hd "" parts in
      let types := ServiceToType (Str.join "." (Str.slice_1_m1 parts)) in
      (Some (mkSrvFields name (RR.name rr) target referer port
               (st_name types) (st_protocol types)), snd acc)
  | RR.TXT d => (fst acc, Some (mkTxtFields d (decodeAll d)))
  | _ => acc
  end.

Definition is_subtype_of (pdata : string) (rr : RR.t) : bool :=
  match RR.data rr with
  | RR.PTR d => dnsEqual d pdata && Str.includes "._sub" (RR.name rr)
  | _ => false
  end.

Definition is_srv_txt_of (pdata : string) (rr : RR.t) : bool :=
  (RR.is_SRV rr || RR.is_TXT rr) && dnsEqual (RR.name rr) pdata.

Definition is_address_of (host : string) (rr : RR.t) : bool :=
  (RR.is_A rr || RR.is_AAAA rr) && dnsEqual (RR.name rr) host.

Definition address_data (rr : RR.t) : option string :=
  match RR.data rr with
  | RR.A d => Some d
  | RR.AAAA d => Some d
  | _ => None
  end.

(** The callback of [.map((ptr) => ...)]: [None] is the [undefined] it
    returns when no name was assigned. *)
Definition candidate (records : list RR.t) (referer : RemoteInfo)
    (receiveTime : Z) (ptr : RR.t) : option Service.t :=
  match RR.data ptr with
  | RR.PTR pdata =>
      let subtypes :=
        List.map (fun rr => st_subtype (ServiceToType (RR.name rr)))
                 (List.filter (is_subtype_of pdata) records) in
      let '(srv, txt) :=
        fold_left (srv_txt_step referer)
                  (List.filter (is_srv_txt_of pdata) records) (None, None) in
      match srv with
      | None => None
      | Some f =>
          if negb (Str.truthy (f_name f)) then None
          else
            let addresses :=
              omap address_data
                   (List.filter (is_address_of (f_host f)) records) in
            Some (Service.mk (f_name f) (f_fqdn f) (f_host f) (f_port f)
                    (f_type f) (f_protocol f) (f_referer f)
                    addresses subtypes (Some (RR.ttl ptr)) receiveTime
                    (option_map f_rawTxt txt) (option_map f_txt txt))
      end
  | _ => None
  end.

Definition is_ptr_for (name : string) (rr : RR.t) : bool :=
  RR.is_PTR rr && dnsEqual (RR.name rr) name.

(** The live records of a packet: goodbye messages are ignored. *)
Definition live_records (packet : Packet) : list RR.t :=
  List.filter (fun rr => 0 <? RR.ttl rr) (all_records packet).

Definition buildServicesFor (name : string) (packet : Packet)
    (referer : RemoteInfo) (receiveTime : Z) : list Service.t :=
  let records := live_records packet in
  omap (candidate records referer receiveTime)
       (List.filter (is_ptr_for name) records).

(** *** The known-service list *)

Definition same_fqdn (fqdn : string) (s : Service.t) : bool :=
  dnsEqual (Service.fqdn s) fqdn.

Definition addService (service : Service.t) : Cmd :=
  fun b =>
    if negb (filterService service (txtQuery b)) then (b, [])
    else
      (set_serviceMap (JsObject.set (Service.fqdn service) (serviceMap b))
         (set_services (_services b ++ [service]) b),
       [Emit (Up service)]).

Definition replaceService (service : Service.t) : Cmd :=
  fun b =>
    (set_services
       (List.map (fun s => if negb (same_fqdn (Service.fqdn service) s)
                           then s else service)
                 (_services b)) b,
     []).

Definition removeService (fqdn : string) : Cmd :=
  fun b =>
    match find_index (same_fqdn fqdn) (_services b) with
    | None => (b, [])
    | Some (service, index) =>
        (set_serviceMap (JsObject.delete fqdn (serviceMap b))
           (set_services (splice1 index (_services b)) b),
         [Emit (Down service)])
    end.

Definition opt_string_eqb (a b : option string) : bool :=
  match a, b with
  | Some x, Some y => String.eqb x y
  | None, None => true
  | _, _ => false
  end.

(** The condition of [updateServiceSrv]. *)
Definition srv_changed (existingService newService : Service.t) : bool :=
  negb (String.eqb (Service.name existingService) (Service.name newService))
  || negb (String.eqb (Service.host existingService) (Service.host newService))
  || negb (Service.port existingService =? Service.port newService)
  || negb (opt_string_eqb (Service.type existingService)
                          (Service.type newService))
  || negb (opt_string_eqb (Service.protocol existingService)
                          (Service.protocol newService))
  || negb (String.eqb (Service.addresses_toString existingService)
                      (Service.addresses_toString newService)).

Definition updateServiceSrv (existingService newService : Service.t) : Cmd :=
  if srv_changed existingService newService
  then replaceService newService >> emit (SrvUpdate newService existingService)
  else skip.

(** [existingService?.txt || {}] *)
Definition txt_or_empty (s : Service.t) : KeyValue :=
  match Service.txt s with Some m => m | None => ∅ end.

Definition updateServiceTxt (existingService service : Service.t) : Cmd :=
  fun b =>
    if equalTxt (Service.txt service) (txt_or_empty existingService)
    then (b, [])
    else if negb (filterService service (txtQuery b))
    then removeService (Service.fqdn service) b
    else (replaceService service
            >> emit (TxtUpdate service existingService)) b.

(** *** The response handler *)

(** The callback of [packet.answers.forEach] in wildcard mode; the
    accumulator is [nameMap] and the queries sent so far. *)
Definition wildcard_answer (selfname : option string)
    (acc : JsObject.t * list Effect) (answer : RR.t) :
    JsObject.t * list Effect :=
  match RR.data answer with
  | RR.PTR data =>
      if negb (opt_string_eqb (Some (RR.name answer)) selfname)
         || JsObject.has (RR.name answer) (fst acc)
      then acc
      else (JsObject.set data (fst acc), snd acc ++ [MdnsQuery (Some data)])
  | _ => acc
  end.

(** The callback of [matches.forEach]. *)
Definition match_service (service : Service.t) : Cmd :=
  fun b =>
    match find_index (same_fqdn (Service.fqdn service)) (_services b) with
    | Some (existingService, index) =>
        let existingService :=
          Service.set_lastSeen (Service.lastSeen service) existingService in
        let b := set_services (<[index := existingService]> (_services b)) b in
        (updateServiceSrv existingService service
           >> updateServiceTxt existingService service) b
    | None => addService service b
    end.

(** The callback of [Object.keys(nameMap).forEach]. *)
Definition process_name (packet : Packet) (rinfo : RemoteInfo)
    (receiveTime : Z) (name : string) : Cmd :=
  forEach removeService (goodbyes name packet)
    >> forEach match_service (buildServicesFor name packet rinfo receiveTime).

(** The [if (self.wildcard) { ... }] block of the handler: the new content
of [nameMap] and the queries sent. *)
Definition wildcard_block (b : Browser) (packet : Packet)
    (nameMap : JsObject.t) : JsObject.t * list Effect :=
  if wildcard b
  then fold_left (wildcard_answer (name b)) (answers packet) (nameMap, [])
  else (nameMap, []).

(** A call of the handler stored in [this.onresponse]; the record source
only calls a handler that is registered. *)
Definition onresponse_call (packet : Packet) (rinfo : RemoteInfo)
    (receiveTime : Z) : Cmd :=
  fun b =>
    match onresponse b with
    | None => (b, [])
    | Some nameMap =>
        let (nameMap, sent) := wildcard_block b packet nameMap in
        let (b', effects) :=
          forEach (process_name packet rinfo receiveTime)
                  (JsObject.keys nameMap)
                  (set_onresponse (Some nameMap) b) in
        (b', sent ++ effects)
    end.

(** *** start, stop, update, expire *)

Definition update : Cmd := fun b => (b, [MdnsQuery (name b)]).

Definition start : Cmd :=
  fun b =>
    match onresponse b, name b with
    | Some _, _ => (b, [])
    | None, None => (b, [])
    | None, Some n =>
        let nameMap :=
          if negb (wildcard b) then JsObject.set n JsObject.empty
          else JsObject.empty in
        ((fun b => (set_onresponse (Some nameMap) b, [MdnsOn])) >> update) b
    end.

Definition stop : Cmd :=
  fun b =>
    match onresponse b with
    | None => (b, [])
    | Some _ => (set_onresponse None b, [MdnsRemoveListener])
    end.

(** The callback of [this._services.filter] in [expire]: whether the
    service is kept, and what is emitted. *)
Definition expire_one (currentTime : Z) (service : Service.t) :
    bool * list Effect :=
  match Service.ttl service with
  | None => (true, [])
  | Some ttl =>
      if ttl =? 0 then (true, [])
      else
        let expireTime := Service.lastSeen service + ttl * 1000 in
        if expireTime <? currentTime then (false, [Emit (Down service)])
        else (true, [])
  end.

Fixpoint expire_filter (currentTime : Z) (services : list Service.t) :
    list Service.t * list Effect :=
  match services with
  | [] => ([], [])
  | s :: rest =>
      let (keep, e1) := expire_one currentTime s in
      let (kept, e2) := expire_filter currentTime rest in
      (if keep then s :: kept else kept, e1 ++ e2)
  end.

Definition expire (currentTime : Z) : Cmd :=
  fun b =>
    let (kept, effects) := expire_filter currentTime (_services b) in
    (set_services kept b, effects).

(** *** The constructor *)

(** The constructor once [opts] is known not to be a function. *)
Definition construct (opts : option BrowserConfig.t) (onup : option nat) :
    Browser * list Effect :=
  let '(name, wildcard) :=
    match opts with
    | Some {| BrowserConfig.type := Some type;
              BrowserConfig.name := oname;
              BrowserConfig.protocol := protocol |} =>
        let name :=
          ServiceToString
            (mkServiceType (Some type)
               (Some (protocol_string (default tcp protocol))) None)
            +:+ TLD in
        (match oname with
         | Some n => if Str.truthy n then n +:+ "." +:+ name else name
         | None => name
         end, false)
    | _ => (WILDCARD, true)
    end in
  let txtQuery :=
    match opts with
    | Some c => option_map filterTxt (BrowserConfig.txt c)
    | None => None
    end in
  let listeners := match onup with Some f => [f] | None => [] end in
  start (mkBrowser (Some name) wildcard txtQuery None JsObject.empty []
                   listeners).

Definition constructor (opts : Opts) (onup : option nat) :
    Browser * list Effect :=
  match opts with
  | OptsOnUp f => construct None (Some f)
  | OptsNull => construct None onup
  | OptsConfig c => construct (Some c) onup
  end.

(** *** Calls from outside *)

Inductive Call : Type :=
| CallStart
| CallStop
| CallUpdate
| CallExpire (currentTime : Z)
| CallResponse (packet : Packet) (rinfo : RemoteInfo) (receiveTime : Z).

Definition call (c : Call) : Cmd :=
  match c with
  | CallStart => start
  | CallStop => stop
  | CallUpdate => update
  | CallExpire t => expire t
  | CallResponse p r t => onresponse_call p r t
  end.

(** The states a browser object can be in. *)
Inductive reachable : Browser -> Prop :=
| reachable_new opts onup : reachable (fst (constructor opts onup))
| reachable_call b c : reachable b -> reachable (fst (call c b)).

End BrowserMethods.

(** ** A reference implementation of the imported helpers

    Used to run the browser on concrete packets. *)

Module Ref.

Definition lower (c : ascii) : ascii :=
  let n := N_of_ascii c in
  if ((65 <=? n) && (n <=? 90))%N then ascii_of_N (n + 32) else c.

Fixpoint lowercase (s : string) : string :=
  match s with
  | EmptyString => EmptyString
  | String c s' => String (lower c) (lowercase s')
  end.

(** Modelled from the spec: utils/dns-equal is not among the sources.  The
    spec compares names for equality; DNS names are equal regardless of
    the case of their ASCII letters. *)
Definition dnsEqual (a b : string) : bool :=
  String.eqb (lowercase a) (lowercase b).

(** Modelled from the spec: utils/equal-txt is not among the sources.  The
    spec's TXT comparison is map equality, ignoring key order; an absent
    mapping equals no mapping. *)
Definition equalTxt (a : option KeyValue) (b : KeyValue) : bool :=
  match a with
  | Some m => bool_decide (m = b)
  | None => false
  end.

(** Modelled from the spec: utils/filter-service is not among the sources.
    A query pattern maps required keys to required values; without a
    pattern every service is admissible. *)
Definition filterService (s : Service.t) (query : option KeyValue) : bool :=
  match query with
  | None => true
  | Some q =>
      forallb
        (fun kv =>
           bool_decide
             (default (∅ : KeyValue) (Service.txt s) !! fst kv
              = Some (snd kv)))
        (map_to_list q)
  end.

(** Modelled from the spec: utils/filter-txt is not among the sources.
    Binary-valued keys take no part in matching: the [binary] key is
    dropped from the query pattern. *)
Definition filterTxt (query : KeyValue) : KeyValue :=
  delete "binary" query.

(** An entry [key=value] of a TXT record, split at its first [=]. *)
Fixpoint split_entry (s : string) : string * string :=
  match s with
  | EmptyString => (EmptyString, EmptyString)
  | String c s' =>
      if Ascii.eqb c "=" then (EmptyString, s')
      else let (k, v) := split_entry s' in (String c k, v)
  end.

(** Modelled from the spec: dns-txt is not among the sources.  The TXT
    codec decodes the raw payload into a key-value mapping. *)
Definition decodeAll (raw : RawTxt) : KeyValue :=
  list_to_map (List.map split_entry raw).

Definition strip_underscore (s : string) : string :=
  match s with
  | String "_" s' => s'
  | _ => s
  end.

(** Modelled from the spec: service-types is not among the sources.  The
    name codec converts the dotted form [_sub._sub._type._protocol] to the
    tuple of service name, protocol and subtype. *)
Definition ServiceToType (s : string) : ServiceType :=
  let parts := List.map strip_underscore (Str.split "." s) in
  if JsObject.mem "sub" parts then
    mkServiceType (parts !! 2%nat) (parts !! 3%nat) (parts !! 0%nat)
  else mkServiceType (parts !! 0%nat) (parts !! 1%nat) None.

(** Modelled from the spec: service-types is not among the sources.  The
    name codec converts the tuple back to [_type._protocol]. *)
Definition ServiceToString (t : ServiceType) : string :=
  "_" +:+ default "" (st_name t) +:+ "._" +:+ default "" (st_protocol t).

Definition helpers : Helpers :=
  mkHelpers dnsEqual equalTxt filterService filterTxt decodeAll
            ServiceToType ServiceToString.

End Ref.

(** ** Example packets *)

Module Example.

#[local] Existing Instance Ref.helpers.

Definition rinfo : RemoteInfo := mkRemoteInfo "192.168.1.9" 5353.

Definition tracked : string := "_http._tcp.local".
Definition fqdn : string := "myprinter._http._tcp.local".

Definition ptr (ttl : Z) : RR.t := RR.mk tracked ttl (RR.PTR fqdn).
Definition srv (target : string) (port : Z) : RR.t :=
  RR.mk fqdn 120 (RR.SRV target port).
Definition txt (raw : RawTxt) : RR.t := RR.mk fqdn 120 (RR.TXT raw).
Definition a : RR.t := RR.mk "printer.local" 120 (RR.A "192.168.1.20").

(** A full announcement of the printer with the given TXT entries. *)
Definition announce (raw : RawTxt) : Packet :=
  mkPacket [ptr 120; srv "printer.local" 631; txt raw] [a].

(** The printer's goodbye. *)
Definition goodbye : Packet := mkPacket [ptr 0] [].

(** A goodbye and a fresh announcement in one packet. *)
Definition restart : Packet :=
  mkPacket [ptr 0; ptr 120; srv "printer.local" 631; txt ["path=/"]] [a].

(** An announcement without a TXT record. *)
Definition bare : Packet := mkPacket [ptr 120; srv "printer.local" 631] [a].

(** The service built from [announce raw] received at [time]. *)
Definition printer (raw : RawTxt) (time : Z) : Service.t :=
  Service.mk "myprinter" fqdn "printer.local" 631 (Some "http") (Some "tcp")
             rinfo ["192.168.1.20"] [] (Some 120) time
             (Some raw) (Some (decodeAll raw)).

(** The service built from [bare]. *)
Definition bare_printer (time : Z) : Service.t :=
  Service.mk "myprinter" fqdn "printer.local" 631 (Some "http") (Some "tcp")
             rinfo ["192.168.1.20"] [] (Some 120) time None None.

(** A browser for http services, after the first announcement. *)
Definition http : BrowserConfig.t :=
  BrowserConfig.mk (Some "http") None None None None.
Definition fresh : Browser := fst (constructor (OptsConfig http) None).
Definition known : Browser :=
  fst (call (CallResponse (announce ["path=/"]) rinfo 1000) fresh).

(** A browser for http services whose TXT record has [a=1], after the
    announcement of such a service. *)
Definition http_a1 : BrowserConfig.t :=
  BrowserConfig.mk (Some "http") None None None (Some {[ "a" := "1" ]}).
Definition fresh_a1 : Browser := fst (constructor (OptsConfig http_a1) None).
Definition known_a1 : Browser :=
  fst (call (CallResponse (announce ["a=1"]) rinfo 1000) fresh_a1).

End Example.

(** ** Example packets for a wildcard browser *)

Module Scenario.

#[local] Existing Instance Ref.helpers.

(** The answer of a responder to the meta-query: it offers http services. *)
Definition meta : Packet :=
  mkPacket [RR.mk WILDCARD 120 (RR.PTR Example.tracked)] [].

(** A meta-answer whose data is the meta-name itself. *)
Definition self_meta : Packet :=
  mkPacket [RR.mk WILDCARD 120 (RR.PTR WILDCARD)] [].

(** A packet about printing services only. *)
Definition ipp : Packet :=
  mkPacket [RR.mk "_ipp._tcp.local" 120 (RR.PTR "laser._ipp._tcp.local");
            RR.mk "laser._ipp._tcp.local" 120 (RR.SRV "laser.local" 631)]
           [RR.mk "laser.local" 120 (RR.A "192.168.1.21")].

(** An announcement of the printer that carries outdated SRV and TXT
    records before the current ones. *)
Definition updated : Packet :=
  mkPacket [Example.ptr 120; Example.srv "old.local" 80;
            Example.txt ["path=/old"]; Example.srv "printer.local" 631;
            Example.txt ["path=/"]]
           [Example.a].

(** A wildcard browser, before and after the meta-answers. *)
Definition wild : Browser := fst (constructor OptsNull None).
Definition wild_http : Browser :=
  fst (call (CallResponse meta Example.rinfo 1000) wild).
Definition wild_closed : Browser :=
  fst (call (CallResponse self_meta Example.rinfo 1000) wild).

(** A second service of the tracked type. *)
Definition scanner_fqdn : string := "scanner._http._tcp.local".
Definition scanner : Packet :=
  mkPacket [RR.mk Example.tracked 120 (RR.PTR scanner_fqdn);
            RR.mk scanner_fqdn 120 (RR.SRV "scanner.local" 9100)]
           [RR.mk "scanner.local" 120 (RR.A "192.168.1.30")].

(** The printer announced again in capital letters, on another port. *)
Definition shouted_fqdn : string := "MYPRINTER._HTTP._TCP.LOCAL".
Definition shouted : Packet :=
  mkPacket [RR.mk "_HTTP._TCP.LOCAL" 120 (RR.PTR shouted_fqdn);
            RR.mk shouted_fqdn 120 (RR.SRV "printer.local" 632);
            RR.mk shouted_fqdn 120 (RR.TXT ["path=/"])]
           [Example.a].

(** The http browser after the announcements of the printer, of the
    scanner and of the printer in capital letters. *)
Definition two_known : Browser :=
  fst (call (CallResponse shouted Example.rinfo 3000)
         (fst (call (CallResponse scanner Example.rinfo 2000)
                    Example.known))).

(** The printer's goodbye together with the scanner's announcement. *)
Definition leaving : Packet :=
  mkPacket [Example.ptr 0;
            RR.mk Example.tracked 120 (RR.PTR scanner_fqdn);
            RR.mk scanner_fqdn 120 (RR.SRV "scanner.local" 9100);
            RR.mk scanner_fqdn 120 (RR.TXT ["dpi=300"])]
           [RR.mk "scanner.local" 120 (RR.A "192.168.1.30")].

(** The http browser after an announcement of the printer without TXT
    record. *)
Definition known_bare : Browser :=
  fst (call (CallResponse Example.bare Example.rinfo 1000) Example.fresh).



End Scenario.

(** ** Notions used to state the properties *)

(** A service has lapsed at [currentTime]: its ttl is set and not zero, and
    [lastSeen + ttl * 1000] lies before [currentTime]. *)
Definition expired (currentTime : Z) (s : Service.t) : bool :=
  match Service.ttl s with
  | Some ttl =>
      negb (ttl =? 0) && (Service.lastSeen s + ttl * 1000 <? currentTime)
  | None => false
  end.

(** The connection fields of a service are those of the SRV record [rr]. *)
Definition populated_from (rr : RR.t) (s : Service.t) : Prop :=
  exists target port,
    RR.data rr = RR.SRV target port /\
    Service.fqdn s = RR.name rr /\
    Service.host s = target /\
    Service.port s = port /\
    Service.name s = hd "" (Str.split "." (RR.name rr)) /\
    Service.name s <> "".

(** The list holds at most one service per fully-qualified name: two
    entries with DNS-equal names are the same entry. *)
Definition one_per_fqdn `{Helpers} (l : list Service.t) : Prop :=
  forall i j s t,
    l !! i = Some s -> l !! j = Some t ->
    dnsEqual (Service.fqdn s) (Service.fqdn t) = true -> i = j.

(** [b'] has the settings of [b]: only the known services and
[serviceMap] may differ. *)
Definition same_settings (b b' : Browser) : Prop :=
  name b' = name b /\ wildcard b' = wildcard b /\
  txtQuery b' = txtQuery b /\ onresponse b' = onresponse b.

(** The [down] events for the fully-qualified name [fqdn]. *)
Definition down_for `{Helpers} (fqdn : string) (e : Event) : bool :=
  match e with
  | Down s => dnsEqual (Service.fqdn s) fqdn
  | _ => false
  end.

(** The fully-qualified names of [s] and [t] are not DNS-equal. *)
Definition differs_from `{Helpers} (s t : Service.t) : Prop :=
  dnsEqual (Service.fqdn s) (Service.fqdn t) = false.

(** The effect is an event emitted on the browser. *)
Definition is_emit (e : Effect) : Prop :=
  match e with Emit _ => True | _ => False end.

(** The data of a PTR answer named as the browser's own query name: the
answers the wildcard block acts on when its guard lets them through. *)
Definition meta_data (selfname : option string) (answer : RR.t) :
    option string :=
  match RR.data answer with
  | RR.PTR data =>
      if opt_string_eqb (Some (RR.name answer)) selfname then Some data
      else None
  | _ => None
  end.

(** What the constructor sets up and no method assigns afterwards. *)
Definition config (b : Browser) :
    option string * bool * option KeyValue * list nat :=
  (name b, wildcard b, txtQuery b, up_listeners b).

(** The name of [s] is the first label of its fully-qualified name. *)
Definition first_label (s : Service.t) : Prop :=
  Service.name s <> "" /\
  Str.includes "." (Service.name s) = false /\
  (Service.fqdn s = Service.name s \/
   exists rest, Service.fqdn s = Service.name s +:+ String "." rest).

(** Every service of the list satisfies the TXT query [q]. *)
Definition all_pass `{Helpers} (q : option KeyValue) (l : list Service.t) :
    Prop :=
  Forall (fun s => filterService s q = true) l.

(** An [up] or [txt-update] event carries a service that satisfies the TXT
    query [q]. *)
Definition admitted `{Helpers} (q : option KeyValue) (e : Effect) : Prop :=
  match e with
  | Emit (Up s) => filterService s q = true
  | Emit (TxtUpdate s _) => filterService s q = true
  | _ => True
  end.

(** No service the browser knows has a fully-qualified name DNS-equal to
    [F]. *)
Definition unknown `{Helpers} (F : string) (b : Browser) : Prop :=
  forall x, In x (_services b) -> dnsEqual (Service.fqdn x) F = false.

(** The [down] events for the fully-qualified name [F] among the effects. *)
Definition downs_for `{Helpers} (F : string) (es : list Effect) :
    list Event :=
  List.filter (down_for F) (events es).

(** The command touches the known service of the name [F] in one way only:
    by removing it with one [down] event.  It keeps the list one per name;
    run when no service of that name is known, it leaves none known and
    emits no [down] event for the name; run when [s] is the one known, it
    leaves [s] as it is and emits no such event, or it leaves no service of
    the name and emits the [down] event of [s] and no other for the name. *)
Definition spares `{Helpers} (F : string) (f : Cmd) : Prop :=
  forall b,
    one_per_fqdn (_services b) ->
    one_per_fqdn (_services (fst (f b))) /\
    (unknown F b -> unknown F (fst (f b)) /\ downs_for F (snd (f b)) = []) /\
    (forall s, In s (_services b) -> dnsEqual (Service.fqdn s) F = true ->
       (In s (_services (fst (f b))) /\ downs_for F (snd (f b)) = []) \/
       (unknown F (fst (f b)) /\ downs_for F (snd (f b)) = [Down s])).

(** * Properties *)

Section BrowserProperties.

Context {helpers : Helpers}.

(** ** Commands *)

Lemma seq_run (c1 c2 : Cmd) (b : Browser) :
  (c1 >> c2) b =
  (fst (c2 (fst (c1 b))), snd (c1 b) ++ snd (c2 (fst (c1 b)))).
Proof.
  unfold seq. destruct (c1 b) as [b1 e1]. simpl.
  destruct (c2 b1) as [b2 e2]. reflexivity.
Qed.

Lemma forEach_cons {X : Type} (f : X -> Cmd) (x : X) (xs : list X) b :
  forEach f (x :: xs) b =
  (fst (forEach f xs (fst (f x b))),
   snd (f x b) ++ snd (forEach f xs (fst (f x b)))).
Proof. simpl. apply seq_run. Qed.

(** A property of the state that every callback keeps is kept by the
    whole loop. *)
Lemma forEach_state {X : Type} (P : Browser -> Prop) (f : X -> Cmd) xs :
  (forall x b, In x xs -> P b -> P (fst (f x b))) ->
  forall b, P b -> P (fst (forEach f xs b)).
Proof.
  induction xs as [|x xs IH]; intros Hf b Hb; [exact Hb|].
  rewrite forEach_cons. simpl. apply IH.
  - intros y b' Hy. apply Hf. now right.
  - apply Hf; [now left | exact Hb].
Qed.

(** The same for a property of every effect, under a state invariant. *)
Lemma forEach_effects {X : Type} (P : Browser -> Prop) (Q : Effect -> Prop)
    (f : X -> Cmd) xs :
  (forall x b, In x xs -> P b -> P (fst (f x b)) /\ Forall Q (snd (f x b))) ->
  forall b, P b -> Forall Q (snd (forEach f xs b)).
Proof.
  induction xs as [|x xs IH]; intros Hf b Hb; [constructor|].
  rewrite forEach_cons. simpl. apply Forall_app. split.
  - apply Hf; [now left | exact Hb].
  - apply IH.
    + intros y b' Hy. apply Hf. now right.
    + apply Hf; [now left | exact Hb].
Qed.

(** ** expire *)

Lemma expire_one_spec t s :
  expire_one t s =
  (negb (expired t s), if expired t s then [Emit (Down s)] else []).
Proof.
  unfold expire_one, expired. destruct (Service.ttl s) as [ttl|]; [|easy].
  destruct (ttl =? 0); [easy|]. simpl.
  destruct (Service.lastSeen s + ttl * 1000 <? t); reflexivity.
Qed.

Lemma expire_filter_spec t l :
  expire_filter t l =
  (List.filter (fun s => negb (expired t s)) l,
   List.map (fun s => Emit (Down s)) (List.filter (expired t) l)).
Proof.
  induction l as [|s l IH]; [reflexivity|].
  simpl. rewrite expire_one_spec, IH.
  destruct (expired t s); reflexivity.
Qed.

Lemma expired_iff t s :
  expired t s = true <->
  exists ttl, Service.ttl s = Some ttl /\ ttl <> 0 /\
              Service.lastSeen s + ttl * 1000 < t.
Proof.
  unfold expired. destruct (Service.ttl s) as [ttl|].
  - rewrite andb_true_iff, negb_true_iff, Z.eqb_neq, Z.ltb_lt. split.
    + intros [H1 H2]. exists ttl. auto.
    + intros (ttl' & [= <-] & H1 & H2). auto.
  - split; [discriminate|]. intros (ttl' & [=] & _).
Qed.

(** C5. [expire] at time [currentTime] keeps, in order and unchanged,
    exactly the services that have not lapsed, and emits one [down] event
    for each service that has, in order; a service has lapsed exactly when
    its ttl is set and not zero and [lastSeen + ttl * 1000 < currentTime],
    so a service whose ttl is unset or zero always stays. *)
Theorem expire_removes_exactly_the_lapsed (currentTime : Z) (b : Browser) :
  _services (fst (expire currentTime b)) =
    List.filter (fun s => negb (expired currentTime s)) (_services b)
  /\ snd (expire currentTime b) =
       List.map (fun s => Emit (Down s))
                (List.filter (expired currentTime) (_services b))
  /\ (forall s,
        expired currentTime s = true <->
        exists ttl, Service.ttl s = Some ttl /\ ttl <> 0 /\
                    Service.lastSeen s + ttl * 1000 < currentTime)
  /\ (forall s,
        In s (_services b) ->
        Service.ttl s = None \/ Service.ttl s = Some 0 ->
        In s (_services (fst (expire currentTime b)))).
Proof.
  unfold expire. rewrite expire_filter_spec. simpl.
  split; [reflexivity|]. split; [reflexivity|].
  split; [intros s; apply expired_iff|].
  intros s Hin Httl. apply filter_In. split; [exact Hin|].
  unfold expired. destruct Httl as [-> | ->]; reflexivity.
Qed.

(** ** buildServicesFor *)

(** What the fold over the SRV and TXT records leaves in the SRV fields
    was there before or was written from one of the SRV records. *)
Lemma srv_fold_spec referer rs acc f :
  fst (fold_left (srv_txt_step referer) rs acc) = Some f ->
  fst acc = Some f \/
  exists rr target port,
    In rr rs /\ RR.data rr = RR.SRV target port /\
    f_name f = hd "" (Str.split "." (RR.name rr)) /\
    f_fqdn f = RR.name rr /\ f_host f = target /\ f_port f = port.
Proof.
  revert acc. induction rs as [|r rs IH]; intros acc H; [now left|].
  simpl in H. apply IH in H. destruct H as [H | (rr & tg & pt & Hin & H)].
  - unfold srv_txt_step in H.
    destruct (RR.data r) as [d|tg pt|d|d|d|ty] eqn:Hr; simpl in H;
      try (now left).
    right. exists r, tg, pt. injection H as <-. simpl.
    split; [now left|]. split; [exact Hr|]. auto.
  - right. exists rr, tg, pt. split; [now right | exact H].
Qed.

Lemma candidate_spec records referer t ptr s :
  candidate records referer t ptr = Some s ->
  exists pdata srv,
    RR.data ptr = RR.PTR pdata /\ In srv records /\
    dnsEqual (RR.name srv) pdata = true /\ populated_from srv s.
Proof.
  unfold candidate. destruct (RR.data ptr) as [pdata| | | | |]; try discriminate.
  destruct (fold_left _ _ _) as [srv txt] eqn:Hfold.
  destruct srv as [f|]; [|discriminate].
  destruct (negb (Str.truthy (f_name f))) eqn:Hname; [discriminate|].
  intros [= <-].
  assert (Hf : fst (fold_left (srv_txt_step referer)
                      (List.filter (is_srv_txt_of pdata) records)
                      (None, None)) = Some f) by now rewrite Hfold.
  apply srv_fold_spec in Hf.
  destruct Hf as [Hf | (rr & tg & pt & Hin & Hd & Hn & Hq & Hh & Hp)];
    [discriminate|].
  apply filter_In in Hin. destruct Hin as [Hin Hm].
  unfold is_srv_txt_of in Hm. apply andb_true_iff in Hm.
  exists pdata, rr. repeat split; [exact Hin | apply Hm |].
  exists tg, pt. simpl. repeat split; try assumption.
  unfold Str.truthy in Hname. rewrite negb_involutive in Hname.
  intros E. rewrite E in Hname. discriminate.
Qed.

Lemma In_omap {X Y : Type} (f : X -> option Y) (xs : list X) (y : Y) :
  In y (omap f xs) <-> exists x, In x xs /\ f x = Some y.
Proof.
  rewrite <- list_elem_of_In, list_elem_of_omap.
  split; intros (x & Hx & Hf); exists x; split; try exact Hf;
    now apply list_elem_of_In.
Qed.

Lemma In_live_records packet rr :
  In rr (live_records packet) <-> In rr (all_records packet) /\ 0 < RR.ttl rr.
Proof. unfold live_records. rewrite filter_In, Z.ltb_lt. reflexivity. Qed.

Lemma buildServicesFor_spec name packet referer t s :
  In s (buildServicesFor name packet referer t) ->
  exists ptr pdata srv,
    In ptr (all_records packet) /\ RR.data ptr = RR.PTR pdata /\
    0 < RR.ttl ptr /\ dnsEqual (RR.name ptr) name = true /\
    In srv (all_records packet) /\ 0 < RR.ttl srv /\
    dnsEqual (RR.name srv) pdata = true /\ populated_from srv s.
Proof.
  unfold buildServicesFor. rewrite In_omap. intros (ptr & Hptr & Hc).
  apply filter_In in Hptr. destruct Hptr as [Hptr Hfor].
  apply In_live_records in Hptr. destruct Hptr as [Hptr Httl].
  apply candidate_spec in Hc. destruct Hc as (pdata & srv & Hd & Hsrv & He & Hp).
  apply In_live_records in Hsrv. destruct Hsrv as [Hsrv Hsttl].
  unfold is_ptr_for in Hfor. apply andb_true_iff in Hfor.
  exists ptr, pdata, srv. repeat split; try assumption. apply Hfor.
Qed.

(** ** find_index *)

Lemma find_index_Some {X : Type} (p : X -> bool) xs x i :
  find_index p xs = Some (x, i) ->
  xs !! i = Some x /\ p x = true /\
  Forall (fun y => p y = false) (take i xs).
Proof.
  revert x i. induction xs as [|y xs IH]; intros x i H; [discriminate|].
  simpl in H. destruct (p y) eqn:Hy.
  - injection H as <- <-. simpl. auto.
  - destruct (find_index p xs) as [[z k]|]; [|discriminate].
    injection H as <- <-. destruct (IH z k eq_refl) as (H1 & H2 & H3).
    simpl. auto.
Qed.

Lemma find_index_None {X : Type} (p : X -> bool) xs :
  find_index p xs = None <-> Forall (fun y => p y = false) xs.
Proof.
  induction xs as [|y xs IH]; simpl; [easy|].
  destruct (p y) eqn:Hy.
  - split; [discriminate|]. intros H. inversion H; congruence.
  - destruct (find_index p xs) as [[z k]|].
    + split; [discriminate|]. intros H. inversion H; subst.
      apply IH in H3. discriminate.
    + split; [|reflexivity]. intros _. constructor; [exact Hy|now apply IH].
Qed.

Lemma find_index_is_Some {X : Type} (p : X -> bool) xs x :
  In x xs -> p x = true -> exists y i, find_index p xs = Some (y, i).
Proof.
  intros Hin Hp. destruct (find_index p xs) as [[y i]|] eqn:E; [eauto|].
  apply find_index_None in E. rewrite Forall_forall in E.
  apply list_elem_of_In in Hin. specialize (E x Hin). congruence.
Qed.

(** ** Invariants of the known-service list

    Any property [I] of the list that holds of the empty list and is kept
    by the list operations the browser performs, with services taken from
    the candidates of a packet, holds in every state a browser can be in. *)

Section ServiceListInvariant.

Variable I : list Service.t -> Prop.
Variable C : Service.t -> Prop.

Hypothesis I_nil : I [].
Hypothesis I_splice : forall i l, I l -> I (splice1 i l).
Hypothesis I_filter : forall p l, I l -> I (List.filter p l).
Hypothesis I_push :
  forall c l,
    I l -> C c -> find_index (same_fqdn (Service.fqdn c)) l = None ->
    I (l ++ [c]).
Hypothesis I_replace :
  forall c l,
    I l -> C c ->
    I (List.map (fun s => if negb (same_fqdn (Service.fqdn c) s)
                          then s else c) l).
Hypothesis I_refresh :
  forall v x i l,
    I l -> l !! i = Some x -> I (<[i := Service.set_lastSeen v x]> l).
Hypothesis C_candidates :
  forall name packet rinfo t s,
    In s (buildServicesFor name packet rinfo t) -> C s.

Lemma removeService_inv fqdn b :
  I (_services b) -> I (_services (fst (removeService fqdn b))).
Proof.
  unfold removeService. intros H.
  destruct (find_index _ _) as [[s i]|]; simpl; auto.
Qed.

Lemma addService_inv c b :
  C c -> find_index (same_fqdn (Service.fqdn c)) (_services b) = None ->
  I (_services b) -> I (_services (fst (addService c b))).
Proof.
  unfold addService. intros Hc Hnone H.
  destruct (negb _); simpl; auto.
Qed.

Lemma replaceService_inv c b :
  C c -> I (_services b) -> I (_services (fst (replaceService c b))).
Proof. unfold replaceService. simpl. auto. Qed.

Lemma updateServiceSrv_inv old c b :
  C c -> I (_services b) -> I (_services (fst (updateServiceSrv old c b))).
Proof.
  unfold updateServiceSrv. intros Hc H.
  destruct (srv_changed old c); [|exact H].
  rewrite seq_run. simpl. now apply replaceService_inv.
Qed.

Lemma updateServiceTxt_inv old c b :
  C c -> I (_services b) -> I (_services (fst (updateServiceTxt old c b))).
Proof.
  unfold updateServiceTxt. intros Hc H.
  destruct (equalTxt _ _); [exact H|].
  destruct (negb _); [now apply removeService_inv|].
  rewrite seq_run. simpl. now apply replaceService_inv.
Qed.

Lemma match_service_inv c b :
  C c -> I (_services b) -> I (_services (fst (match_service c b))).
Proof.
  unfold match_service. intros Hc H.
  destruct (find_index _ _) as [[old i]|] eqn:Hfind.
  - apply find_index_Some in Hfind. destruct Hfind as (Hi & _ & _).
    rewrite seq_run. simpl.
    apply updateServiceTxt_inv, updateServiceSrv_inv; try exact Hc.
    simpl. now apply I_refresh.
  - now apply addService_inv.
Qed.

Lemma process_name_inv packet rinfo t name b :
  I (_services b) -> I (_services (fst (process_name packet rinfo t name b))).
Proof.
  unfold process_name. intros H. rewrite seq_run. simpl.
  apply forEach_state.
  - intros c b' Hc. apply match_service_inv. eapply C_candidates, Hc.
  - apply forEach_state; [|exact H].
    intros f b' _. apply removeService_inv.
Qed.

Lemma onresponse_call_inv packet rinfo t b :
  I (_services b) -> I (_services (fst (onresponse_call packet rinfo t b))).
Proof.
  unfold onresponse_call. intros H.
  destruct (onresponse b) as [nameMap|]; [|exact H].
  destruct (wildcard_block b packet nameMap) as [nameMap' sent].
  destruct (forEach _ _ _) as [b' effects] eqn:E. simpl.
  change b' with (fst (b', effects)). rewrite <- E.
  apply forEach_state; [|exact H].
  intros name b1 _. apply process_name_inv.
Qed.

Lemma start_services b : _services (fst (start b)) = _services b.
Proof.
  unfold start. destruct (onresponse b), (name b); reflexivity.
Qed.

Lemma stop_services b : _services (fst (stop b)) = _services b.
Proof. unfold stop. destruct (onresponse b); reflexivity. Qed.

Lemma expire_inv t b : I (_services b) -> I (_services (fst (expire t b))).
Proof.
  unfold expire. rewrite expire_filter_spec. simpl. apply I_filter.
Qed.

Lemma call_inv c b : I (_services b) -> I (_services (fst (call c b))).
Proof.
  destruct c; simpl.
  - now rewrite start_services.
  - now rewrite stop_services.
  - easy.
  - apply expire_inv.
  - apply onresponse_call_inv.
Qed.

Lemma constructor_inv opts onup :
  I (_services (fst (constructor opts onup))).
Proof.
  assert (H : forall o u, _services (fst (construct o u)) = []).
  { intros o u. unfold construct.
    destruct (match o with Some _ => _ | None => _ end) as [n w].
    now rewrite start_services. }
  unfold constructor. destruct opts; rewrite H; exact I_nil.
Qed.

Lemma reachable_inv b : reachable b -> I (_services b).
Proof.
  induction 1 as [opts onup | b c _ IH].
  - apply constructor_inv.
  - now apply call_inv.
Qed.

End ServiceListInvariant.

(** ** What the list operations leave alone *)

Lemma same_settings_refl b : same_settings b b.
Proof. unfold same_settings. auto. Qed.

Lemma same_settings_trans b1 b2 b3 :
  same_settings b1 b2 -> same_settings b2 b3 -> same_settings b1 b3.
Proof. unfold same_settings. intuition congruence. Qed.

Lemma removeService_settings fqdn b :
  same_settings b (fst (removeService fqdn b)).
Proof.
  unfold removeService. destruct (find_index _ _) as [[s i]|];
    (unfold same_settings; simpl; auto).
Qed.

Lemma addService_settings c b : same_settings b (fst (addService c b)).
Proof. unfold addService. destruct (negb _); (unfold same_settings; simpl; auto). Qed.

Lemma updateServiceSrv_settings old c b :
  same_settings b (fst (updateServiceSrv old c b)).
Proof.
  unfold updateServiceSrv. destruct (srv_changed old c);
    (unfold same_settings; simpl; auto).
Qed.

Lemma updateServiceTxt_settings old c b :
  same_settings b (fst (updateServiceTxt old c b)).
Proof.
  unfold updateServiceTxt. destruct (equalTxt _ _);
    [(unfold same_settings; simpl; auto)|].
  destruct (negb _); [apply removeService_settings | (unfold same_settings; simpl; auto)].
Qed.

Lemma match_service_settings c b : same_settings b (fst (match_service c b)).
Proof.
  unfold match_service. destruct (find_index _ _) as [[old i]|];
    [|apply addService_settings].
  rewrite seq_run. simpl.
  eapply same_settings_trans; [|apply updateServiceTxt_settings].
  eapply same_settings_trans; [|apply updateServiceSrv_settings].
  unfold same_settings; simpl; auto.
Qed.

Lemma forEach_settings {X : Type} (f : X -> Cmd) xs :
  (forall x b, same_settings b (fst (f x b))) ->
  forall b, same_settings b (fst (forEach f xs b)).
Proof.
  intros Hf b. apply (forEach_state (same_settings b)).
  - intros x b' _ H. eapply same_settings_trans; [exact H | apply Hf].
  - apply same_settings_refl.
Qed.

Lemma process_name_settings packet rinfo t name b :
  same_settings b (fst (process_name packet rinfo t name b)).
Proof.
  unfold process_name. rewrite seq_run. simpl.
  apply (same_settings_trans _
           (fst (forEach removeService (goodbyes name packet) b))).
  - apply forEach_settings, removeService_settings.
  - apply forEach_settings, match_service_settings.
Qed.

(** ** Only events come out of the list operations *)

Lemma removeService_emits fqdn b : Forall is_emit (snd (removeService fqdn b)).
Proof.
  unfold removeService. destruct (find_index _ _) as [[s i]|]; simpl;
    repeat constructor.
Qed.

Lemma match_service_emits c b : Forall is_emit (snd (match_service c b)).
Proof.
  unfold match_service, addService, updateServiceSrv, updateServiceTxt.
  destruct (find_index _ _) as [[old i]|].
  - rewrite seq_run. simpl. apply Forall_app. split.
    + destruct (srv_changed _ _); simpl; repeat constructor.
    + destruct (equalTxt _ _); [constructor|].
      destruct (negb _); [apply removeService_emits|].
      simpl. repeat constructor.
  - destruct (negb _); simpl; repeat constructor.
Qed.

Lemma forEach_emits {X : Type} (f : X -> Cmd) xs :
  (forall x b, Forall is_emit (snd (f x b))) ->
  forall b, Forall is_emit (snd (forEach f xs b)).
Proof.
  intros Hf b. apply (forEach_effects (fun _ => True)); auto.
Qed.

Lemma process_name_emits packet rinfo t name b :
  Forall is_emit (snd (process_name packet rinfo t name b)).
Proof.
  unfold process_name. rewrite seq_run. simpl. apply Forall_app. split.
  - apply forEach_emits, removeService_emits.
  - apply forEach_emits, match_service_emits.
Qed.

Lemma queries_emits es : Forall is_emit es -> queries es = [].
Proof.
  induction 1 as [|e es He _ IH]; [reflexivity|].
  destruct e; try contradiction. exact IH.
Qed.

Lemma events_app e1 e2 : events (e1 ++ e2) = events e1 ++ events e2.
Proof. unfold events. apply omap_app. Qed.

Lemma queries_app e1 e2 : queries (e1 ++ e2) = queries e1 ++ queries e2.
Proof. unfold queries. apply omap_app. Qed.

(** ** The keys of an object *)

Lemma In_insert_sorted x y l :
  In y (JsObject.insert_sorted x l) <-> y = x \/ In y l.
Proof.
  induction l as [|z l IH]; simpl; [intuition|].
  destruct (fst x <=? fst z)%N; simpl; [intuition|].
  rewrite IH. intuition.
Qed.

Lemma In_index_keys n k o :
  In (n, k) (JsObject.index_keys o) <->
  In k o /\ JsObject.array_index k = Some n.
Proof.
  induction o as [|k' o IH]; simpl; [intuition|].
  destruct (JsObject.array_index k') as [n'|] eqn:E.
  - rewrite In_insert_sorted, IH. split.
    + intros [[= -> ->]|[H1 H2]]; auto.
    + intros [[->|H1] H2]; [left; congruence | auto].
  - rewrite IH. split; [intuition|].
    intros [[->|H1] H2]; [congruence | auto].
Qed.

Lemma In_keys k o : In k (JsObject.keys o) <-> In k o.
Proof.
  unfold JsObject.keys. rewrite in_app_iff, in_map_iff, filter_In.
  unfold JsObject.is_index. split.
  - intros [([n k'] & <- & H)|[H _]]; [|exact H].
    apply In_index_keys in H. apply H.
  - intros H. destruct (JsObject.array_index k) as [n|] eqn:E; [left|auto].
    exists (n, k). split; [reflexivity|]. now apply In_index_keys.
Qed.

Lemma mem_In k l : JsObject.mem k l = true <-> In k l.
Proof.
  unfold JsObject.mem. rewrite existsb_exists. split.
  - intros (x & Hx & E). apply String.eqb_eq in E. now subst.
  - intros H. exists k. split; [exact H | apply String.eqb_refl].
Qed.

Lemma In_set k d o : In k o -> In k (JsObject.set d o).
Proof.
  unfold JsObject.set. intros H.
  destruct (String.eqb d "__proto__"); [exact H|].
  destruct (JsObject.mem d o); [exact H|]. apply in_or_app. now left.
Qed.

Lemma set_present d o : In d o -> JsObject.set d o = o.
Proof.
  unfold JsObject.set. intros H. apply mem_In in H. rewrite H.
  now destruct (String.eqb d "__proto__").
Qed.

(** ** The wildcard block *)

Lemma wildcard_answer_cases selfname acc answer :
  (meta_data selfname answer = None /\
   wildcard_answer selfname acc answer = acc) \/
  exists n d, selfname = Some n /\ meta_data selfname answer = Some d /\
    if JsObject.has n (fst acc)
    then wildcard_answer selfname acc answer = acc
    else wildcard_answer selfname acc answer =
           (JsObject.set d (fst acc), snd acc ++ [MdnsQuery (Some d)]).
Proof.
  unfold wildcard_answer, meta_data.
  destruct (RR.data answer) as [d| | | | |]; try (now left).
  destruct selfname as [n|]; simpl; [|now left].
  destruct (String.eqb (RR.name answer) n) eqn:E; simpl; [|now left].
  apply String.eqb_eq in E. rewrite E.
  right. exists n, d. split; [reflexivity|]. split; [reflexivity|].
  now destruct (JsObject.has n _).
Qed.

Lemma wildcard_fold_skip selfname n answers acc :
  selfname = Some n -> JsObject.has n (fst acc) = true ->
  fold_left (wildcard_answer selfname) answers acc = acc.
Proof.
  intros Hn Hh. induction answers as [|a answers IH]; [reflexivity|].
  simpl.
  destruct (wildcard_answer_cases selfname acc a)
    as [[_ ->] | (n' & d & Hn' & _ & E)]; [exact IH|].
  assert (n' = n) as -> by congruence. rewrite Hh in E. now rewrite E.
Qed.

Lemma wildcard_answer_grows selfname k acc a :
  In k (fst acc) -> In k (fst (wildcard_answer selfname acc a)).
Proof.
  intros H.
  destruct (wildcard_answer_cases selfname acc a)
    as [[_ ->] | (n & d & _ & _ & E)]; [exact H|].
  revert E. destruct (JsObject.has n _); cbv iota; intros ->;
    [exact H|].
  now apply In_set.
Qed.

Lemma wildcard_fold_grows selfname k answers acc :
  In k (fst acc) ->
  In k (fst (fold_left (wildcard_answer selfname) answers acc)).
Proof.
  revert acc. induction answers as [|a answers IH]; intros acc H; [exact H|].
  simpl. now apply IH, wildcard_answer_grows.
Qed.

Lemma wildcard_fold_queries selfname answers acc :
  events (snd acc) = [] ->
  events (snd (fold_left (wildcard_answer selfname) answers acc)) = [].
Proof.
  revert acc. induction answers as [|a answers IH]; intros acc H; [exact H|].
  simpl. apply IH.
  destruct (wildcard_answer_cases selfname acc a)
    as [[_ ->] | (n & d & _ & _ & E)]; [exact H|].
  revert E. destruct (JsObject.has n _); cbv iota; intros ->;
    [exact H|].
  simpl. rewrite events_app, H. reflexivity.
Qed.

(** After the block, either the guard is closed for good or every name
    the block acts on is in [nameMap]. *)
Lemma wildcard_fold_saturated selfname answers acc :
  let nameMap := fst (fold_left (wildcard_answer selfname) answers acc) in
  (exists n, selfname = Some n /\ JsObject.has n nameMap = true) \/
  (forall a d, In a answers -> meta_data selfname a = Some d ->
               JsObject.set d nameMap = nameMap).
Proof.
  revert acc. induction answers as [|a answers IH]; intros acc nameMap.
  - right. intros a d [].
  - subst nameMap. simpl.
    destruct (IH (wildcard_answer selfname acc a)) as [Hl|Hr]; [now left|].
    destruct (wildcard_answer_cases selfname acc a)
      as [[Hd E] | (n & d & Hn & Hd & E)].
    + right. intros a' d' [<-|Ha'] Hd'; [congruence | eauto].
    + revert E. destruct (JsObject.has n _) eqn:Eh; cbv iota; intros E.
      * left. exists n. split; [exact Hn|].
        now rewrite E, (wildcard_fold_skip selfname n).
      * right. intros a' d' [<-|Ha'] Hd'; [|eauto].
        rewrite Hd in Hd'. injection Hd' as <-. rewrite E.
        destruct (String.eqb d "__proto__") eqn:Ep.
        -- unfold JsObject.set at 1. now rewrite Ep.
        -- apply set_present, wildcard_fold_grows. simpl.
           unfold JsObject.set. rewrite Ep.
           destruct (JsObject.mem d (fst acc)) eqn:Em;
             [now apply mem_In | apply in_or_app; right; now left].
Qed.

Lemma wildcard_fold_fixed selfname answers nameMap sent :
  (forall a d, In a answers -> meta_data selfname a = Some d ->
               JsObject.set d nameMap = nameMap) ->
  fst (fold_left (wildcard_answer selfname) answers (nameMap, sent)) = nameMap.
Proof.
  revert sent. induction answers as [|a answers IH]; intros sent H;
    [reflexivity|].
  simpl.
  assert (H' : forall a' d', In a' answers -> meta_data selfname a' = Some d' ->
                 JsObject.set d' nameMap = nameMap)
    by (intros a' d' Ha'; apply H; now right).
  destruct (wildcard_answer_cases selfname (nameMap, sent) a)
    as [[_ ->] | (n & d & _ & Hd & E)]; [now apply IH|].
  simpl in E. revert E. destruct (JsObject.has n _); cbv iota;
    intros ->; [now apply IH|].
  rewrite (H a d (or_introl eq_refl) Hd). now apply IH.
Qed.

Lemma wildcard_fold_idempotent selfname answers acc sent :
  let nameMap := fst (fold_left (wildcard_answer selfname) answers acc) in
  fst (fold_left (wildcard_answer selfname) answers (nameMap, sent)) = nameMap.
Proof.
  intros nameMap.
  destruct (wildcard_fold_saturated selfname answers acc)
    as [(n & Hn & Hh)|H].
  - now rewrite (wildcard_fold_skip selfname n).
  - now apply wildcard_fold_fixed.
Qed.

Lemma wildcard_block_grows b packet nameMap k :
  In k nameMap -> In k (fst (wildcard_block b packet nameMap)).
Proof.
  unfold wildcard_block. intros H. destruct (wildcard b); [|exact H].
  apply (wildcard_fold_grows (name b) k (answers packet) (nameMap, [])), H.
Qed.

Lemma wildcard_block_queries b packet nameMap :
  events (snd (wildcard_block b packet nameMap)) = [].
Proof.
  unfold wildcard_block. destruct (wildcard b); [|reflexivity].
  now apply (wildcard_fold_queries (name b) (answers packet) (nameMap, [])).
Qed.

Lemma wildcard_block_idempotent b b' packet nameMap :
  name b' = name b -> wildcard b' = wildcard b ->
  fst (wildcard_block b' packet (fst (wildcard_block b packet nameMap))) =
  fst (wildcard_block b packet nameMap).
Proof.
  intros Hn Hw. unfold wildcard_block. rewrite Hn, Hw.
  destruct (wildcard b); [|reflexivity].
  apply wildcard_fold_idempotent.
Qed.

(** ** Updates of a known service *)

Lemma replace_lookup (c : Service.t) l i y :
  l !! i = Some y ->
  List.map (fun s => if negb (same_fqdn (Service.fqdn c) s) then s else c) l
    !! i
  = Some (if negb (same_fqdn (Service.fqdn c) y) then y else c).
Proof.
  revert i. induction l as [|x l IH]; intros [|i] H; try discriminate.
  - injection H as ->. reflexivity.
  - simpl. now apply IH.
Qed.

Lemma srv_changed_false old c :
  srv_changed old c = false <->
  Service.name old = Service.name c /\ Service.host old = Service.host c /\
  Service.port old = Service.port c /\ Service.type old = Service.type c /\
  Service.protocol old = Service.protocol c /\
  Service.addresses_toString old = Service.addresses_toString c.
Proof.
  assert (Hopt : forall a b, opt_string_eqb a b = true <-> a = b).
  { intros [x|] [y|]; simpl; rewrite ?String.eqb_eq;
      split; intros H; try congruence; try discriminate; reflexivity. }
  unfold srv_changed. rewrite !orb_false_iff, !negb_false_iff.
  rewrite !String.eqb_eq, Z.eqb_eq, !Hopt. tauto.
Qed.

Lemma srv_changed_host_port old c :
  Service.host old <> Service.host c \/ Service.port old <> Service.port c ->
  srv_changed old c = true.
Proof.
  intros H. destruct (srv_changed old c) eqn:E; [reflexivity|].
  apply srv_changed_false in E. tauto.
Qed.

(** What [matches.forEach] emits for a candidate whose service is known and
    which passes the filter. *)
Lemma match_service_known old i c b :
  find_index (same_fqdn (Service.fqdn c)) (_services b) = Some (old, i) ->
  filterService c (txtQuery b) = true ->
  let old' := Service.set_lastSeen (Service.lastSeen c) old in
  events (snd (match_service c b)) =
    (if srv_changed old c then [SrvUpdate c old'] else []) ++
    (if equalTxt (Service.txt c) (txt_or_empty old) then []
     else [TxtUpdate c old']).
Proof.
  intros Hfind Hfilter old'. unfold match_service. rewrite Hfind.
  rewrite seq_run. simpl. rewrite events_app. f_equal.
  - unfold updateServiceSrv. fold old'.
    change (srv_changed old' c) with (srv_changed old c).
    now destruct (srv_changed old c).
  - unfold updateServiceTxt. fold old'.
    change (txt_or_empty old') with (txt_or_empty old).
    destruct (equalTxt _ _); [reflexivity|].
    pose proof (updateServiceSrv_settings old' c
      (set_services (<[i:=old']> (_services b)) b)) as (_ & _ & Ht & _).
    rewrite Ht. simpl. rewrite Hfilter. reflexivity.
Qed.

Lemma find_index_insert {X : Type} (p : X -> bool) l x x' i :
  find_index p l = Some (x, i) -> p x' = true ->
  find_index p (<[i := x']> l) = Some (x', i).
Proof.
  revert i. induction l as [|y l IH]; intros i H Hx'; [discriminate|].
  simpl in H. destruct (p y) eqn:Hy.
  - injection H as <- <-. simpl. now rewrite Hx'.
  - destruct (find_index p l) as [[z k]|] eqn:Hl; [|discriminate].
    injection H as <- <-. simpl. rewrite Hy.
    now rewrite (IH k eq_refl Hx').
Qed.

Lemma find_index_replaced (c : Service.t) l x i :
  find_index (same_fqdn (Service.fqdn c)) l = Some (x, i) ->
  same_fqdn (Service.fqdn c) c = true ->
  find_index (same_fqdn (Service.fqdn c))
    (List.map (fun s => if negb (same_fqdn (Service.fqdn c) s)
                        then s else c) l)
  = Some (c, i).
Proof.
  intros H Hc. revert i H.
  induction l as [|y l IH]; intros i H; [discriminate|].
  simpl in H. simpl. destruct (same_fqdn (Service.fqdn c) y) eqn:Hy.
  - injection H as <- <-. simpl. now rewrite Hc.
  - destruct (find_index _ l) as [[z k]|] eqn:Hl; [|discriminate].
    injection H as <- <-. simpl. rewrite Hy.
    now rewrite (IH k eq_refl).
Qed.

(** What [matches.forEach] emits for a candidate whose service is known
    and which fails the filter with a changed TXT content. *)
Lemma match_service_withdrawn old i c b :
  find_index (same_fqdn (Service.fqdn c)) (_services b) = Some (old, i) ->
  filterService c (txtQuery b) = false ->
  equalTxt (Service.txt c) (txt_or_empty old) = false ->
  let old' := Service.set_lastSeen (Service.lastSeen c) old in
  (srv_changed old c = false ->
   events (snd (match_service c b)) = [Down old']) /\
  (srv_changed old c = true ->
   dnsEqual (Service.fqdn c) (Service.fqdn c) = true ->
   events (snd (match_service c b)) = [SrvUpdate c old'; Down c]).
Proof.
  intros Hfind Hfilter Htxt old'.
  assert (Hold : same_fqdn (Service.fqdn c) old' = true)
    by (apply find_index_Some in Hfind; apply Hfind).
  pose proof (find_index_insert _ _ _ old' _ Hfind Hold) as Hfind1.
  unfold match_service. rewrite Hfind. fold old'.
  rewrite seq_run. cbn [fst snd]. rewrite events_app.
  unfold updateServiceSrv, updateServiceTxt.
  change (srv_changed old' c) with (srv_changed old c).
  change (txt_or_empty old') with (txt_or_empty old).
  rewrite Htxt.
  split.
  - intros ->. cbn [skip fst snd].
    change (txtQuery (set_services _ b)) with (txtQuery b).
    rewrite Hfilter. cbn [negb].
    unfold removeService. cbn [_services set_services].
    now rewrite Hfind1.
  - intros -> Hc. rewrite seq_run. unfold replaceService, emit.
    cbn [fst snd].
    change (txtQuery (set_services _ (set_services _ b))) with (txtQuery b).
    rewrite Hfilter. cbn [negb].
    unfold removeService. cbn [_services set_services].
    now rewrite (find_index_replaced c _ old' i Hfind1 Hc).
Qed.

(** C3 (amended). For a candidate [c] whose service [old] is known and
    that was built with TXT content, with TXT contents compared by map
    equality (the stored content being the stored mapping, or the empty one
    when there is none): identical SRV-derived fields and identical TXT
    content emit nothing; a change of the TXT content alone emits
    [txt-update] only when the candidate passes the attribute filter, and
    otherwise only the [down] event of the stored entry; a change of host
    or port with the same TXT content emits [srv-update] only; a change of
    both emits [srv-update] and then, for the same handling of the
    candidate, [txt-update] when the candidate passes the filter and
    otherwise [down] for the candidate that has just replaced the entry.
    No [txt-update] is emitted for a candidate that fails the filter. *)
Theorem update_events_follow_changes old i c b m_new :
  find_index (same_fqdn (Service.fqdn c)) (_services b) = Some (old, i) ->
  Service.txt c = Some m_new ->
  (forall m1 m2, equalTxt (Some m1) m2 = true <-> m1 = m2) ->
  let m_old := txt_or_empty old in
  let old' := Service.set_lastSeen (Service.lastSeen c) old in
  let same_srv :=
    Service.name old = Service.name c /\ Service.host old = Service.host c /\
    Service.port old = Service.port c /\ Service.type old = Service.type c /\
    Service.protocol old = Service.protocol c /\
    Service.addresses_toString old = Service.addresses_toString c in
  let host_or_port_changed :=
    Service.host old <> Service.host c \/ Service.port old <> Service.port c in
  let passes := filterService c (txtQuery b) in
  let emitted := events (snd (match_service c b)) in
  (same_srv -> m_old = m_new -> emitted = []) /\
  (same_srv -> m_old <> m_new -> passes = true ->
   emitted = [TxtUpdate c old']) /\
  (host_or_port_changed -> m_old = m_new -> emitted = [SrvUpdate c old']) /\
  (host_or_port_changed -> m_old <> m_new -> passes = true ->
   emitted = [SrvUpdate c old'; TxtUpdate c old']) /\
  (same_srv -> m_old <> m_new -> passes = false -> emitted = [Down old']) /\
  (host_or_port_changed -> m_old <> m_new -> passes = false ->
   dnsEqual (Service.fqdn c) (Service.fqdn c) = true ->
   emitted = [SrvUpdate c old'; Down c]).
Proof.
  intros Hfind Hnew Heq m_old old' same_srv changed passes emitted.
  assert (Hsame : m_old = m_new -> equalTxt (Some m_new) m_old = true)
    by (intros ->; now apply Heq).
  assert (Hdiff : m_old <> m_new -> equalTxt (Some m_new) m_old = false).
  { intros Hne. destruct (equalTxt (Some m_new) m_old) eqn:Et; [|reflexivity].
    apply Heq in Et. congruence. }
  assert (Hequal : m_old = m_new ->
            emitted = if srv_changed old c then [SrvUpdate c old'] else []).
  { intros Ht. unfold emitted, match_service. rewrite Hfind. fold old'.
    rewrite seq_run. cbn [fst snd]. rewrite events_app.
    unfold updateServiceTxt.
    change (txt_or_empty old') with (txt_or_empty old).
    fold m_old. rewrite Hnew, (Hsame Ht). cbn [snd events omap].
    rewrite app_nil_r. unfold updateServiceSrv.
    change (srv_changed old' c) with (srv_changed old c).
    now destruct (srv_changed old c). }
  assert (Hpass : passes = true -> emitted =
    (if srv_changed old c then [SrvUpdate c old'] else []) ++
    (if equalTxt (Some m_new) m_old then [] else [TxtUpdate c old'])).
  { intros Hp. unfold emitted.
    rewrite (match_service_known old i c b Hfind Hp). now rewrite Hnew. }
  assert (Hfail : m_old <> m_new -> passes = false ->
    (srv_changed old c = false -> emitted = [Down old']) /\
    (srv_changed old c = true ->
     dnsEqual (Service.fqdn c) (Service.fqdn c) = true ->
     emitted = [SrvUpdate c old'; Down c])).
  { intros Hne Hp. apply (match_service_withdrawn old i c b Hfind Hp).
    rewrite Hnew. now apply Hdiff. }
  repeat split.
  - intros Hs Ht. apply srv_changed_false in Hs. now rewrite (Hequal Ht), Hs.
  - intros Hs Ht Hp. apply srv_changed_false in Hs.
    now rewrite (Hpass Hp), Hs, Hdiff.
  - intros Hc Ht. now rewrite (Hequal Ht), (srv_changed_host_port old c Hc).
  - intros Hc Ht Hp.
    now rewrite (Hpass Hp), (srv_changed_host_port old c Hc), Hdiff.
  - intros Hs Ht Hp. apply srv_changed_false in Hs.
    now apply (Hfail Ht Hp).
  - intros Hc Ht Hp Hr.
    exact (proj2 (Hfail Ht Hp) (srv_changed_host_port old c Hc) Hr).
Qed.

(** ** A packet without TXT records *)

Lemma txt_fold_none referer rs acc :
  Forall (fun r => RR.is_TXT r = false) rs ->
  snd (fold_left (srv_txt_step referer) rs acc) = snd acc.
Proof.
  intros H. revert acc. induction H as [|r rs Hr _ IH]; intros acc;
    [reflexivity|].
  simpl. rewrite IH. unfold srv_txt_step, RR.is_TXT in *.
  now destruct (RR.data r).
Qed.

Lemma candidate_without_txt records referer t ptr c :
  Forall (fun r => RR.is_TXT r = false) records ->
  candidate records referer t ptr = Some c ->
  Service.txt c = None /\ Service.rawTxt c = None.
Proof.
  intros H. unfold candidate.
  destruct (RR.data ptr) as [pdata| | | | |]; try discriminate.
  destruct (fold_left _ _ _) as [srv txt] eqn:Hfold.
  assert (Htxt : txt = None).
  { change txt with (snd (srv, txt)). rewrite <- Hfold.
    rewrite txt_fold_none; [reflexivity|].
    apply Forall_forall. intros r Hr. rewrite Forall_forall in H.
    apply H. apply list_elem_of_In, filter_In in Hr.
    apply list_elem_of_In, Hr. }
  destruct srv as [f|]; [|discriminate].
  destruct (negb _); [discriminate|].
  intros [= <-]. subst txt. auto.
Qed.

(** C9. With no TXT filter configured (a filter that, absent, admits every
    service) and an [equalTxt] for which an absent mapping equals no
    non-empty mapping: when a packet holds no TXT record, a candidate [c]
    built from it for a service known with a non-empty TXT mapping has
    neither [txt] nor [rawTxt]; handling it emits a [txt-update] event with
    [c] and the stored entry, and [c] takes the stored entry's place. *)
Theorem announcement_without_txt_erases_txt
    packet name rinfo t b c old i m :
  txtQuery b = None ->
  (forall s, filterService s None = true) ->
  (forall m', m' <> ∅ -> equalTxt None m' = false) ->
  (forall r, In r (all_records packet) -> RR.is_TXT r = false) ->
  In c (buildServicesFor name packet rinfo t) ->
  find_index (same_fqdn (Service.fqdn c)) (_services b) = Some (old, i) ->
  Service.txt old = Some m -> m <> ∅ ->
  let result := match_service c b in
  Service.txt c = None /\ Service.rawTxt c = None /\
  In (TxtUpdate c (Service.set_lastSeen (Service.lastSeen c) old))
     (events (snd result)) /\
  _services (fst result) !! i = Some c.
Proof.
  intros Hq Hadmit Habsent Hnotxt Hc Hfind Hold Hm result.
  assert (Htxt : Service.txt c = None /\ Service.rawTxt c = None).
  { unfold buildServicesFor in Hc. apply In_omap in Hc.
    destruct Hc as (ptr & _ & Hc).
    apply (candidate_without_txt _ _ _ _ _) in Hc; [exact Hc|].
    apply Forall_forall. intros r Hr. apply list_elem_of_In in Hr.
    apply In_live_records in Hr. apply Hnotxt, Hr. }
  destruct Htxt as [Ht Hr]. split; [exact Ht|]. split; [exact Hr|].
  assert (Hpass : filterService c (txtQuery b) = true)
    by (rewrite Hq; apply Hadmit).
  assert (Hdiff : equalTxt (Service.txt c) (txt_or_empty old) = false).
  { rewrite Ht. unfold txt_or_empty. rewrite Hold. now apply Habsent. }
  split.
  - unfold result. rewrite (match_service_known old i c b Hfind Hpass).
    rewrite Hdiff. apply in_or_app. right. now left.
  - unfold result, match_service. rewrite Hfind. rewrite seq_run. simpl.
    set (old' := Service.set_lastSeen (Service.lastSeen c) old).
    set (b1 := set_services (<[i:=old']> (_services b)) b).
    apply find_index_Some in Hfind. destruct Hfind as (Hi & Hsame & _).
    assert (H1 : _services (fst (updateServiceSrv old' c b1)) !! i
                 = Some (if srv_changed old' c then c else old')).
    { unfold updateServiceSrv. destruct (srv_changed old' c).
      - rewrite seq_run. simpl.
        rewrite (replace_lookup c _ i old').
        + change (same_fqdn (Service.fqdn c) old')
            with (same_fqdn (Service.fqdn c) old). now rewrite Hsame.
        + apply list_lookup_insert_eq. exact (lookup_lt_Some _ _ _ Hi).
      - simpl. apply list_lookup_insert_eq. exact (lookup_lt_Some _ _ _ Hi). }
    unfold updateServiceTxt.
    change (txt_or_empty old') with (txt_or_empty old). rewrite Hdiff.
    pose proof (updateServiceSrv_settings old' c b1) as (_ & _ & Hq' & _).
    rewrite Hq'. simpl. rewrite Hpass. simpl.
    rewrite (replace_lookup c _ i _ H1).
    destruct (srv_changed old' c).
    + now destruct (negb _).
    + change (same_fqdn (Service.fqdn c) old')
        with (same_fqdn (Service.fqdn c) old). now rewrite Hsame.
Qed.

(** ** Admission *)

(** An [up] event comes out of the match callback only for the candidate
    itself, and only when no known service has its name. *)
Lemma match_service_up c c' b :
  In (Up c') (events (snd (match_service c b))) ->
  c' = c /\
  find_index (same_fqdn (Service.fqdn c)) (_services b) = None /\
  filterService c (txtQuery b) = true.
Proof.
  unfold match_service.
  destruct (find_index _ _) as [[old i]|] eqn:Hfind.
  - clear Hfind. rewrite seq_run. simpl. rewrite events_app, in_app_iff.
    unfold updateServiceSrv, updateServiceTxt. intros [H|H]; exfalso;
      revert H.
    + destruct (srv_changed _ _); simpl; [|tauto].
      intros [H|[]]. discriminate.
    + destruct (equalTxt _ _); [simpl; tauto|].
      destruct (negb _).
      * unfold removeService.
        destruct (find_index _ _) as [[x j]|]; simpl; [|tauto].
        intros [H|[]]. discriminate.
      * simpl. intros [H|[]]. discriminate.
  - unfold addService.
    destruct (filterService c (txtQuery b)); simpl; [|intros []].
    intros [[= <-]|[]]. auto.
Qed.

(** ** One service per fully-qualified name *)

Section DnsEquivalence.

Hypothesis dnsEqual_sym : forall a b, dnsEqual a b = dnsEqual b a.
Hypothesis dnsEqual_trans :
  forall a b c,
    dnsEqual a b = true -> dnsEqual b c = true -> dnsEqual a c = true.

Lemma one_per_fqdn_cons s l :
  one_per_fqdn (s :: l) <-> Forall (differs_from s) l /\ one_per_fqdn l.
Proof.
  unfold one_per_fqdn, differs_from. split.
  - intros H. split.
    + apply Forall_lookup. intros j t Ht.
      destruct (dnsEqual _ _) eqn:E; [|reflexivity].
      discriminate (H O (S j) s t eq_refl Ht E).
    + intros i j a b Ha Hb E.
      specialize (H (S i) (S j) a b Ha Hb E). congruence.
  - intros [HF H] [|i] [|j] a b Ha Hb E; simpl in *.
    + reflexivity.
    + injection Ha as <-.
      rewrite (Forall_lookup_1 _ _ _ _ HF Hb) in E. discriminate.
    + injection Hb as <-. rewrite dnsEqual_sym in E.
      rewrite (Forall_lookup_1 _ _ _ _ HF Ha) in E. discriminate.
    + f_equal. eapply H; eassumption.
Qed.

Lemma one_per_fqdn_nil : one_per_fqdn [].
Proof. intros i j s t H. rewrite lookup_nil in H. discriminate. Qed.

Lemma one_per_fqdn_sublist l' l :
  l' `sublist_of` l -> one_per_fqdn l -> one_per_fqdn l'.
Proof.
  induction 1 as [|x l1 l2 Hsub IH|x l1 l2 Hsub IH]; intros H.
  - exact H.
  - apply one_per_fqdn_cons in H. destruct H as [HF H].
    apply one_per_fqdn_cons. split; [|now apply IH].
    apply Forall_forall. intros t Ht. rewrite Forall_forall in HF.
    apply HF. eapply sublist_subseteq; eassumption.
  - apply one_per_fqdn_cons in H. now apply IH.
Qed.

Lemma splice1_sublist {X : Type} i (l : list X) : splice1 i l `sublist_of` l.
Proof.
  unfold splice1. revert l. induction i as [|i IH]; intros [|x l]; simpl.
  - constructor.
  - rewrite drop_0. now apply sublist_cons.
  - constructor.
  - apply sublist_skip, IH.
Qed.

Lemma filter_sublist {X : Type} (p : X -> bool) (l : list X) :
  List.filter p l `sublist_of` l.
Proof.
  induction l as [|x l IH]; simpl; [constructor|].
  destruct (p x); now constructor.
Qed.

Lemma one_per_fqdn_push c l :
  one_per_fqdn l ->
  find_index (same_fqdn (Service.fqdn c)) l = None ->
  one_per_fqdn (l ++ [c]).
Proof.
  rewrite find_index_None. induction l as [|s l IH]; intros H Hnone.
  - apply one_per_fqdn_cons. split; [constructor | apply one_per_fqdn_nil].
  - apply one_per_fqdn_cons in H. destruct H as [HF H].
    inversion Hnone as [|? ? Hs Hl]; subst.
    simpl. apply one_per_fqdn_cons. split; [|now apply IH].
    apply Forall_app. split; [exact HF|].
    constructor; [exact Hs | constructor].
Qed.

Lemma one_per_fqdn_replace c l :
  one_per_fqdn l ->
  one_per_fqdn
    (List.map (fun s => if negb (same_fqdn (Service.fqdn c) s)
                        then s else c) l).
Proof.
  induction l as [|s l IH]; intros H; [exact H|].
  apply one_per_fqdn_cons in H. destruct H as [HF H].
  simpl. apply one_per_fqdn_cons. split; [|now apply IH].
  rewrite Forall_forall in HF. apply Forall_forall. intros t Ht.
  apply list_elem_of_In, in_map_iff in Ht. destruct Ht as (u & <- & Hu).
  apply list_elem_of_In in Hu. specialize (HF u Hu).
  unfold differs_from, same_fqdn in *.
  destruct (dnsEqual (Service.fqdn s) (Service.fqdn c)) eqn:Es;
    destruct (dnsEqual (Service.fqdn u) (Service.fqdn c)) eqn:Eu; simpl.
  - rewrite dnsEqual_sym in Eu.
    rewrite (dnsEqual_trans _ _ _ Es Eu) in HF. discriminate.
  - destruct (dnsEqual (Service.fqdn c) (Service.fqdn u)) eqn:E;
      [|reflexivity].
    rewrite dnsEqual_sym in E. congruence.
  - exact Es.
  - exact HF.
Qed.

Lemma one_per_fqdn_refresh v x i l :
  one_per_fqdn l -> l !! i = Some x ->
  one_per_fqdn (<[i := Service.set_lastSeen v x]> l).
Proof.
  intros H Hx a b s t Hs Ht E.
  assert (Hfq : forall k u, <[i := Service.set_lastSeen v x]> l !! k = Some u ->
            exists u', l !! k = Some u' /\ Service.fqdn u' = Service.fqdn u).
  { intros k u Hk. destruct (decide (i = k)) as [<-|Hne].
    - rewrite list_lookup_insert_eq in Hk
        by exact (lookup_lt_Some l i x Hx).
      injection Hk as <-. exists x. split; [exact Hx | reflexivity].
    - rewrite list_lookup_insert_ne in Hk by exact Hne. eauto. }
  destruct (Hfq a s Hs) as (s' & Hs' & Es).
  destruct (Hfq b t Ht) as (t' & Ht' & Et).
  apply (H a b s' t' Hs' Ht'). now rewrite Es, Et.
Qed.

(** C7. In every state a browser can reach from its construction by
    calls of start, stop, update and expire and by responses handled,
    the known-service list holds at most one service per
    fully-qualified name, names being compared by [dnsEqual]; and in such
    a state a candidate is admitted ([up]) only when no known service has a
    DNS-equal name. *)
Theorem known_services_one_per_fqdn (b : Browser) :
  reachable b ->
  one_per_fqdn (_services b) /\
  (forall c c',
     In (Up c') (events (snd (match_service c b))) ->
     c' = c /\
     forall s, In s (_services b) ->
               dnsEqual (Service.fqdn s) (Service.fqdn c) = false).
Proof.
  intros Hb. split.
  - revert b Hb. apply (reachable_inv one_per_fqdn (fun _ => True)).
    + apply one_per_fqdn_nil.
    + intros i l. apply one_per_fqdn_sublist, splice1_sublist.
    + intros p l. apply one_per_fqdn_sublist, filter_sublist.
    + intros c l H _. now apply one_per_fqdn_push.
    + intros c l H _. now apply one_per_fqdn_replace.
    + intros v x i l. apply one_per_fqdn_refresh.
    + trivial.
  - intros c c' Hup. apply match_service_up in Hup.
    destruct Hup as (-> & Hnone & _). split; [reflexivity|].
    apply find_index_None in Hnone. rewrite Forall_forall in Hnone.
    intros s Hs. apply Hnone. now apply list_elem_of_In.
Qed.

(** ** Removing the service of a fully-qualified name *)

Lemma filter_none {X : Type} (p : X -> bool) (l : list X) :
  Forall (fun x => p x = false) l ->
  List.filter p l = [] /\ List.filter (fun x => negb (p x)) l = l.
Proof.
  induction 1 as [|x l Hx _ [IH1 IH2]]; [easy|].
  simpl. rewrite Hx. simpl. now rewrite IH1, IH2.
Qed.

Lemma filter_one {X : Type} (p : X -> bool) (pre post : list X) (x : X) :
  Forall (fun y => p y = false) pre -> p x = true ->
  Forall (fun y => p y = false) post ->
  List.filter p (pre ++ x :: post) = [x] /\
  List.filter (fun y => negb (p y)) (pre ++ x :: post) = pre ++ post.
Proof.
  intros Hpre Hx Hpost.
  destruct (filter_none p pre Hpre) as [E1 E2].
  destruct (filter_none p post Hpost) as [E3 E4].
  rewrite !List.filter_app. simpl. rewrite Hx. simpl.
  now rewrite E1, E2, E3, E4.
Qed.

Lemma filter_filter {X : Type} (p q : X -> bool) (l : list X) :
  List.filter p (List.filter q l) = List.filter (fun x => q x && p x) l.
Proof.
  induction l as [|x l IH]; [reflexivity|].
  simpl. destruct (q x); simpl; [destruct (p x)|]; now rewrite IH.
Qed.

Lemma same_fqdn_unique F l s x :
  one_per_fqdn l -> In s l -> In x l ->
  same_fqdn F s = true -> same_fqdn F x = true -> x = s.
Proof.
  unfold same_fqdn. intros H Hs Hx Es Ex.
  apply list_elem_of_In, list_elem_of_lookup in Hs. destruct Hs as [i Hi].
  apply list_elem_of_In, list_elem_of_lookup in Hx. destruct Hx as [j Hj].
  assert (E : dnsEqual (Service.fqdn x) (Service.fqdn s) = true).
  { apply (dnsEqual_trans _ F); [exact Ex|]. now rewrite dnsEqual_sym. }
  rewrite (H j i x s Hj Hi E) in Hj. congruence.
Qed.

Lemma splice1_unique F l s i :
  one_per_fqdn l -> find_index (same_fqdn F) l = Some (s, i) ->
  splice1 i l = List.filter (fun x => negb (same_fqdn F x)) l /\
  List.filter (same_fqdn F) l = [s].
Proof.
  intros H Hfind. apply find_index_Some in Hfind.
  destruct Hfind as (Hi & Hs & Hpre).
  assert (Hpost : Forall (fun x => same_fqdn F x = false) (drop (S i) l)).
  { apply Forall_forall. intros x Hx.
    destruct (same_fqdn F x) eqn:Ex; [|reflexivity].
    assert (Hin : x ∈ l) by (eapply sublist_subseteq; [apply sublist_drop|exact Hx]).
    apply list_elem_of_lookup in Hx. destruct Hx as [j Hj].
    rewrite lookup_drop in Hj.
    assert (E : dnsEqual (Service.fqdn s) (Service.fqdn x) = true).
    { apply (dnsEqual_trans _ F); [exact Hs|].
      rewrite dnsEqual_sym. exact Ex. }
    pose proof (H i (S i + j)%nat s x Hi Hj E). lia. }
  pose proof (take_drop_middle l i s Hi) as El.
  unfold splice1. remember (take i l) as pre. remember (drop (S i) l) as post.
  rewrite <- El.
  destruct (filter_one (same_fqdn F) pre post s Hpre Hs Hpost) as [E1 E2].
  now rewrite E1, E2.
Qed.

Lemma removeService_unique F b :
  one_per_fqdn (_services b) ->
  _services (fst (removeService F b)) =
    List.filter (fun x => negb (same_fqdn F x)) (_services b) /\
  snd (removeService F b) =
    List.map (fun x => Emit (Down x)) (List.filter (same_fqdn F) (_services b)).
Proof.
  intros H. unfold removeService.
  destruct (find_index _ _) as [[s i]|] eqn:Hfind; simpl.
  - destruct (splice1_unique F _ s i H Hfind) as [E1 E2].
    now rewrite E1, E2.
  - apply find_index_None in Hfind.
    destruct (filter_none _ _ Hfind) as [E1 E2]. now rewrite E1, E2.
Qed.

Lemma filter_same_fqdn F l s :
  one_per_fqdn l -> In s l -> same_fqdn F s = true ->
  List.filter (same_fqdn F) l = [s].
Proof.
  intros H Hin Hs.
  destruct (find_index_is_Some (same_fqdn F) l s Hin Hs) as (y & i & Hfind).
  destruct (splice1_unique F l y i H Hfind) as [_ E]. rewrite E.
  apply find_index_Some in Hfind. destruct Hfind as (Hi & Hy & _).
  f_equal. apply (same_fqdn_unique F l); try assumption.
  apply list_elem_of_In. eapply list_elem_of_lookup_2, Hi.
Qed.

Lemma removeService_idle F b :
  Forall (fun x => same_fqdn F x = false) (_services b) ->
  removeService F b = (b, []).
Proof.
  intros H. apply find_index_None in H. unfold removeService. now rewrite H.
Qed.

(** The goodbye loop: [fqdns.forEach(removeService)]. *)

Lemma goodbye_loop_services G b :
  one_per_fqdn (_services b) ->
  _services (fst (forEach removeService G b)) =
    List.filter (fun x => negb (existsb (fun F => same_fqdn F x) G))
                (_services b).
Proof.
  revert b. induction G as [|F G IH]; intros b H.
  - simpl. clear H. induction (_services b) as [|x l IHl];
      simpl; [reflexivity | now rewrite <- IHl].
  - rewrite forEach_cons. simpl.
    destruct (removeService_unique F b H) as [E _].
    rewrite IH, E.
    + rewrite filter_filter. apply List.filter_ext. intros x.
      now rewrite negb_orb.
    + rewrite E. eapply one_per_fqdn_sublist; [apply filter_sublist|exact H].
Qed.

Lemma goodbye_loop_idle G b :
  (forall F, In F G -> Forall (fun x => same_fqdn F x = false) (_services b)) ->
  forEach removeService G b = (b, []).
Proof.
  induction G as [|F G IH]; intros H; [reflexivity|].
  rewrite forEach_cons, removeService_idle by (apply H; now left).
  simpl. rewrite IH by (intros F' HF'; apply H; now right). reflexivity.
Qed.

Lemma goodbye_loop_emitted G b e :
  In e (events (snd (forEach removeService G b))) ->
  exists s, e = Down s /\ In s (_services b).
Proof.
  revert b. induction G as [|F G IH]; intros b H; [contradiction|].
  rewrite forEach_cons in H. simpl in H. rewrite events_app in H.
  apply in_app_or in H. destruct H as [H|H].
  - unfold removeService in *.
    destruct (find_index _ _) as [[s i]|] eqn:Hfind; [|contradiction].
    destruct H as [<-|[]]. exists s. split; [reflexivity|].
    apply find_index_Some in Hfind. destruct Hfind as [Hi _].
    apply list_elem_of_In. eapply list_elem_of_lookup_2, Hi.
  - apply IH in H. destruct H as (s & -> & Hs). exists s. split; [reflexivity|].
    unfold removeService in Hs.
    destruct (find_index _ _) as [[s' i]|]; [|exact Hs].
    simpl in Hs. apply list_elem_of_In.
    apply (sublist_subseteq _ _ (splice1_sublist i (_services b))).
    apply list_elem_of_In. exact Hs.
Qed.

Lemma goodbye_loop_silent F G b :
  Forall (fun x => same_fqdn F x = false) (_services b) ->
  List.filter (down_for F) (events (snd (forEach removeService G b))) = [].
Proof.
  intros H. apply filter_none. apply Forall_forall. intros e He.
  apply list_elem_of_In, goodbye_loop_emitted in He.
  destruct He as (s & -> & Hs). rewrite Forall_forall in H.
  apply H. now apply list_elem_of_In.
Qed.

Lemma goodbye_loop_down F G b s :
  one_per_fqdn (_services b) -> In s (_services b) ->
  same_fqdn F s = true -> In F G ->
  List.filter (down_for F) (events (snd (forEach removeService G b))) =
  [Down s].
Proof.
  revert b. induction G as [|F1 G IH]; intros b H Hs Es HF; [contradiction|].
  rewrite forEach_cons. simpl. rewrite events_app, List.filter_app.
  destruct (removeService_unique F1 b H) as [E1 E2].
  assert (H1 : one_per_fqdn (_services (fst (removeService F1 b)))).
  { rewrite E1. eapply one_per_fqdn_sublist; [apply filter_sublist|exact H]. }
  destruct (same_fqdn F1 s) eqn:Es1.
  - rewrite E2, (filter_same_fqdn F1 _ s H Hs Es1). simpl.
    unfold same_fqdn in Es. rewrite Es.
    rewrite goodbye_loop_silent; [reflexivity|].
    rewrite E1. apply Forall_forall. intros x Hx.
    apply list_elem_of_In, filter_In in Hx. destruct Hx as [Hx Ex].
    destruct (same_fqdn F x) eqn:Ex'; [|reflexivity].
    rewrite (same_fqdn_unique F _ s x H Hs Hx Es Ex'), Es1 in Ex.
    discriminate.
  - assert (E : List.filter (down_for F) (events (snd (removeService F1 b))) = []).
    { apply filter_none. apply Forall_forall. intros e He.
      rewrite E2 in He. apply list_elem_of_In in He.
      unfold events in He. apply In_omap in He.
      destruct He as (eff & Heff & Hev). apply in_map_iff in Heff.
      destruct Heff as (x & <- & Hx). injection Hev as <-.
      apply filter_In in Hx. destruct Hx as [Hx Ex]. simpl.
      destruct (dnsEqual (Service.fqdn x) F) eqn:Ex'; [|reflexivity].
      rewrite (same_fqdn_unique F _ s x H Hs Hx Es Ex'), Es1 in Ex.
      discriminate. }
    rewrite E. simpl. apply IH; try assumption.
    + rewrite E1. apply filter_In. split; [exact Hs|]. now rewrite Es1.
    + destruct HF as [<-|HF]; [congruence | exact HF].
Qed.

(** ** Goodbyes *)

Lemma forEach_app {X : Type} (f : X -> Cmd) xs ys b :
  forEach f (xs ++ ys) b = (forEach f xs >> forEach f ys) b.
Proof.
  revert b. induction xs as [|x xs IH]; intros b.
  - rewrite seq_run. simpl. now destruct (forEach f ys b).
  - simpl. rewrite !seq_run, IH, seq_run. simpl. now rewrite app_assoc.
Qed.

Lemma forEach_flat_map {X Y : Type} (f : Y -> Cmd) (g : X -> list Y) xs b :
  forEach (fun x => forEach f (g x)) xs b = forEach f (flat_map g xs) b.
Proof.
  revert b. induction xs as [|x xs IH]; intros b; [reflexivity|].
  simpl. rewrite forEach_app, !seq_run, IH. reflexivity.
Qed.

Lemma forEach_ext {X : Type} (f g : X -> Cmd) xs b :
  (forall x b', f x b' = g x b') -> forEach f xs b = forEach g xs b.
Proof.
  intros H. revert b. induction xs as [|x xs IH]; intros b; [reflexivity|].
  simpl. now rewrite !seq_run, H, IH.
Qed.

Lemma In_goodbyes name packet F :
  In F (goodbyes name packet) <->
  exists rr, In rr (all_records packet) /\ RR.data rr = RR.PTR F /\
             RR.ttl rr = 0 /\ dnsEqual (RR.name rr) name = true.
Proof.
  unfold goodbyes. rewrite In_omap. unfold is_goodbye, ptr_data, RR.is_PTR.
  split.
  - intros (rr & Hin & Hd). apply filter_In in Hin. destruct Hin as [Hin Hg].
    exists rr. destruct (RR.data rr); try discriminate.
    injection Hd as ->. simpl in Hg. apply andb_true_iff in Hg.
    destruct Hg as [Ht Hn]. apply Z.eqb_eq in Ht. auto.
  - intros (rr & Hin & Hd & Ht & Hn). exists rr. rewrite filter_In, Hd, Ht, Hn.
    auto.
Qed.

(** A packet without a PTR record of positive ttl yields no candidate. *)
Lemma quiet_buildServicesFor name packet rinfo t :
  (forall r, In r (all_records packet) -> RR.is_PTR r = true -> RR.ttl r <= 0) ->
  buildServicesFor name packet rinfo t = [].
Proof.
  intros Hq. unfold buildServicesFor.
  destruct (List.filter (is_ptr_for name) (live_records packet))
    as [|r l] eqn:E; [reflexivity|].
  assert (Hr : In r (List.filter (is_ptr_for name) (live_records packet)))
    by (rewrite E; now left).
  apply filter_In in Hr. destruct Hr as [Hr Hp].
  apply In_live_records in Hr. destruct Hr as [Hr Httl].
  unfold is_ptr_for in Hp. apply andb_true_iff in Hp.
  specialize (Hq r Hr (proj1 Hp)). lia.
Qed.

Lemma quiet_process_name packet rinfo t name b :
  (forall r, In r (all_records packet) -> RR.is_PTR r = true -> RR.ttl r <= 0) ->
  process_name packet rinfo t name b =
  forEach removeService (goodbyes name packet) b.
Proof.
  intros Hq. unfold process_name.
  rewrite seq_run, quiet_buildServicesFor by exact Hq. simpl.
  rewrite app_nil_r. now destruct (forEach _ _ b).
Qed.

Lemma onresponse_call_run packet rinfo t b nameMap :
  onresponse b = Some nameMap ->
  onresponse_call packet rinfo t b =
  let block := wildcard_block b packet nameMap in
  let loop := forEach (process_name packet rinfo t) (JsObject.keys (fst block))
                      (set_onresponse (Some (fst block)) b) in
  (fst loop, snd block ++ snd loop).
Proof.
  intros H. unfold onresponse_call. rewrite H.
  destruct (wildcard_block b packet nameMap) as [nameMap' sent]. simpl.
  now destruct (forEach _ _ _).
Qed.

Lemma set_onresponse_same b h : onresponse b = h -> set_onresponse h b = b.
Proof. intros <-. now destruct b. Qed.

(** ** A fully-qualified name through the list operations *)

Lemma downs_for_app F e1 e2 :
  downs_for F (e1 ++ e2) = downs_for F e1 ++ downs_for F e2.
Proof. unfold downs_for. now rewrite events_app, List.filter_app. Qed.

Lemma downs_for_quiet F es : events es = [] -> downs_for F es = [].
Proof. unfold downs_for. now intros ->. Qed.

Lemma In_insert {X : Type} (y x : X) i l :
  In y (<[i := x]> l) -> y = x \/ In y l.
Proof.
  revert i. induction l as [|z l IH]; intros [|i] H; simpl in *; try tauto.
  - destruct H as [<-|H]; auto.
  - destruct H as [<-|H]; [auto|]. destruct (IH i H); auto.
Qed.

Lemma spares_skip F b :
  one_per_fqdn (_services b) ->
  one_per_fqdn (_services b) /\
  (unknown F b -> unknown F b /\ downs_for F [] = []) /\
  (forall s, In s (_services b) -> dnsEqual (Service.fqdn s) F = true ->
     (In s (_services b) /\ downs_for F [] = []) \/
     (unknown F b /\ downs_for F [] = [Down s])).
Proof. intros Hu. repeat split; auto. Qed.

Lemma spares_seq F f g : spares F f -> spares F g -> spares F (f >> g).
Proof.
  intros Hf Hg b Hu. rewrite seq_run. cbn [fst snd].
  destruct (Hf b Hu) as (U1 & A1 & B1).
  destruct (Hg (fst (f b)) U1) as (U2 & A2 & B2).
  split; [exact U2|]. split.
  - intros Hun. destruct (A1 Hun) as [H1 E1]. destruct (A2 H1) as [H2 E2].
    split; [exact H2|]. now rewrite downs_for_app, E1, E2.
  - intros s Hs HsF. destruct (B1 s Hs HsF) as [[Hin E1] | [Hun E1]].
    + destruct (B2 s Hin HsF) as [[Hin2 E2] | [Hun2 E2]]; [left|right];
        (split; [assumption|]); now rewrite downs_for_app, E1, E2.
    + destruct (A2 Hun) as [H2 E2]. right. split; [exact H2|].
      now rewrite downs_for_app, E1, E2.
Qed.

Lemma spares_forEach {X : Type} F (f : X -> Cmd) xs :
  (forall x, In x xs -> spares F (f x)) -> spares F (forEach f xs).
Proof.
  induction xs as [|x xs IH]; intros H.
  - intros b Hu. exact (spares_skip F b Hu).
  - simpl. apply spares_seq; [apply H; now left|].
    apply IH. intros y Hy. apply H. now right.
Qed.

Lemma spares_emit F e :
  down_for F e = false -> spares F (emit e).
Proof.
  intros He b Hu. unfold emit, downs_for. simpl. rewrite He.
  repeat split; auto.
Qed.

Lemma spares_removeService F G : spares F (removeService G).
Proof.
  intros b Hu. unfold removeService.
  destruct (find_index _ _) as [[x i]|] eqn:Hfind;
    [|exact (spares_skip F b Hu)].
  destruct (splice1_unique _ _ _ _ Hu Hfind) as [Es _].
  apply find_index_Some in Hfind. destruct Hfind as (Hi & HxG & _).
  assert (Hx : In x (_services b))
    by (apply list_elem_of_In, list_elem_of_lookup; eauto).
  unfold same_fqdn in HxG. cbn [fst snd _services set_serviceMap set_services].
  assert (Hsub : forall y, In y (splice1 i (_services b)) ->
                           In y (_services b) /\
                           dnsEqual (Service.fqdn y) G = false).
  { intros y Hy. rewrite Es in Hy. apply filter_In in Hy.
    destruct Hy as [Hy Hn]. apply negb_true_iff in Hn. auto. }
  split; [|split].
  - eapply one_per_fqdn_sublist; [apply splice1_sublist | exact Hu].
  - intros Hun. split.
    + intros y Hy. apply Hun. simpl in Hy. now apply Hsub.
    + unfold downs_for. simpl. now rewrite (Hun x Hx).
  - intros s Hs HsF. unfold downs_for, unknown. simpl.
    destruct (dnsEqual (Service.fqdn x) F) eqn:ExF.
    + right.
      assert (x = s) as ->.
      { apply (same_fqdn_unique F (_services b)); assumption. }
      split; [|reflexivity].
      intros y Hy. apply Hsub in Hy. destruct Hy as [_ Hy].
      destruct (dnsEqual (Service.fqdn y) F) eqn:EyF; [|reflexivity].
      assert (dnsEqual (Service.fqdn y) G = true); [|congruence].
      apply (dnsEqual_trans _ F); [exact EyF|].
      apply (dnsEqual_trans _ (Service.fqdn s)); [|exact HxG].
      now rewrite dnsEqual_sym.
    + left. split; [|reflexivity].
      rewrite Es. apply filter_In. split; [exact Hs|].
      apply negb_true_iff. unfold same_fqdn.
      destruct (dnsEqual (Service.fqdn s) G) eqn:EsG; [|reflexivity].
      assert (dnsEqual (Service.fqdn x) F = true); [|congruence].
      apply (dnsEqual_trans _ (Service.fqdn s)); [|exact HsF].
      apply (dnsEqual_trans _ G); [exact HxG|]. now rewrite dnsEqual_sym.
Qed.

Lemma spares_replaceService F c :
  dnsEqual (Service.fqdn c) F = false -> spares F (replaceService c).
Proof.
  intros Hc b Hu. unfold replaceService. cbn [fst snd _services set_services].
  split; [now apply one_per_fqdn_replace|]. split.
  - intros Hun. split; [|reflexivity].
    intros y Hy. simpl in Hy. apply in_map_iff in Hy.
    destruct Hy as (z & <- & Hz). destruct (negb _); [now apply Hun | exact Hc].
  - intros s Hs HsF. left. split; [|reflexivity]. simpl.
    apply in_map_iff. exists s. split; [|exact Hs].
    unfold same_fqdn.
    destruct (dnsEqual (Service.fqdn s) (Service.fqdn c)) eqn:E; [|reflexivity].
    exfalso. rewrite dnsEqual_sym in E.
    rewrite (dnsEqual_trans _ _ _ E HsF) in Hc. discriminate.
Qed.

Lemma spares_updateServiceSrv F old c :
  dnsEqual (Service.fqdn c) F = false -> spares F (updateServiceSrv old c).
Proof.
  intros Hc. unfold updateServiceSrv. destruct (srv_changed old c).
  - apply spares_seq; [now apply spares_replaceService|].
    now apply spares_emit.
  - intros b Hu. exact (spares_skip F b Hu).
Qed.

Lemma spares_updateServiceTxt F old c :
  dnsEqual (Service.fqdn c) F = false -> spares F (updateServiceTxt old c).
Proof.
  intros Hc b Hu. unfold updateServiceTxt.
  destruct (equalTxt _ _); [exact (spares_skip F b Hu)|].
  destruct (negb _); [now apply spares_removeService|].
  apply spares_seq; [now apply spares_replaceService | now apply spares_emit
                    | exact Hu].
Qed.

Lemma spares_match_service F c :
  dnsEqual (Service.fqdn c) F = false -> spares F (match_service c).
Proof.
  intros Hc b Hu. unfold match_service.
  destruct (find_index _ _) as [[old i]|] eqn:Hfind.
  - apply find_index_Some in Hfind. destruct Hfind as (Hi & Hold & _).
    unfold same_fqdn in Hold.
    assert (HoF : dnsEqual (Service.fqdn old) F = false).
    { destruct (dnsEqual (Service.fqdn old) F) eqn:E; [|reflexivity].
      rewrite dnsEqual_sym in Hold.
      rewrite (dnsEqual_trans _ _ _ Hold E) in Hc. discriminate. }
    set (old' := Service.set_lastSeen (Service.lastSeen c) old).
    set (b1 := set_services (<[i:=old']> (_services b)) b).
    assert (U1 : one_per_fqdn (_services b1))
      by (simpl; now apply one_per_fqdn_refresh).
    destruct (spares_seq F _ _ (spares_updateServiceSrv F old' c Hc)
                (spares_updateServiceTxt F old' c Hc) b1 U1)
      as (U2 & A2 & B2).
    split; [exact U2|]. split.
    + intros Hun. apply A2. intros y Hy. simpl in Hy.
      apply In_insert in Hy. destruct Hy as [-> | Hy]; [exact HoF|].
      now apply Hun.
    + intros s Hs HsF. apply B2; [|exact HsF]. simpl.
      apply list_elem_of_In, list_elem_of_lookup in Hs. destruct Hs as [j Hj].
      apply list_elem_of_In, list_elem_of_lookup. exists j.
      rewrite list_lookup_insert_ne; [exact Hj|].
      intros ->. assert (old = s) by congruence. subst. congruence.
  - unfold addService.
    destruct (negb _); [exact (spares_skip F b Hu)|].
    cbn [fst snd _services set_serviceMap set_services].
    split; [now apply one_per_fqdn_push|]. split.
    + intros Hun. split; [|reflexivity].
      intros y Hy. simpl in Hy. apply in_app_or in Hy.
      destruct Hy as [Hy | [<-|[]]]; [now apply Hun | exact Hc].
    + intros s Hs HsF. left. split; [|reflexivity].
      simpl. apply in_or_app. now left.
Qed.

(** No candidate of a packet without a live SRV record for [F] has a name
    DNS-equal to [F]. *)
Lemma candidates_differ F packet name rinfo t c :
  (forall r, In r (all_records packet) -> RR.is_SRV r = true ->
             0 < RR.ttl r -> dnsEqual (RR.name r) F = false) ->
  In c (buildServicesFor name packet rinfo t) ->
  dnsEqual (Service.fqdn c) F = false.
Proof.
  intros Hsrv Hc. apply buildServicesFor_spec in Hc.
  destruct Hc as (_ & _ & srv & _ & _ & _ & _ & Hin & Httl & _ & Hp).
  destruct Hp as (tg & pt & Hd & -> & _).
  apply Hsrv; [exact Hin | | exact Httl].
  unfold RR.is_SRV. now rewrite Hd.
Qed.

Lemma spares_process_name F packet rinfo t name :
  (forall n t0 c, In c (buildServicesFor n packet rinfo t0) ->
                  dnsEqual (Service.fqdn c) F = false) ->
  spares F (process_name packet rinfo t name).
Proof.
  intros Hcand. unfold process_name. apply spares_seq; apply spares_forEach.
  - intros G _. apply spares_removeService.
  - intros c Hc. apply spares_match_service. now apply (Hcand name t).
Qed.

Lemma process_name_removes F packet rinfo t name s b :
  (forall n t0 c, In c (buildServicesFor n packet rinfo t0) ->
                  dnsEqual (Service.fqdn c) F = false) ->
  In F (goodbyes name packet) ->
  one_per_fqdn (_services b) ->
  In s (_services b) -> dnsEqual (Service.fqdn s) F = true ->
  let result := process_name packet rinfo t name b in
  one_per_fqdn (_services (fst result)) /\
  unknown F (fst result) /\ downs_for F (snd result) = [Down s].
Proof.
  intros Hcand HF Hu Hs HsF result.
  unfold result, process_name. rewrite seq_run. cbn [fst snd].
  set (b1 := fst (forEach removeService (goodbyes name packet) b)).
  assert (U1 : one_per_fqdn (_services b1)).
  { apply (spares_forEach F removeService (goodbyes name packet)); [|exact Hu].
    intros G _. apply spares_removeService. }
  assert (Hgone : unknown F b1).
  { intros y Hy. unfold b1 in Hy.
    rewrite goodbye_loop_services in Hy by exact Hu.
    apply filter_In in Hy. destruct Hy as [_ Hy]. apply negb_true_iff in Hy.
    destruct (dnsEqual (Service.fqdn y) F) eqn:E; [|reflexivity].
    assert (Hex : existsb (fun F0 => same_fqdn F0 y) (goodbyes name packet)
                  = true) by (apply existsb_exists; exists F; auto).
    congruence. }
  assert (Hm : spares F (forEach match_service
                           (buildServicesFor name packet rinfo t))).
  { apply spares_forEach. intros c Hc. apply spares_match_service.
    now apply (Hcand name t). }
  destruct (Hm b1 U1) as (U2 & A2 & _). destruct (A2 Hgone) as [H2 E2].
  split; [exact U2|]. split; [exact H2|].
  rewrite downs_for_app, E2, app_nil_r.
  now apply goodbye_loop_down.
Qed.

Lemma spares_onresponse_call F packet rinfo t :
  (forall n t0 c, In c (buildServicesFor n packet rinfo t0) ->
                  dnsEqual (Service.fqdn c) F = false) ->
  spares F (onresponse_call packet rinfo t).
Proof.
  intros Hcand b Hu. destruct (onresponse b) as [nameMap|] eqn:Hon.
  - rewrite (onresponse_call_run _ _ _ _ _ Hon). cbn zeta. cbn [fst snd].
    set (nameMap' := fst (wildcard_block b packet nameMap)).
    set (b0 := set_onresponse (Some nameMap') b).
    assert (Hl : spares F (forEach (process_name packet rinfo t)
                             (JsObject.keys nameMap'))).
    { apply spares_forEach. intros n _. now apply spares_process_name. }
    destruct (Hl b0 Hu) as (U1 & A1 & B1).
    assert (Eb : forall es,
              downs_for F (snd (wildcard_block b packet nameMap) ++ es)
              = downs_for F es).
    { intros es. rewrite downs_for_app, downs_for_quiet; [reflexivity|].
      apply wildcard_block_queries. }
    split; [exact U1|]. split.
    + intros Hun. rewrite Eb. now apply A1.
    + intros s Hs HsF. rewrite Eb. now apply B1.
  - unfold onresponse_call. rewrite Hon. exact (spares_skip F b Hu).
Qed.

Lemma onresponse_call_removes F packet rinfo t name nameMap s b :
  (forall n t0 c, In c (buildServicesFor n packet rinfo t0) ->
                  dnsEqual (Service.fqdn c) F = false) ->
  onresponse b = Some nameMap -> In name (JsObject.keys nameMap) ->
  In F (goodbyes name packet) ->
  one_per_fqdn (_services b) ->
  In s (_services b) -> dnsEqual (Service.fqdn s) F = true ->
  let result := onresponse_call packet rinfo t b in
  one_per_fqdn (_services (fst result)) /\
  unknown F (fst result) /\ downs_for F (snd result) = [Down s].
Proof.
  intros Hcand Hon Hname HF Hu Hs HsF result. unfold result.
  rewrite (onresponse_call_run _ _ _ _ _ Hon). cbn zeta. cbn [fst snd].
  set (nameMap' := fst (wildcard_block b packet nameMap)).
  set (b0 := set_onresponse (Some nameMap') b).
  rewrite downs_for_app, downs_for_quiet by apply wildcard_block_queries.
  simpl.
  assert (Hin : In name (JsObject.keys nameMap'))
    by (apply In_keys, wildcard_block_grows, In_keys, Hname).
  apply in_split in Hin. destruct Hin as (pre & post & ->).
  assert (Hsp : forall ns, spares F (forEach (process_name packet rinfo t) ns)).
  { intros ns. apply spares_forEach. intros n _.
    now apply spares_process_name. }
  rewrite forEach_app, seq_run. cbn [fst snd].
  destruct (Hsp pre b0 Hu) as (U1 & A1 & B1).
  set (b1 := fst (forEach (process_name packet rinfo t) pre b0)) in *.
  rewrite forEach_cons. cbn [fst snd].
  rewrite !downs_for_app.
  destruct (B1 s Hs HsF) as [[Hin E1] | [Hun E1]]; rewrite E1.
  - destruct (process_name_removes F packet rinfo t name s b1
                Hcand HF U1 Hin HsF) as (U2 & H2 & E2).
    rewrite E2.
    destruct (Hsp post _ U2) as (U3 & A3 & _). destruct (A3 H2) as [H3 E3].
    rewrite E3. auto.
  - destruct (spares_process_name F packet rinfo t name Hcand b1 U1)
      as (U2 & A2 & _).
    destruct (A2 Hun) as [H2 E2]. rewrite E2.
    destruct (Hsp post _ U2) as (U3 & A3 & _). destruct (A3 H2) as [H3 E3].
    rewrite E3. auto.
Qed.

(** A packet that announces nothing, handled a second time, changes
    nothing and emits no event. *)
Lemma quiet_packet_again packet rinfo t t' b nameMap :
  onresponse b = Some nameMap ->
  one_per_fqdn (_services b) ->
  (forall r, In r (all_records packet) -> RR.is_PTR r = true ->
             RR.ttl r <= 0) ->
  let first := onresponse_call packet rinfo t b in
  let second := onresponse_call packet rinfo t' (fst first) in
  fst second = fst first /\ events (snd second) = [].
Proof.
  intros Hon Huniq Hquiet first second.
  assert (Hgone0 : forall G b0 F', one_per_fqdn (_services b0) -> In F' G ->
            Forall (fun x => same_fqdn F' x = false)
                   (_services (fst (forEach removeService G b0)))).
  { intros G b0 F' Hu HF'. rewrite goodbye_loop_services by exact Hu.
    apply Forall_forall. intros x Hx.
    apply list_elem_of_In, filter_In in Hx. destruct Hx as [_ Hx].
    apply negb_true_iff in Hx.
    destruct (same_fqdn F' x) eqn:E; [|reflexivity].
    assert (Hex : existsb (fun F0 => same_fqdn F0 x) G = true)
      by (apply existsb_exists; eauto).
    congruence. }
  set (nameMap' := fst (wildcard_block b packet nameMap)).
  set (b0 := set_onresponse (Some nameMap') b).
  set (G := flat_map (fun n => goodbyes n packet) (JsObject.keys nameMap')).
  assert (Hloop : forall t0 b', forEach (process_name packet rinfo t0)
                    (JsObject.keys nameMap') b' = forEach removeService G b').
  { intros t0 b'. unfold G. rewrite <- forEach_flat_map.
    apply forEach_ext. intros n b''. now apply quiet_process_name. }
  assert (Hfirst : first = (fst (forEach removeService G b0),
                            snd (wildcard_block b packet nameMap)
                            ++ snd (forEach removeService G b0))).
  { unfold first. rewrite (onresponse_call_run _ _ _ _ nameMap Hon). simpl.
    fold nameMap' b0. now rewrite Hloop. }
  assert (Hgone : forall F', In F' G ->
            Forall (fun x => same_fqdn F' x = false)
                   (_services (fst (forEach removeService G b0))))
    by (intros F' HF'; now apply Hgone0).
  assert (Hset : same_settings b0 (fst first)).
  { rewrite Hfirst. simpl. apply forEach_settings, removeService_settings. }
  assert (Hon1 : onresponse (fst first) = Some nameMap')
    by (destruct Hset as (_ & _ & _ & ->); reflexivity).
  assert (Hblock : fst (wildcard_block (fst first) packet nameMap') = nameMap').
  { destruct Hset as (H1 & H2 & _).
    apply wildcard_block_idempotent; [exact H1 | exact H2]. }
  split.
  - unfold second. rewrite (onresponse_call_run _ _ _ _ nameMap' Hon1). simpl.
    rewrite Hblock, (set_onresponse_same _ _ Hon1), Hloop.
    rewrite goodbye_loop_idle; [reflexivity|].
    rewrite Hfirst. exact Hgone.
  - unfold second. rewrite (onresponse_call_run _ _ _ _ nameMap' Hon1). simpl.
    rewrite Hblock, (set_onresponse_same _ _ Hon1), Hloop.
    rewrite goodbye_loop_idle by (rewrite Hfirst; exact Hgone).
    simpl. rewrite app_nil_r. apply wildcard_block_queries.
Qed.

(** C2 (amended). A browser whose known services are one per
    fully-qualified name handles a packet that holds a PTR record with
    ttl 0, named as a tracked name, whose data is the fully-qualified name
    of a known service [s], and that yields no candidate of that name (it
    does not announce the service again).
    Afterwards no known service has that name and exactly one [down] event
    for that name was emitted, the one of [s].  Handling the packet again
    emits no [down] event for that name and leaves no service of that name
    known; when the packet announces nothing at all (no PTR record with a
    positive ttl), handling it again changes nothing in the browser and
    emits no event. *)
Theorem goodbye_removes_known_service
    packet rinfo t t' b nameMap name rr F s :
  onresponse b = Some nameMap ->
  one_per_fqdn (_services b) ->
  In name (JsObject.keys nameMap) ->
  In rr (all_records packet) -> RR.data rr = RR.PTR F -> RR.ttl rr = 0 ->
  dnsEqual (RR.name rr) name = true ->
  In s (_services b) -> dnsEqual (Service.fqdn s) F = true ->
  (forall n t0 c, In c (buildServicesFor n packet rinfo t0) ->
                  dnsEqual (Service.fqdn c) F = false) ->
  let first := onresponse_call packet rinfo t b in
  let second := onresponse_call packet rinfo t' (fst first) in
  (forall x, In x (_services (fst first)) ->
             dnsEqual (Service.fqdn x) F = false) /\
  List.filter (down_for F) (events (snd first)) = [Down s] /\
  (forall x, In x (_services (fst second)) ->
             dnsEqual (Service.fqdn x) F = false) /\
  List.filter (down_for F) (events (snd second)) = [] /\
  ((forall r, In r (all_records packet) -> RR.is_PTR r = true ->
              RR.ttl r <= 0) ->
   fst second = fst first /\ events (snd second) = []).
Proof.
  intros Hon Huniq Hname Hrr Hdata Httl Hdns Hs HsF Hcand first second.
  assert (HF : In F (goodbyes name packet))
    by (apply In_goodbyes; exists rr; auto).
  destruct (onresponse_call_removes F packet rinfo t name nameMap s b
              Hcand Hon Hname HF Huniq Hs HsF) as (U1 & H1 & E1).
  fold first in U1, H1, E1.
  destruct (spares_onresponse_call F packet rinfo t' Hcand (fst first) U1)
    as (_ & A2 & _).
  destruct (A2 H1) as [H2 E2]. fold second in H2, E2.
  split; [exact H1|]. split; [exact E1|]. split; [exact H2|].
  split; [exact E2|].
  intros Hquiet. now apply (quiet_packet_again packet rinfo t t' b nameMap).
Qed.

(** ** A TXT change and the filter *)

Lemma replace_unique c l x i :
  one_per_fqdn l ->
  find_index (same_fqdn (Service.fqdn c)) l = Some (x, i) ->
  List.map (fun s => if negb (same_fqdn (Service.fqdn c) s) then s else c) l
  = <[i := c]> l.
Proof.
  intros H Hfind.
  pose proof (splice1_unique _ _ _ _ H Hfind) as [_ Hone].
  apply find_index_Some in Hfind. destruct Hfind as (Hi & Hx & _).
  apply list_eq. intros j.
  destruct (l !! j) as [y|] eqn:Hj.
  - rewrite (replace_lookup c l j y Hj).
    destruct (decide (i = j)) as [<-|Hne].
    + rewrite list_lookup_insert_eq by exact (lookup_lt_Some _ _ _ Hi).
      assert (y = x) as -> by congruence. now rewrite Hx.
    + rewrite list_lookup_insert_ne by exact Hne. rewrite Hj.
      destruct (same_fqdn (Service.fqdn c) y) eqn:Ey; [|reflexivity].
      exfalso. apply Hne.
      apply (H i j x y Hi Hj). unfold same_fqdn in *.
      apply (dnsEqual_trans _ (Service.fqdn c)); [exact Hx|].
      now rewrite dnsEqual_sym.
  - rewrite (proj2 (lookup_ge_None _ _)).
    + destruct (decide (i = j)) as [<-|Hne]; [congruence|].
      now rewrite list_lookup_insert_ne, Hj.
    + rewrite length_map. now apply lookup_ge_None.
Qed.

(** C4. When the TXT content of a candidate differs from that of the known
    service and the browser holds one service per name: if the candidate
    fails the attribute filter, [updateServiceTxt] takes the stored entry
    out of the list, so that no service of that name stays, and its only
    effect is the [down] event of that entry (no [txt-update]); if it passes,
    the candidate takes the place of the stored entry and the only effect is
    a [txt-update] event with the candidate and the previous service. *)
Theorem txt_update_respects_filter existing service b x i :
  one_per_fqdn (_services b) ->
  find_index (same_fqdn (Service.fqdn service)) (_services b) = Some (x, i) ->
  equalTxt (Service.txt service) (txt_or_empty existing) = false ->
  let result := updateServiceTxt existing service b in
  (filterService service (txtQuery b) = false ->
   _services (fst result) = splice1 i (_services b) /\
   (forall y, In y (_services (fst result)) ->
              dnsEqual (Service.fqdn y) (Service.fqdn service) = false) /\
   snd result = [Emit (Down x)]) /\
  (filterService service (txtQuery b) = true ->
   _services (fst result) = <[i := service]> (_services b) /\
   snd result = [Emit (TxtUpdate service existing)]).
Proof.
  intros Huniq Hfind Hdiff result. unfold result, updateServiceTxt.
  rewrite Hdiff. split; intros Hf; rewrite Hf; simpl.
  - unfold removeService. rewrite Hfind. simpl.
    split; [reflexivity|]. split; [|reflexivity].
    destruct (splice1_unique _ _ _ _ Huniq Hfind) as [E _]. rewrite E.
    intros y Hy. apply filter_In in Hy. destruct Hy as [_ Hy].
    now apply negb_true_iff in Hy.
  - split; [|reflexivity].
    now apply (replace_unique service _ x i).
Qed.

(** ** A goodbye and an announcement in one packet *)






End DnsEquivalence.

(** ** Candidates and SRV records *)

(** C6. Every candidate that [buildServicesFor] returns for a tracked name
    comes from a live PTR record for that name and a live SRV record of the
    packet whose name is DNS-equal to the PTR data; its fully-qualified
    name, host and port are those of the SRV record and its name is the
    first label of the SRV record's name.  A packet without a live SRV
    record yields no candidate, whatever PTR or TXT records it holds.
    Hence every service a browser ever knows has these fields populated
    from an SRV record. *)
Theorem candidates_need_srv name packet referer t :
  (forall s, In s (buildServicesFor name packet referer t) ->
     exists ptr pdata srv,
       In ptr (all_records packet) /\ RR.data ptr = RR.PTR pdata /\
       0 < RR.ttl ptr /\ dnsEqual (RR.name ptr) name = true /\
       In srv (all_records packet) /\ 0 < RR.ttl srv /\
       dnsEqual (RR.name srv) pdata = true /\ populated_from srv s) /\
  ((forall r, In r (all_records packet) -> 0 < RR.ttl r ->
              RR.is_SRV r = false) ->
   buildServicesFor name packet referer t = []) /\
  (forall b, reachable b ->
     forall s, In s (_services b) -> exists srv, populated_from srv s).
Proof.
  split; [intros s; apply buildServicesFor_spec|]. split.
  - intros Hno.
    destruct (buildServicesFor name packet referer t) as [|s l] eqn:E;
      [reflexivity|].
    assert (Hs : In s (buildServicesFor name packet referer t))
      by (rewrite E; now left).
    apply buildServicesFor_spec in Hs.
    destruct Hs as (ptr & pdata & srv & _ & _ & _ & _ & Hsrv & Httl & _ & Hp).
    destruct Hp as (tg & pt & Hd & _).
    specialize (Hno srv Hsrv Httl). unfold RR.is_SRV in Hno.
    rewrite Hd in Hno. discriminate.
  - intros b Hb.
    assert (H : Forall (fun s => exists srv, populated_from srv s)
                       (_services b)).
    { revert b Hb.
      apply (reachable_inv
               (Forall (fun s => exists srv, populated_from srv s))
               (fun s => exists srv, populated_from srv s)).
      - constructor.
      - intros i l H. apply Forall_forall. intros x Hx.
        rewrite Forall_forall in H. apply H.
        eapply sublist_subseteq; [apply splice1_sublist | exact Hx].
      - intros p l H. apply Forall_forall. intros x Hx.
        rewrite Forall_forall in H. apply H.
        eapply sublist_subseteq; [apply filter_sublist | exact Hx].
      - intros c l H Hc _. apply Forall_app. split; [exact H|].
        constructor; [exact Hc | constructor].
      - intros c l H Hc. apply Forall_forall. intros x Hx.
        apply list_elem_of_In, in_map_iff in Hx.
        destruct Hx as (y & <- & Hy). destruct (negb _); [|exact Hc].
        rewrite Forall_forall in H. apply H. now apply list_elem_of_In.
      - intros v x i l H Hx. apply Forall_insert; [exact H|].
        exact (Forall_lookup_1 _ _ _ _ H Hx).
      - intros n p r t0 s Hs. apply buildServicesFor_spec in Hs.
        destruct Hs as (_ & _ & srv & _ & _ & _ & _ & _ & _ & _ & Hp).
        now exists srv. }
    intros s Hs. rewrite Forall_forall in H. apply H.
    now apply list_elem_of_In.
Qed.

(** ** Construction *)

(** What [start] does on a browser that is not listening. *)
Lemma start_run n w q l :
  start (mkBrowser (Some n) w q None JsObject.empty [] l) =
  (mkBrowser (Some n) w q
     (Some (if w then JsObject.empty else JsObject.set n JsObject.empty))
     JsObject.empty [] l,
   [MdnsOn; MdnsQuery (Some n)]).
Proof. now destruct w. Qed.

(** C10. The constructor leaves the browser listening, without a call of
    [start] by the caller.  The name it derives from its arguments is the
    meta-name, in wildcard mode, when [opts] is [null], a callback or a
    configuration without [type]; and otherwise, in direct mode, the type
    and protocol (tcp when none is given) in DNS form followed by
    [.local], preceded by the instance name and a dot when a non-empty
    [name] is configured.  The constructor has installed the response
    handler ([nameMap] empty in wildcard mode, holding the derived name
    otherwise), registered it with the record source and sent the PTR query
    for the derived name, in that order and nothing else; no service is
    known yet; a call of [start] on the new browser changes nothing and has
    no effect. *)
Theorem constructor_starts_discovery opts onup :
  let result := constructor opts onup in
  let b := fst result in
  let derived :=
    match opts with
    | OptsConfig c =>
        match BrowserConfig.type c with
        | Some type =>
            let base :=
              ServiceToString
                (mkServiceType (Some type)
                   (Some (protocol_string
                            (default tcp (BrowserConfig.protocol c))))
                   None) +:+ TLD in
            (match BrowserConfig.name c with
             | Some instance =>
                 if String.eqb instance "" then base
                 else instance +:+ "." +:+ base
             | None => base
             end, false)
        | None => (WILDCARD, true)
        end
    | _ => (WILDCARD, true)
    end in
  name b = Some (fst derived) /\
  wildcard b = snd derived /\
  onresponse b =
    Some (if snd derived then JsObject.empty
          else JsObject.set (fst derived) JsObject.empty) /\
  snd result = [MdnsOn; MdnsQuery (Some (fst derived))] /\
  _services b = [] /\
  start b = (b, []).
Proof.
  assert (H : forall n w q l,
    let r := start (mkBrowser (Some n) w q None JsObject.empty [] l) in
    name (fst r) = Some n /\ wildcard (fst r) = w /\
    onresponse (fst r) =
      Some (if w then JsObject.empty else JsObject.set n JsObject.empty) /\
    snd r = [MdnsOn; MdnsQuery (Some n)] /\
    _services (fst r) = [] /\
    start (fst r) = (fst r, [])).
  { intros n w q l. cbv zeta. rewrite start_run. cbn [fst snd].
    repeat split. }
  destruct opts as [|f|[[ty|] [nm|] pr st tx]]; try apply H.
  cbv zeta. unfold constructor, construct, Str.truthy.
  cbn [BrowserConfig.type BrowserConfig.name BrowserConfig.protocol].
  destruct (String.eqb nm ""); apply H.
Qed.

(** ** Queries in wildcard mode *)

Lemma onresponse_call_after packet rinfo t b nameMap :
  onresponse b = Some nameMap ->
  let b' := fst (onresponse_call packet rinfo t b) in
  name b' = name b /\ wildcard b' = wildcard b /\
  onresponse b' = Some (fst (wildcard_block b packet nameMap)) /\
  queries (snd (onresponse_call packet rinfo t b)) =
    queries (snd (wildcard_block b packet nameMap)).
Proof.
  intros H. rewrite (onresponse_call_run _ _ _ _ _ H). simpl.
  set (nameMap' := fst (wildcard_block b packet nameMap)).
  pose proof (forEach_settings (process_name packet rinfo t)
                (JsObject.keys nameMap')
                (fun n b0 => process_name_settings packet rinfo t n b0)
                (set_onresponse (Some nameMap') b)) as (H1 & H2 & _ & H4).
  repeat split; try assumption.
  rewrite queries_app, (queries_emits (snd (forEach _ _ _))).
  - apply app_nil_r.
  - apply forEach_emits. intros n b0. apply process_name_emits.
Qed.

(** C1 (the code at the failing input). A wildcard browser that receives
    the meta-PTR record of one service type in two packets tracks the type
    once, but sends the secondary PTR query for it on both packets; it also
    sends it twice for a packet that repeats the record. *)
Theorem wildcard_type_queried_for_every_packet rinfo t1 t2 t3 :
  let meta := RR.mk WILDCARD 120 (RR.PTR "_http._tcp.local") in
  let b := fst (constructor OptsNull None) in
  let first := onresponse_call (mkPacket [meta] []) rinfo t1 b in
  let second := onresponse_call (mkPacket [meta] []) rinfo t2 (fst first) in
  let repeated := onresponse_call (mkPacket [meta; meta] []) rinfo t3 b in
  queries (snd first) = [Some "_http._tcp.local"] /\
  queries (snd second) = [Some "_http._tcp.local"] /\
  onresponse (fst second) = Some ["_http._tcp.local"] /\
  queries (snd repeated) = [Some "_http._tcp.local"; Some "_http._tcp.local"] /\
  onresponse (fst repeated) = Some ["_http._tcp.local"].
Proof.
  intros meta b first second repeated.
  pose (packet := mkPacket [meta] []).
  change (mkPacket [meta] []) with packet in first, second.
  assert (Hb : onresponse b = Some []) by reflexivity.
  destruct (onresponse_call_after packet rinfo t1 b [] Hb)
    as (Hn & Hw & Hon & Hq).
  fold first in Hn, Hw, Hon, Hq.
  assert (Hblock : wildcard_block b packet [] =
                   (["_http._tcp.local"], [MdnsQuery (Some "_http._tcp.local")]))
    by reflexivity.
  rewrite Hblock in Hon, Hq. simpl in Hon, Hq.
  destruct (onresponse_call_after packet rinfo t2 (fst first) _ Hon)
    as (_ & _ & Hon2 & Hq2).
  fold second in Hon2, Hq2.
  assert (Hblock2 : wildcard_block (fst first) packet ["_http._tcp.local"] =
                    (["_http._tcp.local"],
                     [MdnsQuery (Some "_http._tcp.local")])).
  { unfold wildcard_block. rewrite Hn, Hw. reflexivity. }
  rewrite Hblock2 in Hon2, Hq2.
  destruct (onresponse_call_after (mkPacket [meta; meta] []) rinfo t3 b [] Hb)
    as (_ & _ & Hon3 & Hq3).
  fold repeated in Hon3, Hq3.
  assert (Hblock3 : wildcard_block b (mkPacket [meta; meta] []) [] =
                    (["_http._tcp.local"],
                     [MdnsQuery (Some "_http._tcp.local");
                      MdnsQuery (Some "_http._tcp.local")]))
    by reflexivity.
  rewrite Hblock3 in Hon3, Hq3. auto.
Qed.

End BrowserProperties.

(** * Further properties of the browser *)

Section FurtherProperties.

Context {helpers : Helpers}.

(** ** expire, again *)

Lemma expired_earlier t t' s : t' <= t -> expired t' s = true -> expired t s = true.
Proof.
  intros Hle. rewrite !expired_iff. intros (ttl & H1 & H2 & H3).
  exists ttl. repeat split; try assumption. lia.
Qed.

Lemma set_services_same b : set_services (_services b) b = b.
Proof. now destruct b. Qed.

(** X1. After [expire] at a time [t], a further [expire] at [t] or at any
    earlier time removes nothing and emits nothing: the browser is left as
    it is. *)
Theorem expire_again_is_idle (t t' : Z) (b : Browser) :
  t' <= t ->
  expire t' (fst (expire t b)) = (fst (expire t b), []).
Proof.
  intros Hle. unfold expire at 1. rewrite expire_filter_spec.
  assert (H : Forall (fun s => expired t' s = false)
                     (_services (fst (expire t b)))).
  { unfold expire. rewrite expire_filter_spec. simpl.
    apply Forall_forall. intros s Hs.
    apply list_elem_of_In, filter_In in Hs. destruct Hs as [_ Hs].
    apply negb_true_iff in Hs.
    destruct (expired t' s) eqn:E; [|reflexivity].
    now rewrite (expired_earlier t t' s Hle E) in Hs. }
  destruct (filter_none _ _ H) as [E1 E2].
  rewrite E1, E2. simpl. now rewrite set_services_same.
Qed.

(** ** stop and start *)

(** X2. [stop] on a listening browser unregisters the handler and nothing
    else: the known services stay, and a second [stop] does nothing.  A
    [start] after it registers a handler again and repeats the PTR query,
    with a new [nameMap]: in wildcard mode the service types learnt before
    the [stop] are no longer tracked. *)
Theorem stop_then_start b nameMap n :
  onresponse b = Some nameMap -> name b = Some n ->
  let stopped := fst (stop b) in
  let started := fst (start stopped) in
  snd (stop b) = [MdnsRemoveListener] /\
  stopped = set_onresponse None b /\
  stop stopped = (stopped, []) /\
  snd (start stopped) = [MdnsOn; MdnsQuery (Some n)] /\
  started =
    set_onresponse
      (Some (if wildcard b then JsObject.empty
             else JsObject.set n JsObject.empty)) b /\
  _services started = _services b.
Proof.
  intros Hon Hn stopped started. unfold started, stopped, stop, start.
  rewrite Hon. simpl. rewrite Hn. simpl.
  repeat split; try (now destruct (wildcard b)). now rewrite Hn.
Qed.

(** ** What no call changes *)

Lemma removeService_config fqdn b : config (fst (removeService fqdn b)) = config b.
Proof. unfold removeService. now destruct (find_index _ _) as [[s i]|]. Qed.

Lemma updateServiceSrv_config old c b :
  config (fst (updateServiceSrv old c b)) = config b.
Proof. unfold updateServiceSrv. now destruct (srv_changed old c). Qed.

Lemma updateServiceTxt_config old c b :
  config (fst (updateServiceTxt old c b)) = config b.
Proof.
  unfold updateServiceTxt. destruct (equalTxt _ _); [reflexivity|].
  destruct (negb _); [apply removeService_config | reflexivity].
Qed.

Lemma match_service_config c b : config (fst (match_service c b)) = config b.
Proof.
  unfold match_service. destruct (find_index _ _) as [[old i]|].
  - rewrite seq_run. simpl.
    now rewrite updateServiceTxt_config, updateServiceSrv_config.
  - unfold addService. now destruct (negb _).
Qed.

Lemma forEach_config {X : Type} (f : X -> Cmd) xs :
  (forall x b, config (fst (f x b)) = config b) ->
  forall b, config (fst (forEach f xs b)) = config b.
Proof.
  intros Hf b. apply (forEach_state (fun b' => config b' = config b)).
  - intros x b' _ H. now rewrite Hf.
  - reflexivity.
Qed.

Lemma process_name_config packet rinfo t name b :
  config (fst (process_name packet rinfo t name b)) = config b.
Proof.
  unfold process_name. rewrite seq_run. simpl.
  rewrite (forEach_config match_service _ match_service_config).
  apply forEach_config, removeService_config.
Qed.

Lemma onresponse_call_config packet rinfo t b :
  config (fst (onresponse_call packet rinfo t b)) = config b.
Proof.
  destruct (onresponse b) as [nameMap|] eqn:Hon.
  - rewrite (onresponse_call_run _ _ _ _ _ Hon). simpl.
    now rewrite (forEach_config _ _ (process_name_config packet rinfo t)).
  - unfold onresponse_call. now rewrite Hon.
Qed.

Lemma call_config c b : config (fst (call c b)) = config b.
Proof.
  destruct c; simpl.
  - unfold start. now destruct (onresponse b), (name b).
  - unfold stop. now destruct (onresponse b).
  - reflexivity.
  - unfold expire. now destruct (expire_filter _ _).
  - apply onresponse_call_config.
Qed.

(** X3. No call on a browser changes what the constructor set up: the query
    name, the mode, the TXT query and the [up] listeners are the same after
    start, stop, update, expire and the handling of any packet. *)
Theorem calls_keep_configuration (c : Call) (b : Browser) :
  let b' := fst (call c b) in
  name b' = name b /\ wildcard b' = wildcard b /\
  txtQuery b' = txtQuery b /\ up_listeners b' = up_listeners b.
Proof.
  pose proof (call_config c b) as H.
  unfold config in H. simpl. now injection H.
Qed.

(** ** What the handler tracks and queries *)

Lemma wildcard_answer_sound selfname acc a :
  let acc' := wildcard_answer selfname acc a in
  (forall k, In k (fst acc') ->
     In k (fst acc) \/ meta_data selfname a = Some k) /\
  (forall e, In e (snd acc') ->
     In e (snd acc) \/
     exists d, meta_data selfname a = Some d /\ e = MdnsQuery (Some d)).
Proof.
  destruct (wildcard_answer_cases selfname acc a)
    as [[_ E] | (n & d & _ & Hd & E)]; simpl.
  - rewrite E. auto.
  - revert E. destruct (JsObject.has n _); cbv iota; intros ->; [auto|].
    simpl. split.
    + intros k Hk. unfold JsObject.set in Hk.
      destruct (String.eqb d "__proto__"); [auto|].
      destruct (JsObject.mem d (fst acc)); [auto|].
      apply in_app_or in Hk. destruct Hk as [Hk|[<-|[]]]; auto.
    + intros e He. apply in_app_or in He. destruct He as [He|[<-|[]]]; eauto.
Qed.

Lemma wildcard_fold_sound selfname answers acc :
  let acc' := fold_left (wildcard_answer selfname) answers acc in
  (forall k, In k (fst acc') ->
     In k (fst acc) \/
     exists a, In a answers /\ meta_data selfname a = Some k) /\
  (forall e, In e (snd acc') ->
     In e (snd acc) \/
     exists a d, In a answers /\ meta_data selfname a = Some d /\
                 e = MdnsQuery (Some d)).
Proof.
  revert acc. induction answers as [|a answers IH]; intros acc; simpl.
  - auto.
  - destruct (IH (wildcard_answer selfname acc a)) as [IH1 IH2].
    destruct (wildcard_answer_sound selfname acc a) as [S1 S2].
    split.
    + intros k Hk. destruct (IH1 k Hk) as [H|(a' & Ha' & H)].
      * destruct (S1 k H) as [H'|H']; [auto|]. right. exists a. auto.
      * right. exists a'. auto.
    + intros e He. destruct (IH2 e He) as [H|(a' & d & Ha' & H)].
      * destruct (S2 e H) as [H'|(d & H1 & H2)]; [auto|].
        right. exists a, d. auto.
      * right. exists a', d. tauto.
Qed.

(** X4. Handling a packet never drops a tracked name.  In direct mode it
    leaves the tracked names as they are and calls nothing on the mdns
    object.  In wildcard mode every name it starts to track and every query
    it sends is the data of a PTR record of the packet's answers section
    that is named as the browser's query name: records in the additionals
    section are never tracked or queried. *)
Theorem handler_tracks_only_meta_answers packet rinfo t b nameMap :
  onresponse b = Some nameMap ->
  let result := onresponse_call packet rinfo t b in
  exists nameMap',
    onresponse (fst result) = Some nameMap' /\
    (forall k, In k nameMap -> In k nameMap') /\
    (wildcard b = false -> nameMap' = nameMap /\ Forall is_emit (snd result)) /\
    (forall k, In k nameMap' ->
       In k nameMap \/
       exists a, In a (answers packet) /\ meta_data (name b) a = Some k) /\
    (forall e, In e (snd result) ->
       is_emit e \/
       exists a d, In a (answers packet) /\ meta_data (name b) a = Some d /\
                   e = MdnsQuery (Some d)).
Proof.
  intros Hon result. unfold result.
  rewrite (onresponse_call_run _ _ _ _ _ Hon). simpl.
  set (block := wildcard_block b packet nameMap).
  set (loop := forEach _ _ _).
  assert (Hloop : Forall is_emit (snd loop)).
  { apply forEach_emits. intros n b0. apply process_name_emits. }
  assert (Hset : same_settings (set_onresponse (Some (fst block)) b) (fst loop)).
  { apply forEach_settings. intros n b0. apply process_name_settings. }
  exists (fst block). split; [apply Hset|]. split.
  { intros k. apply wildcard_block_grows. }
  assert (Hsound :
    (forall k, In k (fst block) ->
       In k nameMap \/
       exists a, In a (answers packet) /\ meta_data (name b) a = Some k) /\
    (forall e, In e (snd block) ->
       exists a d, In a (answers packet) /\ meta_data (name b) a = Some d /\
                   e = MdnsQuery (Some d))).
  { unfold block, wildcard_block. destruct (wildcard b).
    - destruct (wildcard_fold_sound (name b) (answers packet) (nameMap, []))
        as [S1 S2].
      split; [exact S1|]. intros e He. destruct (S2 e He) as [[]|H]. exact H.
    - simpl. split; [auto | intros e []]. }
  destruct Hsound as [S1 S2]. split; [|split; [exact S1|]].
  - intros Hw. unfold block, wildcard_block. rewrite Hw. simpl.
    split; [reflexivity | exact Hloop].
  - intros e He. apply in_app_or in He. destruct He as [He|He].
    + right. now apply S2.
    + left. rewrite Forall_forall in Hloop. apply Hloop.
      now apply list_elem_of_In.
Qed.

(** X5. Once the browser's own query name is a key of [nameMap] (a PTR
    answer of that name whose data is the name itself puts it there), the
    guard of the wildcard block stays closed: no packet makes the browser
    track another name or send a query. *)
Theorem wildcard_guard_closes packet rinfo t b nameMap n :
  onresponse b = Some nameMap -> name b = Some n ->
  JsObject.has n nameMap = true ->
  let result := onresponse_call packet rinfo t b in
  onresponse (fst result) = Some nameMap /\ queries (snd result) = [].
Proof.
  intros Hon Hn Hhas result.
  destruct (onresponse_call_after packet rinfo t b nameMap Hon)
    as (_ & _ & H1 & H2).
  fold result in H1, H2.
  assert (E : wildcard_block b packet nameMap = (nameMap, [])).
  { unfold wildcard_block. destruct (wildcard b); [|reflexivity].
    now apply (wildcard_fold_skip (name b) n). }
  rewrite E in H1, H2. auto.
Qed.

(** ** Packets that do not concern the tracked names *)

Lemma forEach_idle {X : Type} (f : X -> Cmd) xs b :
  (forall x, In x xs -> f x b = (b, [])) -> forEach f xs b = (b, []).
Proof.
  induction xs as [|x xs IH]; intros H; [reflexivity|].
  rewrite forEach_cons, (H x (or_introl eq_refl)). simpl.
  now rewrite IH by (intros y Hy; apply H; now right).
Qed.

(** X6. A browser in direct mode ignores a packet none of whose PTR
    records is named (up to DNS equality) as a tracked name: SRV, TXT, A and
    AAAA records alone, and PTR records of other names, change nothing and
    have no effect. *)
Theorem unrelated_packet_is_ignored packet rinfo t b nameMap :
  onresponse b = Some nameMap -> wildcard b = false ->
  (forall rr n, In rr (all_records packet) -> In n (JsObject.keys nameMap) ->
                RR.is_PTR rr = true -> dnsEqual (RR.name rr) n = false) ->
  onresponse_call packet rinfo t b = (b, []).
Proof.
  intros Hon Hw Hnone.
  rewrite (onresponse_call_run _ _ _ _ _ Hon).
  unfold wildcard_block. rewrite Hw. simpl.
  rewrite (set_onresponse_same _ _ Hon).
  rewrite forEach_idle; [reflexivity|].
  intros n Hn. unfold process_name.
  assert (Hg : goodbyes n packet = []).
  { unfold goodbyes.
    assert (Hf : Forall (fun rr => is_goodbye n rr = false)
                        (all_records packet)); [|
      now rewrite (proj1 (filter_none _ _ Hf))].
    apply Forall_forall. intros rr Hrr. apply list_elem_of_In in Hrr.
    unfold is_goodbye. destruct (RR.is_PTR rr) eqn:E; [|reflexivity].
    rewrite (Hnone rr n Hrr Hn E). apply andb_false_r. }
  assert (Hc : buildServicesFor n packet rinfo t = []).
  { unfold buildServicesFor.
    assert (Hf : Forall (fun rr => is_ptr_for n rr = false)
                        (live_records packet)); [|
      now rewrite (proj1 (filter_none _ _ Hf))].
    apply Forall_forall. intros rr Hrr.
    apply list_elem_of_In, In_live_records in Hrr. destruct Hrr as [Hrr _].
    unfold is_ptr_for. destruct (RR.is_PTR rr) eqn:E; [|reflexivity].
    now rewrite (Hnone rr n Hrr Hn E). }
  now rewrite Hg, Hc.
Qed.

(** ** The query name and the tracked names of a browser *)

Lemma append_assoc (a b c : string) : (a +:+ b) +:+ c = a +:+ b +:+ c.
Proof.
  induction a as [|x a IH]; [reflexivity|].
  change (String x ((a +:+ b) +:+ c) = String x (a +:+ b +:+ c)).
  now rewrite IH.
Qed.

Lemma length_append (a b : string) :
  String.length (a +:+ b) = (String.length a + String.length b)%nat.
Proof.
  induction a as [|x a IH]; [reflexivity|].
  change (S (String.length (a +:+ b))
          = S (String.length a + String.length b)).
  now rewrite IH.
Qed.

Lemma local_name_not_proto (pre : string) : pre +:+ TLD <> "__proto__".
Proof.
  intros H. assert (L := f_equal String.length H).
  rewrite length_append in L. simpl in L.
  destruct pre as [|a [|b [|c [|d pre]]]]; simpl in L; try lia.
  simpl in H. discriminate.
Qed.

Lemma keys_singleton (n : string) : JsObject.keys [n] = [n].
Proof.
  unfold JsObject.keys, JsObject.index_keys, JsObject.is_index. simpl.
  now destruct (JsObject.array_index n).
Qed.

Lemma construct_name opts onup :
  let b := fst (construct opts onup) in
  exists pre,
    name b = Some (pre +:+ TLD) /\
    (wildcard b = true -> pre +:+ TLD = WILDCARD) /\
    onresponse b =
      Some (if wildcard b then JsObject.empty
            else JsObject.set (pre +:+ TLD) JsObject.empty).
Proof.
  destruct opts as [[[ty|] nm pr st tx]|]; simpl;
    try (exists "_services._dns-sd._udp"; now auto).
  destruct nm as [nm|]; simpl.
  - destruct (Str.truthy nm); simpl.
    + eexists. rewrite <- !append_assoc. split; [reflexivity|].
      split; [discriminate | reflexivity].
    + eexists. split; [reflexivity|]. split; [discriminate | reflexivity].
  - eexists. split; [reflexivity|]. split; [discriminate | reflexivity].
Qed.

(** The statement of the invariant below, for one state. *)
Lemma reachable_names b :
  reachable b ->
  exists pre,
    name b = Some (pre +:+ TLD) /\
    (wildcard b = true -> pre +:+ TLD = WILDCARD) /\
    (wildcard b = false ->
     forall nameMap, onresponse b = Some nameMap -> nameMap = [pre +:+ TLD]).
Proof.
  induction 1 as [opts onup | b c _ (pre & Hn & Hw & Hd)].
  - assert (H : forall o u,
      let b := fst (construct o u) in
      exists pre, name b = Some (pre +:+ TLD) /\
        (wildcard b = true -> pre +:+ TLD = WILDCARD) /\
        (wildcard b = false -> forall nameMap,
           onresponse b = Some nameMap -> nameMap = [pre +:+ TLD])).
    { intros o u. destruct (construct_name o u) as (pre & H1 & H2 & H3).
      exists pre. split; [exact H1|]. split; [exact H2|].
      intros Hf nm Hnm. simpl in *. rewrite H3, Hf in Hnm.
      injection Hnm as <-. unfold JsObject.set.
      destruct (String.eqb (pre +:+ TLD) "__proto__") eqn:E; [|reflexivity].
      apply String.eqb_eq in E. now apply local_name_not_proto in E. }
    unfold constructor. destruct opts; apply H.
  - pose proof (call_config c b) as Hc. unfold config in Hc.
    injection Hc as Hc1 Hc2 _ _.
    exists pre. rewrite Hc1, Hc2. split; [exact Hn|]. split; [exact Hw|].
    intros Hf nm Hnm. specialize (Hd Hf).
    assert (Hset : JsObject.set (pre +:+ TLD) JsObject.empty = [pre +:+ TLD]).
    { unfold JsObject.set.
      destruct (String.eqb (pre +:+ TLD) "__proto__") eqn:E; [|reflexivity].
      apply String.eqb_eq in E. now apply local_name_not_proto in E. }
    destruct c; simpl in Hnm.
    + unfold start in Hnm. destruct (onresponse b) as [nm0|] eqn:Hon.
      * simpl in Hnm. rewrite Hon in Hnm. now apply Hd.
      * rewrite Hn in Hnm. simpl in Hnm. rewrite Hf in Hnm. simpl in Hnm.
        injection Hnm as <-. exact Hset.
    + unfold stop in Hnm. destruct (onresponse b) as [nm0|] eqn:Hon;
        simpl in Hnm; [discriminate | congruence].
    + exact (Hd nm Hnm).
    + unfold expire in Hnm. destruct (expire_filter _ _). exact (Hd nm Hnm).
    + destruct (onresponse b) as [nm0|] eqn:Hon.
      * destruct (onresponse_call_after packet rinfo receiveTime b nm0 Hon)
          as (_ & _ & H1 & _).
        rewrite H1 in Hnm. unfold wildcard_block in Hnm. rewrite Hf in Hnm.
        simpl in Hnm. injection Hnm as <-. now apply Hd.
      * unfold onresponse_call in Hnm. rewrite Hon in Hnm. simpl in Hnm.
        congruence.
Qed.

(** X7. In every state a browser can reach, the query name is set and ends
    in [.local], so that [start] on a stopped browser always resumes
    listening; a wildcard browser's name is the meta-name; and a listening
    browser in direct mode tracks its own query name and nothing else,
    whatever packets it has handled. *)
Theorem reachable_browser_names b :
  reachable b ->
  exists n,
    name b = Some n /\
    (exists pre, n = pre +:+ TLD) /\
    (wildcard b = true -> n = WILDCARD) /\
    (wildcard b = false ->
     forall nameMap, onresponse b = Some nameMap ->
                     JsObject.keys nameMap = [n]) /\
    (onresponse b = None ->
     exists nameMap, onresponse (fst (start b)) = Some nameMap).
Proof.
  intros Hb. destruct (reachable_names b Hb) as (pre & Hn & Hw & Hd).
  exists (pre +:+ TLD). split; [exact Hn|]. split; [now exists pre|].
  split; [exact Hw|]. split.
  - intros Hf nm Hnm. rewrite (Hd Hf nm Hnm). apply keys_singleton.
  - intros Hoff. unfold start. rewrite Hoff, Hn. simpl. eauto.
Qed.

(** ** New services *)




(** ** A repeated announcement *)

(** X9. A candidate for a known service with the same SRV-derived fields
    and the same TXT content only refreshes [lastSeen]: nothing is emitted
    and the stored entry keeps everything else, its ttl included, whatever
    the ttl, subtypes and origin of the new packet.  The entry then lapses
    by its stored ttl counted from the new [lastSeen]. *)
Theorem repeated_announcement_refreshes_lastSeen old i c b :
  find_index (same_fqdn (Service.fqdn c)) (_services b) = Some (old, i) ->
  srv_changed old c = false ->
  equalTxt (Service.txt c) (txt_or_empty old) = true ->
  let old' := Service.set_lastSeen (Service.lastSeen c) old in
  match_service c b = (set_services (<[i := old']> (_services b)) b, []) /\
  Service.ttl old' = Service.ttl old /\
  Service.subtypes old' = Service.subtypes old /\
  Service.referer old' = Service.referer old /\
  (forall now,
     expired now old' = true <->
     exists ttl, Service.ttl old = Some ttl /\ ttl <> 0 /\
                 Service.lastSeen c + ttl * 1000 < now).
Proof.
  intros Hfind Hsrv Htxt old'. split; [|split; [|split; [|split]]];
    try reflexivity.
  - unfold match_service. rewrite Hfind. fold old'.
    unfold updateServiceSrv, updateServiceTxt.
    change (srv_changed old' c) with (srv_changed old c).
    change (txt_or_empty old') with (txt_or_empty old).
    rewrite Hsrv, seq_run. simpl. now rewrite Htxt.
  - intros now. exact (expired_iff now old').
Qed.

(** ** Properties every known service has *)

(** A property of services that every candidate has and a change of
    [lastSeen] keeps holds of every known service. *)
Lemma reachable_Forall (P : Service.t -> Prop) :
  (forall v s, P s -> P (Service.set_lastSeen v s)) ->
  (forall name packet rinfo t s,
     In s (buildServicesFor name packet rinfo t) -> P s) ->
  forall b, reachable b -> Forall P (_services b).
Proof.
  intros Hset Hcand. apply (reachable_inv (Forall P) P).
  - constructor.
  - intros i l H. apply Forall_forall. intros x Hx.
    rewrite Forall_forall in H. apply H.
    eapply sublist_subseteq; [apply splice1_sublist | exact Hx].
  - intros p l H. apply Forall_forall. intros x Hx.
    rewrite Forall_forall in H. apply H.
    eapply sublist_subseteq; [apply filter_sublist | exact Hx].
  - intros c l H Hc _. apply Forall_app. split; [exact H|].
    constructor; [exact Hc | constructor].
  - intros c l H Hc. apply Forall_forall. intros x Hx.
    apply list_elem_of_In, in_map_iff in Hx.
    destruct Hx as (y & <- & Hy). destruct (negb _); [|exact Hc].
    rewrite Forall_forall in H. apply H. now apply list_elem_of_In.
  - intros v x i l H Hx. apply Forall_insert; [exact H|].
    apply Hset. exact (Forall_lookup_1 _ _ _ _ H Hx).
  - exact Hcand.
Qed.

Lemma srv_fold_referer referer rs acc f :
  fst (fold_left (srv_txt_step referer) rs acc) = Some f ->
  fst acc = Some f \/ f_referer f = referer.
Proof.
  revert acc. induction rs as [|r rs IH]; intros acc H; [now left|].
  simpl in H. apply IH in H. destruct H as [H|H]; [|now right].
  unfold srv_txt_step in H.
  destruct (RR.data r) as [d|tg pt|d|d|d|ty]; simpl in H; try (now left).
  right. now injection H as <-.
Qed.

Lemma candidate_fields records referer t ptr c :
  candidate records referer t ptr = Some c ->
  Service.ttl c = Some (RR.ttl ptr) /\ Service.lastSeen c = t /\
  Service.referer c = referer /\
  Service.addresses c =
    omap address_data (List.filter (is_address_of (Service.host c)) records).
Proof.
  unfold candidate.
  destruct (RR.data ptr) as [pdata| | | | |]; try discriminate.
  destruct (fold_left _ _ _) as [srv txt] eqn:Hfold.
  destruct srv as [f|]; [|discriminate].
  destruct (negb _); [discriminate|]. intros [= <-]. simpl.
  repeat split.
  assert (Hf : fst (fold_left (srv_txt_step referer)
                      (List.filter (is_srv_txt_of pdata) records)
                      (None, None)) = Some f) by now rewrite Hfold.
  apply srv_fold_referer in Hf. destruct Hf as [Hf|Hf]; [discriminate|exact Hf].
Qed.

Lemma buildServicesFor_fields name packet rinfo t c :
  In c (buildServicesFor name packet rinfo t) ->
  exists ptr,
    In ptr (all_records packet) /\ is_ptr_for name ptr = true /\
    0 < RR.ttl ptr /\ Service.ttl c = Some (RR.ttl ptr) /\
    Service.lastSeen c = t /\ Service.referer c = rinfo /\
    Service.addresses c =
      omap address_data
           (List.filter (is_address_of (Service.host c)) (live_records packet)).
Proof.
  unfold buildServicesFor. rewrite In_omap. intros (ptr & Hptr & Hc).
  apply filter_In in Hptr. destruct Hptr as [Hptr Hfor].
  apply In_live_records in Hptr. destruct Hptr as [Hptr Httl].
  apply candidate_fields in Hc. exists ptr. tauto.
Qed.



(** X11. The addresses of a candidate are the data of the packet's A and
    AAAA records with a positive ttl whose name is DNS-equal to the
    candidate's host, in the order of the packet, and nothing else; a packet
    without such a record gives a candidate without addresses. *)
Theorem candidate_addresses_come_from_the_packet name packet rinfo t c :
  In c (buildServicesFor name packet rinfo t) ->
  Service.addresses c =
    omap address_data
         (List.filter (is_address_of (Service.host c)) (live_records packet)) /\
  (forall a,
     In a (Service.addresses c) <->
     exists rr,
       In rr (all_records packet) /\ 0 < RR.ttl rr /\
       (RR.data rr = RR.A a \/ RR.data rr = RR.AAAA a) /\
       dnsEqual (RR.name rr) (Service.host c) = true).
Proof.
  intros Hc. apply buildServicesFor_fields in Hc.
  destruct Hc as (ptr & _ & _ & _ & _ & _ & _ & E).
  split; [exact E|]. intros a. rewrite E, In_omap. split.
  - intros (rr & Hrr & Ha). apply filter_In in Hrr. destruct Hrr as [Hrr Hm].
    apply In_live_records in Hrr. destruct Hrr as [Hrr Httl].
    exists rr. split; [exact Hrr|]. split; [exact Httl|].
    unfold is_address_of in Hm. apply andb_true_iff in Hm.
    destruct Hm as [_ Hm]. split; [|exact Hm].
    unfold address_data in Ha.
    destruct (RR.data rr); try discriminate; injection Ha as ->; auto.
  - intros (rr & Hrr & Httl & Hd & Hm). exists rr. split.
    + apply filter_In. split; [now apply In_live_records|].
      unfold is_address_of, RR.is_A, RR.is_AAAA. rewrite Hm.
      destruct Hd as [-> | ->]; reflexivity.
    + unfold address_data. destruct Hd as [-> | ->]; reflexivity.
Qed.

(** ** The name of a service *)

Lemma split_not_nil sep s : Str.split sep s <> [].
Proof.
  destruct s as [|c s]; simpl; [discriminate|].
  destruct (Ascii.eqb c sep); [discriminate|].
  destruct (Str.split sep s); discriminate.
Qed.

Lemma split_first sep s :
  let h := hd "" (Str.split sep s) in
  (s = h \/ exists rest, s = h +:+ String sep rest) /\
  Str.includes (String sep "") h = false.
Proof.
  induction s as [|c s [IH1 IH2]]; simpl.
  - split; [now left | reflexivity].
  - destruct (Ascii.eqb c sep) eqn:E; simpl.
    + apply Ascii.eqb_eq in E. subst c. split; [|reflexivity].
      right. now exists s.
    + destruct (Str.split sep s) as [|p ps] eqn:Es;
        [now apply split_not_nil in Es|].
      simpl in *. split.
      * destruct IH1 as [->|[rest ->]]; [now left|]. right. now exists rest.
      * destruct (ascii_dec sep c) as [->|_];
          [rewrite Ascii.eqb_refl in E; discriminate|].
        exact IH2.
Qed.

(** X12. The name of a candidate, and so of every service a browser knows,
    is the first label of its fully-qualified name: it is not empty, holds
    no dot, and the fully-qualified name is the name itself or the name
    followed by a dot and the rest.  An instance name with a dot in it is
    cut at that dot. *)
Theorem service_name_is_first_label :
  (forall name packet rinfo t c,
     In c (buildServicesFor name packet rinfo t) -> first_label c) /\
  (forall b, reachable b -> forall s, In s (_services b) -> first_label s).
Proof.
  assert (H : forall name packet rinfo t c,
            In c (buildServicesFor name packet rinfo t) -> first_label c).
  { intros n p r t c Hc. apply buildServicesFor_spec in Hc.
    destruct Hc as (_ & _ & srv & _ & _ & _ & _ & _ & _ & _ & Hp).
    destruct Hp as (tg & pt & _ & Hq & _ & _ & Hn & Hne).
    destruct (split_first "." (RR.name srv)) as [H1 H2].
    unfold first_label. rewrite Hq, Hn. rewrite Hn in Hne. auto. }
  split; [exact H|].
  intros b Hb s Hs.
  assert (HF : Forall first_label (_services b)).
  { apply reachable_Forall; [|exact H|exact Hb]. intros v x Hx. exact Hx. }
  rewrite Forall_forall in HF. apply HF. now apply list_elem_of_In.
Qed.

(** ** Types learnt in wildcard mode *)

Lemma has_set_other n d o :
  d <> n -> JsObject.has n (JsObject.set d o) = JsObject.has n o.
Proof.
  intros Hd. unfold JsObject.has, JsObject.set.
  destruct (String.eqb d "__proto__"); [reflexivity|].
  destruct (JsObject.mem d o); [reflexivity|].
  unfold JsObject.mem at 1. rewrite existsb_app. simpl.
  assert (E : String.eqb n d = false).
  { apply String.eqb_neq. congruence. }
  rewrite E. simpl. now rewrite orb_false_r.
Qed.

Lemma In_set_self d o : d <> "__proto__" -> In d (JsObject.set d o).
Proof.
  intros Hd. unfold JsObject.set.
  apply String.eqb_neq in Hd. rewrite Hd.
  destruct (JsObject.mem d o) eqn:E.
  - now apply mem_In.
  - apply in_or_app. right. now left.
Qed.

Lemma wildcard_answer_sent selfname e acc a :
  In e (snd acc) -> In e (snd (wildcard_answer selfname acc a)).
Proof.
  intros H. unfold wildcard_answer. destruct (RR.data a); try exact H.
  destruct (_ || _); [exact H|]. simpl. apply in_or_app. now left.
Qed.

Lemma wildcard_fold_sent selfname e answers acc :
  In e (snd acc) ->
  In e (snd (fold_left (wildcard_answer selfname) answers acc)).
Proof.
  revert acc. induction answers as [|a answers IH]; intros acc H; [exact H|].
  simpl. apply IH. now apply wildcard_answer_sent.
Qed.

Lemma wildcard_fold_learns n answers acc :
  JsObject.has n (fst acc) = false ->
  (forall a, In a answers -> meta_data (Some n) a <> Some n) ->
  forall a d,
    In a answers -> meta_data (Some n) a = Some d -> d <> "__proto__" ->
    let acc' := fold_left (wildcard_answer (Some n)) answers acc in
    In d (fst acc') /\ In (MdnsQuery (Some d)) (snd acc').
Proof.
  revert acc. induction answers as [|x answers IH];
    intros acc Hhas Hself a d Hin Hmeta Hd; [destruct Hin|].
  simpl.
  assert (Hx : wildcard_answer (Some n) acc x = acc /\
               meta_data (Some n) x = None \/
               exists d', meta_data (Some n) x = Some d' /\
                 wildcard_answer (Some n) acc x =
                   (JsObject.set d' (fst acc),
                    snd acc ++ [MdnsQuery (Some d')])).
  { destruct (wildcard_answer_cases (Some n) acc x)
      as [[H1 H2] | (n' & d' & Hn & Hm & Hc)]; [now left|].
    injection Hn as <-. rewrite Hhas in Hc. right. now exists d'. }
  destruct Hin as [<- | Hin].
  - destruct Hx as [[_ Hx] | (d' & Hm & Hx)]; [congruence|].
    assert (d' = d) by congruence. subst d'. rewrite Hx. split.
    + apply wildcard_fold_grows. simpl. now apply In_set_self.
    + apply wildcard_fold_sent. simpl. apply in_or_app. right. now left.
  - apply (IH _ ) with (a := a); try assumption.
    + destruct Hx as [[Hx _] | (d' & Hm & Hx)]; rewrite Hx; [exact Hhas|].
      simpl. rewrite has_set_other; [exact Hhas|].
      intros ->. apply (Hself x); [now left | exact Hm].
    + intros y Hy. apply Hself. now right.
Qed.

(** X13. A wildcard browser whose query name is not yet a key of [nameMap]
    learns every service type a packet's answers announce under that
    name: the type is tracked from then on and a PTR query for it is
    sent, provided the type is not the query name itself and not
    [__proto__]. *)
Theorem wildcard_browser_learns_types packet rinfo t b nameMap n :
  onresponse b = Some nameMap -> wildcard b = true -> name b = Some n ->
  JsObject.has n nameMap = false ->
  (forall a, In a (answers packet) -> meta_data (Some n) a <> Some n) ->
  forall a d,
    In a (answers packet) -> meta_data (Some n) a = Some d ->
    d <> "__proto__" ->
    let result := onresponse_call packet rinfo t b in
    exists nameMap',
      onresponse (fst result) = Some nameMap' /\
      In d (JsObject.keys nameMap') /\
      In (Some d) (queries (snd result)).
Proof.
  intros Hon Hw Hn Hhas Hself a d Hin Hmeta Hd result.
  destruct (onresponse_call_after packet rinfo t b nameMap Hon)
    as (_ & _ & Hon' & Hq).
  exists (fst (wildcard_block b packet nameMap)).
  split; [exact Hon'|].
  unfold result. rewrite Hq. unfold wildcard_block. rewrite Hw, Hn.
  destruct (wildcard_fold_learns n (answers packet) (nameMap, []) Hhas Hself
              a d Hin Hmeta Hd) as [H1 H2].
  split; [now apply In_keys|].
  unfold queries. apply In_omap. now exists (MdnsQuery (Some d)).
Qed.

(** ** Several SRV or TXT records for one instance *)

Lemma srv_txt_fold_last referer rs acc :
  let r := fold_left (srv_txt_step referer) rs acc in
  match last (List.filter RR.is_SRV rs) with
  | Some rr =>
      exists f target port,
        fst r = Some f /\ RR.data rr = RR.SRV target port /\
        f_name f = hd "" (Str.split "." (RR.name rr)) /\
        f_fqdn f = RR.name rr /\ f_host f = target /\ f_port f = port
  | None => fst r = fst acc
  end /\
  match last (List.filter RR.is_TXT rs) with
  | Some rr =>
      exists d, RR.data rr = RR.TXT d /\
                snd r = Some (mkTxtFields d (decodeAll d))
  | None => snd r = snd acc
  end.
Proof.
  induction rs as [|x rs IH] using rev_ind; [simpl; auto|].
  cbv zeta in *. rewrite fold_left_app, !List.filter_app. simpl.
  unfold srv_txt_step, RR.is_SRV, RR.is_TXT in *.
  destruct (RR.data x) as [d|tg pt|d|d|d|ty] eqn:Hx; simpl;
    rewrite ?app_nil_r, ?last_snoc; try exact IH.
  - split; [|apply IH]. eexists _, tg, pt. simpl. repeat split. exact Hx.
  - split; [apply IH|]. exists d. split; [exact Hx|reflexivity].
Qed.

Lemma filter_srv_of pdata l :
  List.filter RR.is_SRV (List.filter (is_srv_txt_of pdata) l) =
  List.filter (fun rr => RR.is_SRV rr && dnsEqual (RR.name rr) pdata) l.
Proof.
  rewrite filter_filter. apply List.filter_ext. intros x.
  unfold is_srv_txt_of, RR.is_SRV, RR.is_TXT.
  destruct (RR.data x), (dnsEqual _ _); reflexivity.
Qed.

Lemma filter_txt_of pdata l :
  List.filter RR.is_TXT (List.filter (is_srv_txt_of pdata) l) =
  List.filter (fun rr => RR.is_TXT rr && dnsEqual (RR.name rr) pdata) l.
Proof.
  rewrite filter_filter. apply List.filter_ext. intros x.
  unfold is_srv_txt_of, RR.is_SRV, RR.is_TXT.
  destruct (RR.data x), (dnsEqual _ _); reflexivity.
Qed.

(** X14. When a packet carries several SRV records, or several TXT
    records, with a positive ttl for the instance a PTR record points to,
    the last one in the packet (answers before additionals) decides: the
    candidate has the name, host and port of the last such SRV record and
    the TXT content of the last such TXT record, and no TXT content when
    there is none. *)
Theorem last_srv_and_txt_record_decide name packet rinfo t c :
  In c (buildServicesFor name packet rinfo t) ->
  exists ptr pdata,
    In ptr (live_records packet) /\ is_ptr_for name ptr = true /\
    RR.data ptr = RR.PTR pdata /\
    (exists srv,
       last (List.filter
               (fun rr => RR.is_SRV rr && dnsEqual (RR.name rr) pdata)
               (live_records packet)) = Some srv /\
       populated_from srv c) /\
    match last (List.filter
                  (fun rr => RR.is_TXT rr && dnsEqual (RR.name rr) pdata)
                  (live_records packet)) with
    | Some rr =>
        exists d, RR.data rr = RR.TXT d /\ Service.rawTxt c = Some d /\
                  Service.txt c = Some (decodeAll d)
    | None => Service.rawTxt c = None /\ Service.txt c = None
    end.
Proof.
  unfold buildServicesFor. rewrite In_omap. intros (ptr & Hptr & Hc).
  apply filter_In in Hptr. destruct Hptr as [Hptr Hfor].
  revert Hc. unfold candidate.
  destruct (RR.data ptr) as [pdata| | | | |] eqn:Hd; try discriminate.
  pose proof (srv_txt_fold_last rinfo
                (List.filter (is_srv_txt_of pdata) (live_records packet))
                (None, None)) as Hlast.
  cbv zeta in Hlast. rewrite filter_srv_of, filter_txt_of in Hlast.
  destruct (fold_left _ _ _) as [srv txt].
  destruct Hlast as [Hs Ht]. simpl in Hs, Ht.
  destruct srv as [f|]; [|discriminate].
  destruct (negb (Str.truthy (f_name f))) eqn:Hname; [discriminate|].
  intros [= <-]. exists ptr, pdata. repeat split; try assumption.
  - destruct (last _) as [rr|]; [|discriminate].
    destruct Hs as (f' & tg & pt & [= <-] & Hrr & H1 & H2 & H3 & H4).
    exists rr. split; [reflexivity|]. exists tg, pt. simpl.
    repeat split; try assumption.
    unfold Str.truthy in Hname. rewrite negb_involutive in Hname.
    intros E. rewrite E in Hname. discriminate.
  - clear Hs. revert Ht. destruct (last _) as [rr|].
    + intros (d & Hrr & ->). exists d. simpl. auto.
    + intros ->. simpl. auto.
Qed.

(** ** Events and the filter *)

Lemma removeService_admitted q F b :
  Forall (admitted q) (snd (removeService F b)).
Proof.
  unfold removeService. destruct (find_index _ _) as [[s i]|]; simpl;
    repeat constructor.
Qed.

Lemma match_service_admitted c b :
  Forall (admitted (txtQuery b)) (snd (match_service c b)).
Proof.
  unfold match_service.
  destruct (find_index _ _) as [[old i]|].
  - rewrite seq_run. cbn [fst snd]. apply Forall_app. split.
    + unfold updateServiceSrv. destruct (srv_changed _ _); simpl;
        repeat constructor.
    + set (old' := Service.set_lastSeen (Service.lastSeen c) old).
      set (b1 := set_services _ b).
      destruct (updateServiceSrv_settings old' c b1) as (_ & _ & Hq & _).
      unfold updateServiceTxt. rewrite Hq. simpl.
      destruct (equalTxt _ _); [constructor|].
      destruct (filterService c (txtQuery b)) eqn:Hc; simpl.
      * repeat constructor. exact Hc.
      * apply removeService_admitted.
  - unfold addService. destruct (filterService c (txtQuery b)) eqn:Hc; simpl;
      repeat constructor. exact Hc.
Qed.

Lemma process_name_admitted packet rinfo t name b :
  Forall (admitted (txtQuery b)) (snd (process_name packet rinfo t name b)).
Proof.
  unfold process_name. rewrite seq_run. simpl. apply Forall_app. split.
  - apply (forEach_effects (fun _ => True)); [|exact I].
    intros F b' _ _. split; [exact I | apply removeService_admitted].
  - apply (forEach_effects (fun b' => txtQuery b' = txtQuery b)).
    + intros c b' _ Hq. split.
      * destruct (match_service_settings c b') as (_ & _ & E & _). congruence.
      * rewrite <- Hq. apply match_service_admitted.
    + pose proof (forEach_config removeService (goodbyes name packet)
                    removeService_config b) as E.
      unfold config in E. congruence.
Qed.

Lemma no_event_admitted q es : events es = [] -> Forall (admitted q) es.
Proof.
  induction es as [|e es IH]; [constructor|].
  destruct e; simpl; try discriminate; intros H; constructor;
    try exact I; now apply IH.
Qed.

(** X15. Whatever is called on a browser, an [up] or [txt-update] event is
    emitted only for a service that satisfies the TXT query.  ([srv-update]
    is emitted before the filter is tested and [down] for the stored
    entry, so neither is covered.) *)
Theorem up_and_txt_update_respect_the_filter (c : Call) (b : Browser) :
  Forall (admitted (txtQuery b)) (snd (call c b)) /\
  forall s,
    (In (Up s) (events (snd (call c b))) \/
     exists old, In (TxtUpdate s old) (events (snd (call c b)))) ->
    filterService s (txtQuery b) = true.
Proof.
  assert (H : Forall (admitted (txtQuery b)) (snd (call c b))).
  { destruct c; simpl.
    - unfold start. destruct (onresponse b), (name b); repeat constructor.
    - unfold stop. destruct (onresponse b); repeat constructor.
    - repeat constructor.
    - unfold expire. rewrite expire_filter_spec. simpl.
      apply Forall_forall. intros e He.
      apply list_elem_of_In, in_map_iff in He. destruct He as (s & <- & _).
      exact I.
    - destruct (onresponse b) as [nameMap|] eqn:Hon.
      + rewrite (onresponse_call_run _ _ _ _ _ Hon). cbn [snd].
        apply Forall_app. split.
        * apply no_event_admitted, wildcard_block_queries.
        * apply (forEach_effects (fun b' => txtQuery b' = txtQuery b));
            [|reflexivity].
          intros n b' _ Hq. split.
          -- pose proof (process_name_config packet rinfo receiveTime n b')
               as E.
             unfold config in E. congruence.
          -- rewrite <- Hq. apply process_name_admitted.
      + unfold onresponse_call. rewrite Hon. constructor. }
  split; [exact H|].
  rewrite Forall_forall in H.
  assert (He : forall e, In e (events (snd (call c b))) ->
                         admitted (txtQuery b) (Emit e)).
  { intros e Hin. unfold events in Hin. apply In_omap in Hin.
    destruct Hin as (x & Hx & Hm). destruct x; try discriminate.
    injection Hm as <-. apply H. now apply list_elem_of_In. }
  intros s [Hs | [old Hs]]; exact (He _ Hs).
Qed.

(** ** The filter and the known services *)

Section FilterInvariant.

Hypothesis dnsEqual_sym : forall a b, dnsEqual a b = dnsEqual b a.
Hypothesis dnsEqual_trans :
  forall a b c,
    dnsEqual a b = true -> dnsEqual b c = true -> dnsEqual a c = true.

(** The filter looks at the TXT mapping of a service only, an absent
    mapping counting as the empty one. *)
Hypothesis filter_by_txt :
  forall s s' q,
    txt_or_empty s = txt_or_empty s' -> filterService s q = filterService s' q.

(** What [equalTxt] calls equal is the same mapping. *)
Hypothesis equalTxt_sound :
  forall a m, equalTxt a m = true -> default ∅ a = m.

Lemma removeService_one_per F b :
  one_per_fqdn (_services b) -> one_per_fqdn (_services (fst (removeService F b))).
Proof.
  intros H. apply (removeService_inv one_per_fqdn); [|exact H].
  intros i l. apply (one_per_fqdn_sublist dnsEqual_sym), splice1_sublist.
Qed.

Lemma match_service_one_per c b :
  one_per_fqdn (_services b) -> one_per_fqdn (_services (fst (match_service c b))).
Proof.
  intros H. apply (match_service_inv one_per_fqdn (fun _ => True));
    [| | | |exact I|exact H].
  - intros i l. apply (one_per_fqdn_sublist dnsEqual_sym), splice1_sublist.
  - intros c' l Hl _. now apply one_per_fqdn_push.
  - intros c' l Hl _. now apply one_per_fqdn_replace.
  - intros v x i l. apply one_per_fqdn_refresh.
Qed.

Lemma all_pass_sublist q l' l :
  l' `sublist_of` l -> all_pass q l -> all_pass q l'.
Proof.
  unfold all_pass. intros Hsub H. apply Forall_forall. intros x Hx.
  rewrite Forall_forall in H. apply H. eapply sublist_subseteq; eassumption.
Qed.

Lemma all_pass_replace q c l :
  filterService c q = true -> all_pass q l ->
  all_pass q (List.map (fun s => if negb (same_fqdn (Service.fqdn c) s)
                                 then s else c) l).
Proof.
  unfold all_pass. intros Hc H. apply Forall_forall. intros x Hx.
  apply list_elem_of_In, in_map_iff in Hx. destruct Hx as (y & <- & Hy).
  destruct (negb _); [|exact Hc].
  rewrite Forall_forall in H. apply H. now apply list_elem_of_In.
Qed.

Lemma removeService_pass F b :
  all_pass (txtQuery b) (_services b) ->
  all_pass (txtQuery b) (_services (fst (removeService F b))).
Proof.
  unfold removeService. destruct (find_index _ _) as [[s i]|]; simpl; [|easy].
  apply all_pass_sublist, splice1_sublist.
Qed.

Lemma match_service_pass c b :
  one_per_fqdn (_services b) ->
  all_pass (txtQuery b) (_services b) ->
  all_pass (txtQuery b) (_services (fst (match_service c b))).
Proof.
  intros Huniq Hpass. unfold match_service.
  destruct (find_index _ _) as [[old i]|] eqn:Hfind.
  - apply find_index_Some in Hfind. destruct Hfind as (Hi & Hsame & _).
    set (old' := Service.set_lastSeen (Service.lastSeen c) old).
    set (l1 := <[i:=old']> (_services b)).
    set (b1 := set_services l1 b).
    set (q := txtQuery b) in *.
    assert (Hold : filterService old' q = true).
    { rewrite (filter_by_txt old' old q eq_refl).
      exact (Forall_lookup_1 _ _ _ _ Hpass Hi). }
    assert (H1 : all_pass q l1) by (apply Forall_insert; assumption).
    assert (U1 : one_per_fqdn l1) by now apply one_per_fqdn_refresh.
    assert (Hrefl : same_fqdn (Service.fqdn c) c = true).
    { unfold same_fqdn in *.
      apply (dnsEqual_trans _ (Service.fqdn old)); [|exact Hsame].
      now rewrite dnsEqual_sym. }
    rewrite seq_run. cbn [fst].
    set (b2 := fst (updateServiceSrv old' c b1)).
    assert (Hq2 : txtQuery b2 = q).
    { destruct (updateServiceSrv_settings old' c b1) as (_ & _ & H & _).
      exact H. }
    assert (E2 : _services b2 = l1 \/
                 _services b2 =
                   List.map (fun s => if negb (same_fqdn (Service.fqdn c) s)
                                      then s else c) l1).
    { unfold b2, updateServiceSrv. destruct (srv_changed old' c); [|now left].
      right. now rewrite seq_run. }
    assert (U2 : one_per_fqdn (_services b2)).
    { destruct E2 as [-> | ->]; [exact U1|]. now apply one_per_fqdn_replace. }
    unfold updateServiceTxt. rewrite Hq2.
    destruct (filterService c q) eqn:Hc.
    + assert (H2 : all_pass q (_services b2)).
      { destruct E2 as [-> | ->]; [exact H1|]. now apply all_pass_replace. }
      destruct (equalTxt _ _); [exact H2|]. simpl.
      now apply all_pass_replace.
    + destruct (equalTxt _ _) eqn:Heq.
      * apply equalTxt_sound in Heq.
        assert (Et : txt_or_empty c = txt_or_empty old').
        { rewrite <- Heq. unfold txt_or_empty. now destruct (Service.txt c). }
        rewrite (filter_by_txt c old' q Et), Hold in Hc. discriminate.
      * simpl. destruct (removeService_unique dnsEqual_sym dnsEqual_trans
                           (Service.fqdn c) b2 U2) as [E _].
        rewrite E. apply Forall_forall. intros y Hy.
        apply list_elem_of_In, filter_In in Hy. destruct Hy as [Hy Hn].
        apply negb_true_iff in Hn.
        unfold all_pass in H1. rewrite Forall_forall in H1.
        destruct E2 as [E2 | E2]; rewrite E2 in Hy.
        -- apply H1. now apply list_elem_of_In.
        -- apply in_map_iff in Hy. destruct Hy as (u & Hu & Hin).
           destruct (negb (same_fqdn (Service.fqdn c) u)).
           ++ subst y. apply H1. now apply list_elem_of_In.
           ++ subst y. congruence.
  - unfold addService. destruct (filterService c (txtQuery b)) eqn:Hc; simpl;
      [|exact Hpass].
    apply Forall_app. split; [exact Hpass|]. constructor; [exact Hc|constructor].
Qed.

(** The two properties together, for a fixed TXT query. *)
Lemma process_name_pass q packet rinfo t name b :
  txtQuery b = q /\ one_per_fqdn (_services b) /\ all_pass q (_services b) ->
  let b' := fst (process_name packet rinfo t name b) in
  txtQuery b' = q /\ one_per_fqdn (_services b') /\ all_pass q (_services b').
Proof.
  intros H. unfold process_name. rewrite seq_run. cbn [fst].
  apply (forEach_state
           (fun b => txtQuery b = q /\ one_per_fqdn (_services b) /\
                     all_pass q (_services b))).
  - intros c b0 _ (Hq & Hu & Hp). split; [|split].
    + destruct (match_service_settings c b0) as (_ & _ & E & _). congruence.
    + now apply match_service_one_per.
    + rewrite <- Hq in *. now apply match_service_pass.
  - apply (forEach_state
             (fun b => txtQuery b = q /\ one_per_fqdn (_services b) /\
                       all_pass q (_services b))); [|exact H].
    intros F b0 _ (Hq & Hu & Hp). split; [|split].
    + destruct (removeService_settings F b0) as (_ & _ & E & _). congruence.
    + now apply removeService_one_per.
    + rewrite <- Hq in *. now apply removeService_pass.
Qed.

Lemma call_pass c b :
  one_per_fqdn (_services b) /\ all_pass (txtQuery b) (_services b) ->
  let b' := fst (call c b) in
  one_per_fqdn (_services b') /\ all_pass (txtQuery b') (_services b').
Proof.
  intros [Hu Hp]. simpl.
  pose proof (call_config c b) as Hc. unfold config in Hc.
  injection Hc as _ _ Hq _. rewrite Hq.
  destruct c; simpl.
  - now rewrite start_services.
  - now rewrite stop_services.
  - auto.
  - unfold expire. rewrite expire_filter_spec. simpl. split.
    + eapply (one_per_fqdn_sublist dnsEqual_sym); [apply filter_sublist|exact Hu].
    + eapply all_pass_sublist; [apply filter_sublist | exact Hp].
  - destruct (onresponse b) as [nameMap|] eqn:Hon.
    + rewrite (onresponse_call_run _ _ _ _ _ Hon). cbn [fst].
      assert (H : let b' := fst (forEach (process_name packet rinfo receiveTime)
                     (JsObject.keys (fst (wildcard_block b packet nameMap)))
                     (set_onresponse
                        (Some (fst (wildcard_block b packet nameMap))) b)) in
                  txtQuery b' = txtQuery b /\ one_per_fqdn (_services b') /\
                  all_pass (txtQuery b) (_services b')).
      { apply (forEach_state
                 (fun b0 => txtQuery b0 = txtQuery b /\
                            one_per_fqdn (_services b0) /\
                            all_pass (txtQuery b) (_services b0))).
        - intros n b0 _ H0. now apply process_name_pass.
        - simpl. auto. }
      simpl in H. tauto.
    + unfold onresponse_call. rewrite Hon. auto.
Qed.

(** X16. With a DNS equality that is symmetric and transitive, a filter that
    looks at the TXT mapping only and an [equalTxt] that calls only the same
    mapping equal: every service a browser knows, in every state it can
    reach, satisfies the TXT query, also after SRV and TXT updates. *)
Theorem known_services_pass_the_filter b :
  reachable b ->
  forall s, In s (_services b) -> filterService s (txtQuery b) = true.
Proof.
  intros Hb.
  assert (H : one_per_fqdn (_services b) /\
              all_pass (txtQuery b) (_services b)).
  { induction Hb as [opts onup | b c _ IH].
    - assert (E : _services (fst (constructor opts onup)) = []).
      { apply (constructor_inv (fun l => l = [])). reflexivity. }
      rewrite E. split; [apply one_per_fqdn_nil | constructor].
    - now apply call_pass. }
  destruct H as [_ H]. unfold all_pass in H. rewrite Forall_forall in H.
  intros s Hs. apply H. now apply list_elem_of_In.
Qed.

End FilterInvariant.

End FurtherProperties.

(** * The properties on the example packets *)

Lemma one_per_fqdn_singleton `{Helpers} (s : Service.t) : one_per_fqdn [s].
Proof.
  intros [|i] [|j] a b Ha Hb _; simpl in *; try discriminate; reflexivity.
Qed.

Lemma Ref_dnsEqual_sym a b : Ref.dnsEqual a b = Ref.dnsEqual b a.
Proof. unfold Ref.dnsEqual. apply String.eqb_sym. Qed.

Lemma Ref_dnsEqual_trans a b c :
  Ref.dnsEqual a b = true -> Ref.dnsEqual b c = true ->
  Ref.dnsEqual a c = true.
Proof.
  unfold Ref.dnsEqual. rewrite !String.eqb_eq. congruence.
Qed.

Lemma Ref_equalTxt_spec m1 m2 : Ref.equalTxt (Some m1) m2 = true <-> m1 = m2.
Proof. unfold Ref.equalTxt. apply bool_decide_eq_true. Qed.

Lemma Ref_equalTxt_absent (m : KeyValue) :
  m <> ∅ -> Ref.equalTxt None m = false.
Proof. reflexivity. Qed.

Lemma Ref_filterService_absent s : Ref.filterService s None = true.
Proof. reflexivity. Qed.

Section Examples.

#[local] Existing Instance Ref.helpers.

Import Example.

Lemma known_services :
  _services known = [printer ["path=/"] 1000].
Proof. vm_compute. reflexivity. Qed.

Lemma known_a1_services :
  _services known_a1 = [printer ["a=1"] 1000].
Proof. vm_compute. reflexivity. Qed.

Lemma known_one_per_fqdn : one_per_fqdn (_services known).
Proof. rewrite known_services. apply one_per_fqdn_singleton. Qed.

Lemma known_a1_one_per_fqdn : one_per_fqdn (_services known_a1).
Proof. rewrite known_a1_services. apply one_per_fqdn_singleton. Qed.

Lemma path_maps_differ : decodeAll ["path=/"] <> decodeAll ["path=/new"].
Proof. apply (proj1 (bool_decide_eq_false _)). vm_compute. reflexivity. Qed.

Lemma path_map_not_empty : decodeAll ["path=/"] <> (∅ : KeyValue).
Proof. apply (proj1 (bool_decide_eq_false _)). vm_compute. reflexivity. Qed.

Lemma two_known_reachable : reachable Scenario.two_known.
Proof.
  apply reachable_call, reachable_call.
  exact (reachable_call fresh (CallResponse (announce ["path=/"]) rinfo 1000)
           (reachable_new (OptsConfig http) None)).
Qed.

(** C7 on the browser that knows the printer and the scanner, after the
    printer was announced again under a DNS-equal name in capital letters
    and replaced the stored entry. *)
Lemma known_services_one_per_fqdn_witness :
  List.map Service.fqdn (_services Scenario.two_known)
    = [Scenario.shouted_fqdn; Scenario.scanner_fqdn] /\
  dnsEqual Scenario.shouted_fqdn fqdn = true /\
  one_per_fqdn (_services Scenario.two_known).
Proof.
  split; [vm_compute; reflexivity|]. split; [reflexivity|].
  exact (proj1
    (known_services_one_per_fqdn (helpers := Ref.helpers)
       Ref_dnsEqual_sym Ref_dnsEqual_trans
       Scenario.two_known two_known_reachable)).
Defined.

(** C2 (amended) on the printer's goodbye, alone and together with the
    announcement of the scanner, each handled twice. *)
Lemma goodbye_removes_known_service_witness :
  (let first := onresponse_call Scenario.leaving rinfo 2000 known in
   let second := onresponse_call Scenario.leaving rinfo 3000 (fst first) in
   (forall x, In x (_services (fst first)) ->
              dnsEqual (Service.fqdn x) fqdn = false) /\
   List.filter (down_for fqdn) (events (snd first))
     = [Down (printer ["path=/"] 1000)] /\
   (forall x, In x (_services (fst second)) ->
              dnsEqual (Service.fqdn x) fqdn = false) /\
   List.filter (down_for fqdn) (events (snd second)) = []) /\
  (let first := onresponse_call goodbye rinfo 2000 known in
   let second := onresponse_call goodbye rinfo 3000 (fst first) in
   fst second = fst first /\ events (snd second) = []).
Proof.
  split.
  - destruct (goodbye_removes_known_service (helpers := Ref.helpers)
       Ref_dnsEqual_sym Ref_dnsEqual_trans
       Scenario.leaving rinfo 2000 3000 known [tracked] tracked (ptr 0) fqdn
       (printer ["path=/"] 1000)
       eq_refl known_one_per_fqdn (or_introl eq_refl) (or_introl eq_refl)
       eq_refl eq_refl eq_refl
       ltac:(rewrite known_services; now left) eq_refl) as (H1 & H2 & H3 & H4 & _).
    + intros n t0 c. apply candidates_differ.
      intros r [<-|[<-|[<-|[<-|[<-|[]]]]]] Hs _; try discriminate Hs.
      reflexivity.
    + repeat split; assumption.
  - apply (goodbye_removes_known_service (helpers := Ref.helpers)
       Ref_dnsEqual_sym Ref_dnsEqual_trans
       goodbye rinfo 2000 3000 known [tracked] tracked (ptr 0) fqdn
       (printer ["path=/"] 1000)
       eq_refl known_one_per_fqdn (or_introl eq_refl) (or_introl eq_refl)
       eq_refl eq_refl eq_refl
       ltac:(rewrite known_services; now left) eq_refl).
    + intros n t0 c. apply candidates_differ.
      intros r [<-|[]] Hs. discriminate Hs.
    + intros r [<-|[]] _. simpl. lia.
Defined.

(** C2 as stated fails.  The packet [restart] holds the printer's
    goodbye, yet after it was handled the printer is known as before (a
    [down] and an [up] event were emitted); handled by a browser that knows
    no service, the same packet changes the known services and emits [up].
    And the packet [leaving], which holds the goodbye and the announcement
    of another service, does not leave the known services as they are when
    it is handled again: the other service is seen anew. *)
Lemma goodbye_with_announcement_keeps_service :
  In (ptr 0) (all_records restart) /\
  (_services known = [printer ["path=/"] 1000] /\
   _services (fst (onresponse_call restart rinfo 1000 known))
     = [printer ["path=/"] 1000] /\
   events (snd (onresponse_call restart rinfo 1000 known))
     = [Down (printer ["path=/"] 1000); Up (printer ["path=/"] 1000)]) /\
  (_services fresh = [] /\
   _services (fst (onresponse_call restart rinfo 1000 fresh))
     = [printer ["path=/"] 1000] /\
   events (snd (onresponse_call restart rinfo 1000 fresh))
     = [Up (printer ["path=/"] 1000)]) /\
  (let first := onresponse_call Scenario.leaving rinfo 2000 known in
   let second := onresponse_call Scenario.leaving rinfo 3000 (fst first) in
   In (ptr 0) (all_records Scenario.leaving) /\
   List.map Service.fqdn (_services (fst first)) = [Scenario.scanner_fqdn] /\
   List.map Service.lastSeen (_services (fst first)) = [2000] /\
   List.map Service.lastSeen (_services (fst second)) = [3000]).
Proof.
  split; [now left|]. split; [vm_compute; repeat split|].
  split; [vm_compute; repeat split|].
  cbv zeta. split; [now left|]. vm_compute. repeat split.
Qed.

(** C3 (amended) on announcements that change the TXT content only: one
    that passes the filter and one that fails it. *)
Lemma update_events_follow_changes_witness :
  events (snd (match_service (printer ["path=/new"] 2000) known))
    = [TxtUpdate (printer ["path=/new"] 2000) (printer ["path=/"] 2000)] /\
  events (snd (match_service (printer ["a=2"] 2000) known_a1))
    = [Down (printer ["a=1"] 2000)].
Proof.
  split.
  - apply (proj1 (proj2
      (update_events_follow_changes (helpers := Ref.helpers)
         (printer ["path=/"] 1000) 0%nat (printer ["path=/new"] 2000) known
         (decodeAll ["path=/new"])
         ltac:(vm_compute; reflexivity) eq_refl
         Ref_equalTxt_spec))).
    + repeat split.
    + exact path_maps_differ.
    + reflexivity.
  - apply (proj1 (proj2 (proj2 (proj2 (proj2
      (update_events_follow_changes (helpers := Ref.helpers)
         (printer ["a=1"] 1000) 0%nat (printer ["a=2"] 2000) known_a1
         (decodeAll ["a=2"])
         ltac:(vm_compute; reflexivity) eq_refl
         Ref_equalTxt_spec)))))).
    + repeat split.
    + apply (proj1 (bool_decide_eq_false _)). vm_compute. reflexivity.
    + vm_compute. reflexivity.
Defined.

(** C4 on a TXT change that leaves the filter [a=1]. *)
Lemma txt_update_respects_filter_witness :
  let result :=
    updateServiceTxt (printer ["a=1"] 1000) (printer ["a=2"] 2000) known_a1 in
  _services (fst result) = splice1 0 (_services known_a1) /\
  (forall y, In y (_services (fst result)) ->
             dnsEqual (Service.fqdn y) fqdn = false) /\
  snd result = [Emit (Down (printer ["a=1"] 1000))].
Proof.
  apply (proj1
    (txt_update_respects_filter (helpers := Ref.helpers)
           Ref_dnsEqual_sym Ref_dnsEqual_trans
       (printer ["a=1"] 1000) (printer ["a=2"] 2000) known_a1
       (printer ["a=1"] 1000) 0%nat
       known_a1_one_per_fqdn
       ltac:(vm_compute; reflexivity) ltac:(vm_compute; reflexivity))).
  vm_compute. reflexivity.
Defined.




(** C9 on an announcement without TXT record for the known printer. *)
Lemma announcement_without_txt_erases_txt_witness :
  let result := match_service (bare_printer 2000) known in
  Service.txt (bare_printer 2000) = None /\
  Service.rawTxt (bare_printer 2000) = None /\
  In (TxtUpdate (bare_printer 2000) (printer ["path=/"] 2000))
     (events (snd result)) /\
  _services (fst result) !! 0%nat = Some (bare_printer 2000).
Proof.
  apply (announcement_without_txt_erases_txt (helpers := Ref.helpers)
           bare tracked rinfo 2000 known (bare_printer 2000)
           (printer ["path=/"] 1000) 0%nat (decodeAll ["path=/"])).
  - reflexivity.
  - exact Ref_filterService_absent.
  - exact Ref_equalTxt_absent.
  - intros r [<-|[<-|[<-|[]]]]; reflexivity.
  - vm_compute. now left.
  - vm_compute. reflexivity.
  - reflexivity.
  - exact path_map_not_empty.
Defined.

(** C3 as stated fails.  With the filter [a=1] configured, an
    announcement that changes only the TXT content, to [a=2], emits [down]
    and no [txt-update].  And an announcement without TXT record, repeated
    unchanged for a service stored without TXT content, emits [txt-update]
    each time: the candidate's absent content is compared with the empty
    mapping that stands for the stored absent content. *)
Lemma update_events_depart_from_changes :
  (srv_changed (printer ["a=1"] 1000) (printer ["a=2"] 2000) = false /\
   buildServicesFor tracked (announce ["a=2"]) rinfo 2000
     = [printer ["a=2"] 2000] /\
   events (snd (onresponse_call (announce ["a=2"]) rinfo 2000 known_a1))
     = [Down (printer ["a=1"] 2000)]) /\
  (_services Scenario.known_bare = [bare_printer 1000] /\
   buildServicesFor tracked bare rinfo 2000 = [bare_printer 2000] /\
   srv_changed (bare_printer 1000) (bare_printer 2000) = false /\
   Service.txt (bare_printer 1000) = Service.txt (bare_printer 2000) /\
   Service.rawTxt (bare_printer 1000) = Service.rawTxt (bare_printer 2000) /\
   events (snd (onresponse_call bare rinfo 2000 Scenario.known_bare))
     = [TxtUpdate (bare_printer 2000) (bare_printer 2000)] /\
   events (snd (onresponse_call bare rinfo 3000
                  (fst (onresponse_call bare rinfo 2000 Scenario.known_bare))))
     = [TxtUpdate (bare_printer 3000) (bare_printer 3000)]).
Proof. vm_compute. repeat split. Qed.

End Examples.

(** * The further properties on the example packets *)

Lemma Ref_filter_by_txt s s' q :
  txt_or_empty s = txt_or_empty s' ->
  Ref.filterService s q = Ref.filterService s' q.
Proof.
  unfold Ref.filterService, txt_or_empty. intros E. destruct q as [q|]; [|easy].
  assert (E' : default (∅ : KeyValue) (Service.txt s)
               = default (∅ : KeyValue) (Service.txt s')).
  { destruct (Service.txt s), (Service.txt s'); exact E. }
  now rewrite E'.
Qed.

Lemma Ref_equalTxt_sound (a : option KeyValue) (m : KeyValue) :
  Ref.equalTxt a m = true -> default ∅ a = m.
Proof.
  destruct a as [x|]; simpl; [|discriminate].
  apply bool_decide_eq_true.
Qed.

Section FurtherExamples.

#[local] Existing Instance Ref.helpers.

Import Example Scenario.

Lemma known_reachable : reachable known.
Proof.
  exact (reachable_call fresh (CallResponse (announce ["path=/"]) rinfo 1000)
           (reachable_new (OptsConfig http) None)).
Qed.

Lemma known_a1_reachable : reachable known_a1.
Proof.
  exact (reachable_call fresh_a1 (CallResponse (announce ["a=1"]) rinfo 1000)
           (reachable_new (OptsConfig http_a1) None)).
Qed.

(** X1 on the browser that knows the printer, which lapses at 121000. *)
Lemma expire_again_is_idle_witness :
  expire 150000 (fst (expire 200000 known)) = (fst (expire 200000 known), []).
Proof.
  apply (expire_again_is_idle 200000 150000 known).
  lia.
Defined.

(** X2 on the wildcard browser that has learnt the http type. *)
Lemma stop_then_start_witness :
  onresponse wild_http = Some [tracked] /\
  onresponse (fst (start (fst (stop wild_http)))) = Some [].
Proof.
  split; [reflexivity|].
  destruct (stop_then_start
              wild_http [tracked] WILDCARD eq_refl eq_refl)
    as (_ & _ & _ & _ & E & _).
  rewrite E. reflexivity.
Defined.

(** X4 on the wildcard browser and the meta-answer. *)
Lemma handler_tracks_only_meta_answers_witness :
  exists nameMap',
    onresponse (fst (onresponse_call meta rinfo 1000 wild)) = Some nameMap' /\
    (forall k, In k [] -> In k nameMap') /\
    (wildcard wild = false ->
     nameMap' = [] /\
     Forall is_emit (snd (onresponse_call meta rinfo 1000 wild))) /\
    (forall k, In k nameMap' ->
       In k [] \/
       exists a, In a (answers meta) /\ meta_data (name wild) a = Some k) /\
    (forall e, In e (snd (onresponse_call meta rinfo 1000 wild)) ->
       is_emit e \/
       exists a d, In a (answers meta) /\ meta_data (name wild) a = Some d /\
                   e = MdnsQuery (Some d)).
Proof.
  exact (handler_tracks_only_meta_answers (helpers := Ref.helpers)
           meta rinfo 1000 wild [] eq_refl).
Defined.

(** X5 on the wildcard browser that tracks the meta-name. *)
Lemma wildcard_guard_closes_witness :
  onresponse (fst (onresponse_call meta rinfo 2000 wild_closed))
    = Some [WILDCARD] /\
  queries (snd (onresponse_call meta rinfo 2000 wild_closed)) = [].
Proof.
  exact (wildcard_guard_closes (helpers := Ref.helpers)
           meta rinfo 2000 wild_closed [WILDCARD] WILDCARD
           eq_refl eq_refl eq_refl).
Defined.

(** X6 on the http browser and a packet about printing services. *)
Lemma unrelated_packet_is_ignored_witness :
  onresponse_call ipp rinfo 2000 known = (known, []).
Proof.
  apply (unrelated_packet_is_ignored (helpers := Ref.helpers)
           ipp rinfo 2000 known [tracked] eq_refl eq_refl).
  intros rr n [<-|[<-|[<-|[]]]] [<-|[]] Hp; try discriminate Hp.
  reflexivity.
Defined.

(** X7 on the browser that has seen one announcement. *)
Lemma reachable_browser_names_witness :
  exists n,
    name known = Some n /\
    (exists pre, n = pre +:+ TLD) /\
    (wildcard known = true -> n = WILDCARD) /\
    (wildcard known = false ->
     forall nameMap, onresponse known = Some nameMap ->
                     JsObject.keys nameMap = [n]) /\
    (onresponse known = None ->
     exists nameMap, onresponse (fst (start known)) = Some nameMap).
Proof.
  exact (reachable_browser_names (helpers := Ref.helpers) known
           known_reachable).
Defined.


(** X9 on the printer's announcement, repeated a second later. *)
Lemma repeated_announcement_refreshes_lastSeen_witness :
  match_service (printer ["path=/"] 2000) known
    = (set_services [printer ["path=/"] 2000] known, []).
Proof.
  exact (proj1
    (repeated_announcement_refreshes_lastSeen (helpers := Ref.helpers)
       (printer ["path=/"] 1000) 0%nat (printer ["path=/"] 2000) known
       eq_refl eq_refl ltac:(vm_compute; reflexivity))).
Defined.

(** X11 on the printer's announcement. *)
Lemma candidate_addresses_come_from_the_packet_witness :
  Service.addresses (printer ["path=/"] 1000) = ["192.168.1.20"].
Proof.
  exact (proj1
    (candidate_addresses_come_from_the_packet (helpers := Ref.helpers)
       tracked (announce ["path=/"]) rinfo 1000 (printer ["path=/"] 1000)
       (or_introl eq_refl))).
Defined.

(** X13 on the wildcard browser and the meta-answer. *)
Lemma wildcard_browser_learns_types_witness :
  exists nameMap',
    onresponse (fst (onresponse_call meta rinfo 1000 wild)) = Some nameMap' /\
    In tracked (JsObject.keys nameMap') /\
    In (Some tracked) (queries (snd (onresponse_call meta rinfo 1000 wild))).
Proof.
  apply (wildcard_browser_learns_types (helpers := Ref.helpers)
           meta rinfo 1000 wild [] WILDCARD eq_refl eq_refl eq_refl eq_refl)
    with (a := RR.mk WILDCARD 120 (RR.PTR tracked)).
  - intros a [<-|[]]. discriminate.
  - now left.
  - reflexivity.
  - discriminate.
Defined.

(** X14 on a packet with two SRV and two TXT records for the printer. *)
Lemma last_srv_and_txt_record_decide_witness :
  exists ptr pdata,
    In ptr (live_records updated) /\ is_ptr_for tracked ptr = true /\
    RR.data ptr = RR.PTR pdata /\
    (exists srv,
       last (List.filter
               (fun rr => RR.is_SRV rr && dnsEqual (RR.name rr) pdata)
               (live_records updated)) = Some srv /\
       populated_from srv (printer ["path=/"] 1000)) /\
    match last (List.filter
                  (fun rr => RR.is_TXT rr && dnsEqual (RR.name rr) pdata)
                  (live_records updated)) with
    | Some rr =>
        exists d, RR.data rr = RR.TXT d /\
                  Service.rawTxt (printer ["path=/"] 1000) = Some d /\
                  Service.txt (printer ["path=/"] 1000) = Some (decodeAll d)
    | None => Service.rawTxt (printer ["path=/"] 1000) = None /\
              Service.txt (printer ["path=/"] 1000) = None
    end.
Proof.
  exact (last_srv_and_txt_record_decide (helpers := Ref.helpers)
           tracked updated rinfo 1000 (printer ["path=/"] 1000)
           (or_introl eq_refl)).
Defined.


(** X12 on the printer the browser knows. *)
Lemma service_name_is_first_label_witness :
  first_label (printer ["path=/"] 1000).
Proof.
  exact (proj2 (service_name_is_first_label (helpers := Ref.helpers))
           known known_reachable (printer ["path=/"] 1000)
           (or_introl eq_refl)).
Defined.

(** X15 on the first announcement of a printer with [a=1]. *)
Lemma up_and_txt_update_respect_the_filter_witness :
  filterService (printer ["a=1"] 1000) (txtQuery fresh_a1) = true.
Proof.
  exact (proj2
    (up_and_txt_update_respect_the_filter (helpers := Ref.helpers)
       (CallResponse (announce ["a=1"]) rinfo 1000) fresh_a1)
    (printer ["a=1"] 1000) (or_introl (or_introl eq_refl))).
Defined.

(** X16 on the browser that filters on [a=1]. *)
Lemma known_services_pass_the_filter_witness :
  filterService (printer ["a=1"] 1000) (txtQuery known_a1) = true.
Proof.
  apply (known_services_pass_the_filter (helpers := Ref.helpers)
           Ref_dnsEqual_sym Ref_dnsEqual_trans
           Ref_filter_by_txt Ref_equalTxt_sound
           known_a1 known_a1_reachable).
  rewrite known_a1_services. now left.
Defined.

End FurtherExamples.
